(** * kakarot_scripts/ef_tests/debug.py: a shallow embedding

    The script replays one Ethereum-Foundation blockchain test against a
    local anvil node: it picks the test file from the parsed corpus, seeds
    the node with the pre-state, sends the block's transactions one at a
    time and compares the node's state with the expected post-state.

    Layout of this file:
    - [Py]        the Python built-ins the script relies on (substring
                  test, [int(s, 16)], [f"{n:064x}"], [bytes.fromhex],
                  slices), on strings of ASCII characters;
    - [Exn]       exceptions and f-string messages; an f-string is kept as
                  its parts, the values put into it not yet rendered;
    - [Loader]    [get_test_file];
    - [Verifier]  [check_post_state];
    - [Pipeline]  [set_pre_state], [set_block], the replay loop and
                  [main], over an abstract node and a log of what the
                  script does to the outside;
    - [Vocabulary] the predicates the statements are written with, and
                  [Sample], concrete vectors and nodes;
    - the facts, one module per component.

    The script raises [ValueError] and [Exception] only; which
    message stands for which failure is said at each theorem. The
    [logger] calls are left out. *)

From Stdlib Require Import ZArith List String Ascii Bool Lia.
From Stdlib Require Import Init.Byte.
From Stdlib Require Import Permutation.
Import ListNotations.

Set Warnings "-register-all".

Local Open Scope string_scope.
Local Open Scope Z_scope.

(* ------------------------------------------------------------------ *)
(** * Python built-ins *)

Module Py.

(** [bytes] objects. *)
Definition bytes := list byte.

(** [s[n:]] on a [str]: drops the first [n] characters, the empty string
    when [s] is shorter. *)
Fixpoint slice_from (n : nat) (s : string) : string :=
  match n, s with
  | O, _ => s
  | S _, EmptyString => EmptyString
  | S n', String _ s' => slice_from n' s'
  end.

(** [sub in s] on two [str]: [sub] occurs in [s] as a contiguous run. *)
Fixpoint str_in (sub s : string) : bool :=
  String.prefix sub s
  || match s with
     | EmptyString => false
     | String _ s' => str_in sub s'
     end.

(** What [str_in] decides, stated on its own. *)
Definition occurs_in (sub s : string) : Prop :=
  exists before after, s = before ++ sub ++ after.

(** [Py_ISSPACE] on an ASCII character: space, \t, \n, \v, \f, \r. *)
Definition is_space (c : ascii) : bool :=
  let n := N_of_ascii c in
  (n =? 32)%N || ((9 <=? n)%N && (n <=? 13)%N).

(** [_PyLong_DigitValue[c] < 16]: the value of a hexadecimal digit. *)
Definition hex_digit (c : ascii) : option Z :=
  let n := Z.of_N (N_of_ascii c) in
  if (48 <=? n) && (n <=? 57) then Some (n - 48)
  else if (97 <=? n) && (n <=? 102) then Some (n - 87)
  else if (65 <=? n) && (n <=? 70) then Some (n - 55)
  else None.

(** The lower-case digit of a value below sixteen, as ['x'] formats it. *)
Definition hexchar (d : Z) : ascii :=
  ascii_of_N (Z.to_N (if d <? 10 then 48 + d else 87 + d)).

Fixpoint lstrip (s : string) : string :=
  match s with
  | String c s' => if is_space c then lstrip s' else s
  | EmptyString => s
  end.

(** The digit loop of [long_from_binary_base]: digits and single
    underscores; [prev_us] records that the previous character was an
    underscore, [seen] that at least one character was consumed. Returns
    the value read and the unread rest, [None] on a doubled or trailing
    underscore. *)
Fixpoint scan_hex (prev_us seen : bool) (acc : Z) (s : string)
  : option (Z * bool * string) :=
  match s with
  | EmptyString => if prev_us then None else Some (acc, seen, s)
  | String c s' =>
      if Ascii.eqb c "_" then
        if prev_us then None else scan_hex true true acc s'
      else
        match hex_digit c with
        | Some d => scan_hex false true (16 * acc + d) s'
        | None => if prev_us then None else Some (acc, seen, s)
        end
  end.

(** After the sign: the optional [0x]/[0X] prefix with the one underscore
    allowed behind it. *)
Definition skip_prefix (s : string) : string :=
  match s with
  | String "0" (String c s') =>
      if Ascii.eqb c "x" || Ascii.eqb c "X" then
        match s' with
        | String "_" s'' => s''
        | _ => s'
        end
      else s
  | _ => s
  end.

Definition starts_with_underscore (s : string) : bool :=
  match s with
  | String "_" _ => true
  | _ => false
  end.

(** The part of [int(s, 16)] behind the sign. *)
Definition int16_unsigned (s : string) : option Z :=
  let s1 := skip_prefix s in
  if starts_with_underscore s1 then None
  else
    match scan_hex false false 0 s1 with
    | Some (v, true, rest) =>
        match lstrip rest with
        | EmptyString => Some v
        | _ => None
        end
    | _ => None
    end.

(** [int(s, 16)] on an ASCII [str]; [None] is the [ValueError]. *)
Definition int16 (s : string) : option Z :=
  match lstrip s with
  | String "+" s' => int16_unsigned s'
  | String "-" s' => option_map Z.opp (int16_unsigned s')
  | s' => int16_unsigned s'
  end.

(** Hexadecimal digits of a positive number, least significant first. *)
Fixpoint hex_le (fuel : nat) (n : Z) : list ascii :=
  match fuel with
  | O => []
  | S f => if n =? 0 then [] else hexchar (n mod 16) :: hex_le f (n / 16)
  end.

(** [format(n, 'x')] for [n >= 0]. *)
Definition hex_abs (n : Z) : list ascii :=
  if n =? 0 then ["0"%char]
  else rev (hex_le (S (Z.to_nat (Z.log2 n))) n).

Definition zfill (width : nat) (ds : list ascii) : list ascii :=
  (repeat "0"%char (width - List.length ds) ++ ds)%list.

(** [f"{n:064x}"]: zero padding goes between the sign and the digits, and
    the sign counts in the width. *)
Definition format_064x (n : Z) : string :=
  if n <? 0
  then String "-" (string_of_list_ascii (zfill 63 (hex_abs (- n))))
  else string_of_list_ascii (zfill 64 (hex_abs n)).

Definition byte_of_Z (z : Z) : byte :=
  match Byte.of_N (Z.to_N z) with
  | Some b => b
  | None => x00
  end.

(** [bytes.fromhex(s)]: white space is skipped in front of each pair of
    digits; [None] is the [ValueError]. *)
Fixpoint bytes_fromhex (s : string) : option bytes :=
  match s with
  | EmptyString => Some []
  | String c s' =>
      if is_space c then bytes_fromhex s'
      else
        match hex_digit c, s' with
        | Some top, String c2 s'' =>
            match hex_digit c2 with
            | Some bot =>
                option_map (cons (byte_of_Z (16 * top + bot)))
                           (bytes_fromhex s'')
            | None => None
            end
        | _, _ => None
        end
  end.

(** [int.from_bytes(b, "big")]. *)
Definition int_from_bytes_big (b : bytes) : Z :=
  fold_left (fun acc x => 256 * acc + Z.of_N (Byte.to_N x)) b 0.

(** [b.hex()]. *)
Definition bytes_hex (b : bytes) : string :=
  string_of_list_ascii
    (flat_map (fun x => let n := Z.of_N (Byte.to_N x) in
                        [hexchar (n / 16); hexchar (n mod 16)]) b).

End Py.

(* ------------------------------------------------------------------ *)
(** * Exceptions and messages *)

Module Exn.

(** An f-string before rendering: its literal text and the values put
    into it, in order. [FRepr] is a [{s!r}] field. *)
Inductive frag :=
| Lit (s : string)
| FStr (s : string)
| FRepr (s : string)
| FInt (z : Z)
| FBytes (b : Py.bytes).

Definition fstring := list frag.

Inductive exn_class :=
| ValueError
| AssertionError
| IndexError
| Exception
| OtherError (name : string).

(** An exception object: its class, its message and, for
    [raise ... from e], its cause. *)
Inductive exn :=
| Exn (cls : exn_class) (msg : fstring) (cause : option exn).

Definition exn_cls (e : exn) : exn_class := let (c, _, _) := e in c.

(** [str(e)], what [{e}] puts in an f-string. *)
Definition exn_str (e : exn) : fstring := let (_, m, _) := e in m.

Definition exn_cause (e : exn) : option exn := let (_, _, c) := e in c.

(** The result of a call that may raise. *)
Definition result (A : Type) : Type := exn + A.

Definition ret {A} (a : A) : result A := inr a.
Definition raise {A} (e : exn) : result A := inl e.

Definition bind {A B} (c : result A) (k : A -> result B) : result B :=
  match c with
  | inl e => inl e
  | inr a => k a
  end.

(** [try: c except Exception as e: raise h(e)]. *)
Definition try_except {A} (c : result A) (h : exn -> exn) : result A :=
  match c with
  | inl e => inl (h e)
  | inr a => inr a
  end.

(** [int(s, 16)] with its [ValueError]. *)
Definition int16 (s : string) : result Z :=
  match Py.int16 s with
  | Some z => ret z
  | None =>
      raise (Exn ValueError
               [Lit "invalid literal for int() with base 16: "; FRepr s]
               None)
  end.

(** [bytes.fromhex(s)] with its [ValueError] (the position the message
    ends with is left out). *)
Definition bytes_fromhex (s : string) : result Py.bytes :=
  match Py.bytes_fromhex s with
  | Some b => ret b
  | None =>
      raise (Exn ValueError
               [Lit "non-hexadecimal number found in fromhex() arg"] None)
  end.

(** [l[i]] on a list. *)
Definition getitem {A} (l : list A) (i : nat) : result A :=
  match nth_error l i with
  | Some a => ret a
  | None => raise (Exn IndexError [Lit "list index out of range"] None)
  end.

End Exn.

Import Exn.

Declare Scope res_scope.
Delimit Scope res_scope with res.
Notation "x <- c ;; k" := (Exn.bind c (fun x => k))
  (at level 61, c at next level, right associativity) : res_scope.
Notation "c ;; k" := (Exn.bind c (fun _ => k))
  (at level 61, right associativity) : res_scope.

(* ------------------------------------------------------------------ *)
(** * The test vector and the decoded block *)

(** One account of [pre] or [postState], as the JSON has it: every field a
    string, [storage] a dict iterated in its stored order. *)
Record account := {
  code : string;
  balance : string;
  nonce : string;
  storage : list (string * string)
}.

(** An entry of [blocks]; only the [rlp] field is read. *)
Record block_descr := { rlp : string }.

Record test_data := {
  pre : list (string * account);
  blocks : list block_descr;
  postState : list (string * account)
}.

Record header := {
  timestamp : Z;
  coinbase : Py.bytes;
  base_fee_per_gas : Z;
  gas_limit : Z
}.

(** A signed transaction of the block: the two things the script uses,
    its [chain_id] (which may be [None]) and its [encode()]. *)
Record transaction := {
  chain_id : option Z;
  encode : Py.bytes
}.

Record block := {
  block_header : header;
  transactions : list transaction
}.

(** ** What the script imports *)

(** [web3], [rlp] and [kakarot_scripts.constants]. *)
Class Libs := {
  (** [Web3.to_checksum_address], which raises on an invalid address *)
  to_checksum_address : string -> result string;
  (** [kakarot_scripts.constants.BEACON_ROOT_ADDRESS] *)
  BEACON_ROOT_ADDRESS : string;
  (** [rlp.decode(b, CancunBlock)] *)
  rlp_decode_CancunBlock : Py.bytes -> result block;
  (** [.hex()] of the [HexBytes] that [send_raw_transaction] returns *)
  HexBytes_hex : Py.bytes -> string
}.

(** The module's globals read from the process environment, and the
    directory [EF_TESTS_PARSED_DIR]. *)
Class Corpus := {
  TEST_NAME : string;
  TEST_PARENT_FOLDER : string;
  (** [os.listdir(EF_TESTS_PARSED_DIR)], in the order the system gives *)
  os_listdir : result (list string);
  (** [(EF_TESTS_PARSED_DIR / name).read_text()] *)
  read_text : string -> result string;
  (** [json.loads] *)
  json_loads : string -> result test_data
}.

(** [w3.eth]: the queries [check_post_state] makes. A query may raise;
    asked twice for the same thing it answers the same. *)
Record eth := {
  get_balance : string -> result Z;
  get_transaction_count : string -> result Z;
  get_code : string -> result Py.bytes;
  get_storage_at : string -> string -> result Py.bytes
}.

(* ------------------------------------------------------------------ *)
(** * Vector loader: [get_test_file] *)

Module Loader.
Section WithCorpus.
Context `{Corpus}.

Local Open Scope res_scope.

Definition name_too_long_error : exn :=
  Exn ValueError
    [Lit "Test name '"; FStr TEST_NAME;
     Lit "' could not be parsed because it exceeds the maximum length of 255 characters."]
    None.

Definition not_found_error : exn :=
  Exn ValueError
    [Lit "Test '"; FStr TEST_NAME;
     Lit "' not found. Please ensure that you are using the valid EF-Test name, not the sanitized identifier used in the runner. If the test name is longer than 255 characters, it might be invalid."]
    None.

Definition ambiguous_error : exn :=
  Exn ValueError
    [Lit "Test "; FStr TEST_NAME;
     Lit " is ambiguous, please set TEST_PARENT_FOLDER to test file folder"]
    None.

Definition not_single_error : exn :=
  Exn ValueError [Lit "Test "; FStr TEST_NAME; Lit " not found"] None.

(** The condition of the list comprehension. *)
Definition selected (file_name : string) : bool :=
  Py.str_in TEST_NAME file_name && Py.str_in TEST_PARENT_FOLDER file_name.

Definition get_test_file : result test_data :=
  names <- os_listdir ;;
  let tests := filter selected names in
  if (List.length tests =? 0)%nat then
    if (255 <? String.length TEST_NAME)%nat
    then raise name_too_long_error
    else raise not_found_error
  else if (1 <? List.length tests)%nat then
    if String.eqb TEST_PARENT_FOLDER ""
    then raise ambiguous_error
    else raise not_single_error
  else
    file_name <- getitem tests 0 ;;
    text <- read_text file_name ;;
    json_loads text.

End WithCorpus.
End Loader.

(* ------------------------------------------------------------------ *)
(** * Post-state verifier: [check_post_state] *)

Module Verifier.
Section WithLibs.
Context `{Libs}.
Variable w3 : eth.

Local Open Scope res_scope.

(** [assert a == b, msg]: the message is evaluated only when the test
    fails, and evaluating it asks the node and parses the vector again. *)
Definition assert_balance (address : string) (account : account)
  : result unit :=
  actual <- get_balance w3 address ;;
  expected <- int16 (balance account) ;;
  if actual =? expected then ret tt
  else
    actual' <- get_balance w3 address ;;
    expected' <- int16 (balance account) ;;
    raise (Exn AssertionError
             [Lit "balance error: "; FInt actual'; Lit " != "; FInt expected']
             None).

Definition assert_nonce (address : string) (account : account)
  : result unit :=
  actual <- get_transaction_count w3 address ;;
  expected <- int16 (nonce account) ;;
  if actual =? expected then ret tt
  else
    actual' <- get_transaction_count w3 address ;;
    expected' <- int16 (nonce account) ;;
    raise (Exn AssertionError
             [Lit "nonce error: "; FInt actual'; Lit " != "; FInt expected']
             None).

Definition bytes_eqb (a b : Py.bytes) : bool :=
  if list_eq_dec Byte.byte_eq_dec a b then true else false.

Definition assert_code (address : string) (account : account)
  : result unit :=
  actual <- get_code w3 address ;;
  expected <- bytes_fromhex (Py.slice_from 2 (code account)) ;;
  if bytes_eqb actual expected then ret tt
  else
    actual' <- get_code w3 address ;;
    expected' <- bytes_fromhex (Py.slice_from 2 (code account)) ;;
    raise (Exn AssertionError
             [Lit "code error: "; FBytes actual'; Lit " != "; FBytes expected']
             None).

Definition assert_slot (address k v : string) : result unit :=
  raw <- get_storage_at w3 address k ;;
  expected <- int16 v ;;
  if Py.int_from_bytes_big raw =? expected then ret tt
  else
    raw' <- get_storage_at w3 address k ;;
    expected' <- int16 v ;;
    raise (Exn AssertionError
             [Lit "storage error at key "; FStr k; Lit ": ";
              FInt (Py.int_from_bytes_big raw'); Lit " != "; FInt expected']
             None).

(** [for k, v in account["storage"].items(): assert ...] *)
Fixpoint assert_storage (address : string) (items : list (string * string))
  : result unit :=
  match items with
  | [] => ret tt
  | (k, v) :: rest =>
      assert_slot address k v ;;
      assert_storage address rest
  end.

Definition post_state_error (address : string) (e : exn) : exn :=
  Exn ValueError
    ([Lit "Post state does not match for "; FStr address; Lit ", got "]
       ++ exn_str e)%list
    (Some e).

(** The [try] block of one account, with its [except]. *)
Definition check_account (address : string) (account : account)
  : result unit :=
  try_except
    (assert_balance address account ;;
     assert_nonce address account ;;
     assert_code address account ;;
     assert_storage address (storage account))
    (post_state_error address).

(** The loop over [data["postState"].items()]; reaching the end is the
    [logger.info("Post state is valid")]. *)
Fixpoint check_accounts (items : list (string * account)) : result unit :=
  match items with
  | [] => ret tt
  | (address, account) :: rest =>
      address <- to_checksum_address address ;;
      beacon <- to_checksum_address BEACON_ROOT_ADDRESS ;;
      if String.eqb address beacon then check_accounts rest
      else
        check_account address account ;;
        check_accounts rest
  end.

Definition check_post_state (data : test_data) : result unit :=
  check_accounts (postState data).

End WithLibs.
End Verifier.

(* ------------------------------------------------------------------ *)
(** * Seeding, replay and [main] *)

(** A JSON value in the parameter list of an RPC request. *)
Inductive param :=
| PStr (s : string)
| PInt (z : Z).

(** The anvil node as the script reaches it through [w3]. Every call takes
    the node to its next state; a call may raise (the transport's errors).
    The response of [make_request] is dropped by the script. *)
Class Node := {
  node : Type;
  is_connected : node -> bool * node;
  make_request : string -> list param -> node -> result unit * node;
  send_raw_transaction : Py.bytes -> node -> result Py.bytes * node;
  wait_for_transaction_receipt : string -> node -> result unit * node;
  eth_of : node -> eth
}.

Module Pipeline.

(** What the script does to the outside, in the order it does it. *)
Inductive event :=
| Popen (cmd : fstring)
| Sleep (seconds : Z)
| Terminate
| IsConnected
| Request (method : string) (params : list param)
| SendRaw (raw : Py.bytes)
| WaitReceipt (tx_hash : string)
| GotReceipt (tx_hash : string)
| Run (cmd : fstring)
| ClipboardCopy (text : fstring)
| HandlerWait.

Section WithNode.
Context `{Libs} `{Corpus} `{Node}.

Record world := { the_node : node; log : list event }.

(** A piece of the script: from a world to its outcome and the world it
    leaves, also when it raises. *)
Definition M (A : Type) : Type := world -> result A * world.

Definition mret {A} (a : A) : M A := fun w => (inr a, w).
Definition mraise {A} (e : exn) : M A := fun w => (inl e, w).

Definition mbind {A B} (c : M A) (k : A -> M B) : M B :=
  fun w =>
    match c w with
    | (inl e, w') => (inl e, w')
    | (inr a, w') => k a w'
    end.

Definition lift {A} (r : result A) : M A := fun w => (r, w).

(** [try: c except Exception as e: h(e)]. *)
Definition mtry {A} (c : M A) (h : exn -> M A) : M A :=
  fun w =>
    match c w with
    | (inl e, w') => h e w'
    | (inr a, w') => (inr a, w')
    end.

Definition emit (ev : event) : M unit :=
  fun w => (inr tt, {| the_node := the_node w; log := log w ++ [ev] |}).

(** A call to the node: logged when made, then the node answers. *)
Definition call {A} (ev : event) (f : node -> result A * node) : M A :=
  fun w =>
    let (r, n) := f (the_node w) in
    (r, {| the_node := n; log := log w ++ [ev] |}).

(** A query of [w3.eth] against the node as it stands. *)
Definition query {A} (f : eth -> result A) : M A :=
  fun w => (f (eth_of (the_node w)), w).

End WithNode.

Declare Scope io_scope.
Delimit Scope io_scope with io.
Notation "x <- c ;; k" := (mbind c (fun x => k))
  (at level 61, c at next level, right associativity) : io_scope.
Notation "c ;; k" := (mbind c (fun _ => k))
  (at level 61, right associativity) : io_scope.

Section Script.
Context `{Libs} `{Corpus} `{Node}.

Local Open Scope io_scope.

Definition provider_request (method : string) (params : list param)
  : M unit :=
  call (Request method params) (make_request method params).

(** ** [get_block] *)

Definition get_block (data : test_data) : result block :=
  try_except
    (descr <- getitem (blocks data) 0 ;;
     let block_rlp := rlp descr in
     raw <- bytes_fromhex (Py.slice_from 2 block_rlp) ;;
     rlp_decode_CancunBlock raw)%res
    (fun e => Exn Exception [Lit "Could not find block in test data"] (Some e)).

(** ** [AnvilHandler.__init__] *)

Definition AnvilHandler_init (data : test_data) : M unit :=
  mtry
    (block <- lift (get_block data) ;;
     let ts := timestamp (block_header block) in
     emit (Popen [Lit "anvil --timestamp "; FInt ts; Lit " --hardfork cancun"]) ;;
     emit (Sleep 1))
    (fun e => mraise (Exn Exception [Lit "Could not launch anvil"] (Some e))).

(** ** [connect_anvil] *)

Definition connect_anvil : M unit :=
  connected <- call IsConnected
                 (fun n => let (b, n') := is_connected n in (inr b, n')) ;;
  if negb connected
  then mraise (Exn Exception [Lit "Not connected to anvil endpoint"] None)
  else mret tt.

(** ** [set_pre_state] *)

(** [f"0x{int(s, 16):064x}"] *)
Definition slot_word (s : string) : result string :=
  (n <- int16 s ;; ret ("0x" ++ Py.format_064x n))%res.

Fixpoint set_storage (address : string) (items : list (string * string))
  : M unit :=
  match items with
  | [] => mret tt
  | (k, v) :: rest =>
      key <- lift (slot_word k) ;;
      value <- lift (slot_word v) ;;
      provider_request "anvil_setStorageAt" [PStr address; PStr key; PStr value] ;;
      set_storage address rest
  end.

Fixpoint set_accounts (items : list (string * account)) : M unit :=
  match items with
  | [] => mret tt
  | (address, account) :: rest =>
      provider_request "anvil_setCode" [PStr address; PStr (code account)] ;;
      provider_request "anvil_setBalance" [PStr address; PStr (balance account)] ;;
      provider_request "anvil_setNonce" [PStr address; PStr (nonce account)] ;;
      set_storage address (storage account) ;;
      set_accounts rest
  end.

Definition set_pre_state (data : test_data) : M unit :=
  set_accounts (pre data).

(** ** [set_block] *)

Definition set_block (data : test_data) : M unit :=
  block <- lift (get_block data) ;;
  match transactions block with
  | tx :: _ =>
      match chain_id tx with
      | Some id => provider_request "anvil_setChainId" [PInt id]
      | None => mret tt
      end
  | [] => mret tt
  end ;;
  provider_request "anvil_setCoinbase"
    [PStr (Py.bytes_hex (coinbase (block_header block)))] ;;
  provider_request "anvil_setNextBlockBaseFeePerGas"
    [PInt (base_fee_per_gas (block_header block))] ;;
  provider_request "evm_setBlockGasLimit"
    [PInt (gas_limit (block_header block))].

(** ** [send_transaction] *)

Definition send_transaction (tx : transaction) : M string :=
  h <- call (SendRaw (encode tx)) (send_raw_transaction (encode tx)) ;;
  mret (HexBytes_hex h).

(** ** The body of [main] *)

Definition wait_receipt (tx_hash : string) : M unit :=
  call (WaitReceipt tx_hash) (wait_for_transaction_receipt tx_hash) ;;
  emit (GotReceipt tx_hash).

(** [for tx in block["transactions"]: ...], [tx_hashes] being the list
    appended to. *)
Fixpoint send_all (txs : list transaction) (tx_hashes : list string)
  : M (list string) :=
  match txs with
  | [] => mret tx_hashes
  | tx :: rest =>
      tx_hash <- send_transaction tx ;;
      wait_receipt tx_hash ;;
      send_all rest (tx_hashes ++ [tx_hash])%list
  end.

Definition no_transaction_error : exn :=
  Exn ValueError [Lit "Could not find transaction in test data"] None.

(** Lines 170 to 177: the replay of the decoded block. *)
Definition replay (block : block) : M (list string) :=
  let tx_hashes := [] in
  if (List.length (transactions block) =? 0)%nat
  then mraise no_transaction_error
  else send_all (transactions block) tx_hashes.

Fixpoint cast_run_all (tx_hashes : list string) : M unit :=
  match tx_hashes with
  | [] => mret tt
  | tx_hash :: rest =>
      emit (Run [Lit "cast run "; FStr tx_hash]) ;;
      cast_run_all rest
  end.

(** The [try] block of [main]. *)
Definition main_body (test : test_data) : M (list string) :=
  connect_anvil ;;
  set_pre_state test ;;
  set_block test ;;
  block <- lift (get_block test) ;;
  tx_hashes <- replay block ;;
  query (fun w3 => Verifier.check_post_state w3 test) ;;
  cast_run_all tx_hashes ;;
  first <- lift (getitem tx_hashes 0) ;;
  emit (ClipboardCopy [Lit "cast run "; FStr first; Lit " --debug"]) ;;
  mret tx_hashes.

(** [main], up to the point where [handler.wait()] starts its endless
    sleep; the list returned is [tx_hashes]. *)
Definition main : M (list string) :=
  test <- lift Loader.get_test_file ;;
  AnvilHandler_init test ;;
  tx_hashes <- mtry (main_body test)
                    (fun e => emit Terminate ;; mraise e) ;;
  emit HandlerWait ;;
  mret tx_hashes.

End Script.
End Pipeline.

(* ------------------------------------------------------------------ *)
(** * Vocabulary of the statements *)

Module Vocabulary.
Import Py.

(** ** Hexadecimal words *)

Definition lower_hex (c : ascii) : Prop :=
  exists d, 0 <= d < 16 /\ c = hexchar d.

(** The number a list of digit values denotes, most significant first,
    continuing from [acc]. *)
Fixpoint be_value (acc : Z) (ds : list Z) : Z :=
  match ds with
  | [] => acc
  | d :: ds' => be_value (16 * acc + d) ds'
  end.

(** Fixed-width digits, least significant first. *)
Fixpoint fixed_le (w : nat) (n : Z) : list Z :=
  match w with
  | O => []
  | S w' => n mod 16 :: fixed_le w' (n / 16)
  end.

(** A 32-byte word in hexadecimal: [0x] and sixty-four lower-case digits
    that denote [n], most significant digit first. *)
Definition is_word32 (n : Z) (s : string) : Prop :=
  exists ds : list Z,
    s = "0x" ++ string_of_list_ascii (map hexchar ds)
    /\ List.length ds = 64%nat
    /\ Forall (fun d => 0 <= d < 16) ds
    /\ be_value 0 ds = n.

(** ** Matching corpus files *)

Section Files.
Context `{Corpus}.

(** The file name contains the test name and the folder. *)
Definition matching (file_name : string) : Prop :=
  occurs_in TEST_NAME file_name /\ occurs_in TEST_PARENT_FOLDER file_name.

Definition no_match (names : list string) : Prop :=
  Forall (fun f => ~ matching f) names.

Definition only_match (names : list string) (f : string) : Prop :=
  exists l1 l2,
    names = (l1 ++ f :: l2)%list /\ matching f /\ no_match l1 /\ no_match l2.

Definition several_matches (names : list string) : Prop :=
  exists l1 f1 l2 f2 l3,
    names = (l1 ++ f1 :: l2 ++ f2 :: l3)%list /\ matching f1 /\ matching f2.

End Files.

(** ** Fields of an account and their comparison *)

Inductive field :=
| Balance
| Nonce
| Code
| Slot (k : string).

Inductive value :=
| VInt (z : Z)
| VBytes (b : bytes).

Definition rmap {A B} (f : A -> B) (r : result A) : result B :=
  match r with
  | inl e => inl e
  | inr a => inr (f a)
  end.

(** What the node holds for a field of the account at [address]. *)
Definition live (w3 : eth) (address : string) (f : field) : result value :=
  match f with
  | Balance => rmap VInt (get_balance w3 address)
  | Nonce => rmap VInt (get_transaction_count w3 address)
  | Code => rmap VBytes (get_code w3 address)
  | Slot k => rmap (fun raw => VInt (int_from_bytes_big raw))
                   (get_storage_at w3 address k)
  end.

(** What the vector's string [s] says the field must be. *)
Definition expected (f : field) (s : string) : option value :=
  match f with
  | Code => option_map VBytes (bytes_fromhex (slice_from 2 s))
  | _ => option_map VInt (int16 s)
  end.

Definition slot_of (kv : string * string) : field * string :=
  (Slot (fst kv), snd kv).

(** The fields of an account in the order they are checked, each with the
    vector's string for it. *)
Definition expectations (acc : account) : list (field * string) :=
  ([(Balance, balance acc); (Nonce, nonce acc); (Code, code acc)]
     ++ map slot_of (storage acc))%list.

Definition agrees (w3 : eth) (address : string) (fs : field * string)
  : Prop :=
  exists v, live w3 address (fst fs) = inr v /\ expected (fst fs) (snd fs) = Some v.

Definition differs (w3 : eth) (address : string) (fs : field * string)
  (actual wanted : value) : Prop :=
  live w3 address (fst fs) = inr actual
  /\ expected (fst fs) (snd fs) = Some wanted
  /\ actual <> wanted.

(** Both sides of the comparison can be evaluated. *)
Definition comparable (w3 : eth) (address : string) (fs : field * string)
  : Prop :=
  exists actual wanted,
    live w3 address (fst fs) = inr actual
    /\ expected (fst fs) (snd fs) = Some wanted.

Definition account_ok (w3 : eth) (address : string) (acc : account) : Prop :=
  Forall (agrees w3 address) (expectations acc).

(** The comparisons of the numbers and of the code, each said in full:
    the node answers, the vector's string parses, and the two are the
    same value. A slot's answer is read as a big-endian integer. *)
Definition balance_matches (w3 : eth) (address : string) (acc : account)
  : Prop :=
  exists n, get_balance w3 address = inr n /\ int16 (balance acc) = Some n.

Definition nonce_matches (w3 : eth) (address : string) (acc : account)
  : Prop :=
  exists n,
    get_transaction_count w3 address = inr n /\ int16 (nonce acc) = Some n.

Definition code_matches (w3 : eth) (address : string) (acc : account)
  : Prop :=
  exists c,
    get_code w3 address = inr c
    /\ bytes_fromhex (slice_from 2 (code acc)) = Some c.

Definition slot_matches (w3 : eth) (address : string) (kv : string * string)
  : Prop :=
  exists raw,
    get_storage_at w3 address (fst kv) = inr raw
    /\ int16 (snd kv) = Some (int_from_bytes_big raw).

(** [f] is the first field of the account that differs. *)
Definition first_mismatch (w3 : eth) (address : string) (acc : account)
  (f : field) (actual wanted : value) : Prop :=
  exists before s after,
    expectations acc = (before ++ (f, s) :: after)%list
    /\ Forall (agrees w3 address) before
    /\ differs w3 address (f, s) actual wanted.

Definition field_label (f : field) : fstring :=
  match f with
  | Balance => [Lit "balance error: "]
  | Nonce => [Lit "nonce error: "]
  | Code => [Lit "code error: "]
  | Slot k => [Lit "storage error at key "; FStr k; Lit ": "]
  end.

Definition show (v : value) : frag :=
  match v with
  | VInt z => FInt z
  | VBytes b => FBytes b
  end.

(** The failed [assert] of a field. *)
Definition assertion_error (f : field) (actual wanted : value) : exn :=
  Exn AssertionError
    (field_label f ++ [show actual; Lit " != "; show wanted])%list None.

(** The error of a mismatch: the [ValueError] whose message names the
    address, the field, the actual and the expected value, raised from the
    failed [assert]. *)
Definition state_mismatch_error (address : string) (f : field)
  (actual wanted : value) : exn :=
  Exn ValueError
    ([Lit "Post state does not match for "; FStr address; Lit ", got "]
       ++ field_label f ++ [show actual; Lit " != "; show wanted])%list
    (Some (assertion_error f actual wanted)).

Section Entries.
Context `{Libs}.

(** The entry's address is the beacon root address, in checksum form. *)
Definition is_system (raw : string) : Prop :=
  exists b,
    to_checksum_address raw = inr b
    /\ to_checksum_address BEACON_ROOT_ADDRESS = inr b.

(** The entry's address has checksum form [address] and is compared. *)
Definition compared (raw address : string) : Prop :=
  to_checksum_address raw = inr address
  /\ exists b, to_checksum_address BEACON_ROOT_ADDRESS = inr b /\ address <> b.

Definition entry_ok (w3 : eth) (entry : string * account) : Prop :=
  is_system (fst entry)
  \/ exists address,
       compared (fst entry) address /\ account_ok w3 address (snd entry).

(** The entry is compared and one of its fields differs. *)
Definition entry_fails (w3 : eth) (entry : string * account) : Prop :=
  exists address f actual wanted,
    compared (fst entry) address
    /\ first_mismatch w3 address (snd entry) f actual wanted.

(** Every address has a checksum form and every comparison of a compared
    account can be evaluated. *)
Definition entry_comparable (w3 : eth) (entry : string * account) : Prop :=
  is_system (fst entry)
  \/ exists address,
       compared (fst entry) address
       /\ Forall (comparable w3 address) (expectations (snd entry)).

(** Two nodes answer alike about [address]. *)
Definition same_at (w3 w3' : eth) (address : string) : Prop :=
  get_balance w3 address = get_balance w3' address
  /\ get_transaction_count w3 address = get_transaction_count w3' address
  /\ get_code w3 address = get_code w3' address
  /\ forall k, get_storage_at w3 address k = get_storage_at w3' address k.

(** Two entries differ at most in the account recorded under the beacon
    root address. *)
Definition same_but_system (e1 e2 : string * account) : Prop :=
  fst e1 = fst e2 /\ (~ is_system (fst e1) -> snd e1 = snd e2).

End Entries.

(** Two strings denote the same number. *)
Definition same_number (s1 s2 : string) : Prop :=
  exists n, int16 s1 = Some n /\ int16 s2 = Some n.

Definition same_slot (kv1 kv2 : string * string) : Prop :=
  fst kv1 = fst kv2 /\ same_number (snd kv1) (snd kv2).

(** Two accounts that differ at most in how their numbers are written. *)
Definition same_numbers (a1 a2 : account) : Prop :=
  code a1 = code a2
  /\ same_number (balance a1) (balance a2)
  /\ same_number (nonce a1) (nonce a2)
  /\ Forall2 same_slot (storage a1) (storage a2).

(** ** Events of the replay *)

(** One transaction sent and confirmed, with the hash recorded for it. *)
Definition exchange (th : transaction * string) : list Pipeline.event :=
  [Pipeline.SendRaw (encode (fst th));
   Pipeline.WaitReceipt (snd th);
   Pipeline.GotReceipt (snd th)].

Definition is_send (ev : Pipeline.event) : Prop :=
  exists raw, ev = Pipeline.SendRaw raw.

(** The request that stores the number [nv] in slot [nk] of [address]. *)
Definition set_storage_request (address : string) (nk nv : Z)
  : Pipeline.event :=
  Pipeline.Request "anvil_setStorageAt"
    [PStr address; PStr ("0x" ++ format_064x nk); PStr ("0x" ++ format_064x nv)].

Section Runs.
Context `{Libs} `{Corpus} `{Node}.

(** A piece of the script that only adds to the log, and adds no
    submission of a transaction. *)
Definition quiet {A} (c : Pipeline.M A) : Prop :=
  forall w, exists evs,
    Pipeline.log (snd (c w)) = (Pipeline.log w ++ evs)%list
    /\ Forall (fun ev => ~ is_send ev) evs.

(** The world [w] with the node in state [n] and [evs] added to the log. *)
Definition logged (w : Pipeline.world) (n : node) (evs : list Pipeline.event)
  : Pipeline.world :=
  {| Pipeline.the_node := n; Pipeline.log := (Pipeline.log w ++ evs)%list |}.

(** From the node [n] the transactions are sent and confirmed one after
    the other: each is submitted to the node as the one before left it,
    the node returns its hash, and the wait for the receipt of that hash,
    in the [.hex()] form the script keeps, returns. [hs] are these hashes
    in order and the last node is the one the run leaves. *)
Inductive confirmed
  : node -> list transaction -> list string -> node -> Prop :=
| confirmed_nil (n : node) : confirmed n [] [] n
| confirmed_cons (n : node) (tx : transaction) (h : bytes) (n1 n2 : node)
    (txs : list transaction) (hs : list string) (n3 : node) :
    send_raw_transaction (encode tx) n = (inr h, n1) ->
    wait_for_transaction_receipt (HexBytes_hex h) n1 = (inr tt, n2) ->
    confirmed n2 txs hs n3 ->
    confirmed n (tx :: txs) (HexBytes_hex h :: hs) n3.

(** The replay stops at [tx] with [e]: the node, in state [n], raises [e]
    on the submission, or returns a hash and raises [e] on the wait for
    its receipt; [tail] is what the unfinished exchange leaves in the
    log. *)
Definition stops_at (n : node) (tx : transaction) (e : exn)
  (tail : list Pipeline.event) : Prop :=
  (exists n',
      send_raw_transaction (encode tx) n = (inl e, n')
      /\ tail = [Pipeline.SendRaw (encode tx)])
  \/ (exists h n1 n2,
        send_raw_transaction (encode tx) n = (inr h, n1)
        /\ wait_for_transaction_receipt (HexBytes_hex h) n1 = (inl e, n2)
        /\ tail = [Pipeline.SendRaw (encode tx);
                   Pipeline.WaitReceipt (HexBytes_hex h)]).

(** What [main] does between the launch of anvil and the replay. *)
Definition seeding (test : test_data) : Pipeline.M unit :=
  Pipeline.mbind Pipeline.connect_anvil (fun _ =>
  Pipeline.mbind (Pipeline.set_pre_state test) (fun _ =>
  Pipeline.set_block test)).

End Runs.


(** ** Further vocabulary *)

(** The corpus [c] with another directory listing. *)
Definition with_listing (c : Corpus) (names : list string) : Corpus :=
  {| TEST_NAME := @TEST_NAME c;
     TEST_PARENT_FOLDER := @TEST_PARENT_FOLDER c;
     os_listdir := inr names;
     read_text := @read_text c;
     json_loads := @json_loads c |}.

(** The [ValueError] of [int(s, 16)] and of [bytes.fromhex]. *)
Definition invalid_literal (s : string) : exn :=
  Exn ValueError [Lit "invalid literal for int() with base 16: "; FRepr s] None.

Definition not_hex : exn :=
  Exn ValueError [Lit "non-hexadecimal number found in fromhex() arg"] None.

(** What parsing the vector's string for a field raises when it fails. *)
Definition parse_error (f : field) (s : string) : exn :=
  match f with
  | Code => not_hex
  | _ => invalid_literal s
  end.

(** The comparison of the field cannot be made: the node raises [cause]
    when asked, or it answers and the vector's string does not parse. *)
Definition breaks (w3 : eth) (address : string) (fs : field * string)
  (cause : exn) : Prop :=
  live w3 address (fst fs) = inl cause
  \/ ((exists actual, live w3 address (fst fs) = inr actual)
      /\ expected (fst fs) (snd fs) = None
      /\ cause = parse_error (fst fs) (snd fs)).

(** The first field of the account that does not agree is one that
    cannot be compared. *)
Definition first_break (w3 : eth) (address : string) (acc : account)
  (cause : exn) : Prop :=
  exists before fs after,
    expectations acc = (before ++ fs :: after)%list
    /\ Forall (agrees w3 address) before
    /\ breaks w3 address fs cause.

(** Two nodes answer alike what the account's expectation makes the
    verifier ask about [address]. *)
Definition same_listed (w3 w3' : eth) (address : string) (acc : account)
  : Prop :=
  get_balance w3 address = get_balance w3' address
  /\ get_transaction_count w3 address = get_transaction_count w3' address
  /\ get_code w3 address = get_code w3' address
  /\ Forall (fun kv => get_storage_at w3 address (fst kv)
                       = get_storage_at w3' address (fst kv))
            (storage acc).

Section MoreEntries.
Context `{Libs}.

(** The entry's address, or the beacon root address it is to be held
    against, has no checksum form: [to_checksum_address] raises [e]. *)
Definition address_error (raw : string) (e : exn) : Prop :=
  to_checksum_address raw = inl e
  \/ exists a,
       to_checksum_address raw = inr a
       /\ to_checksum_address BEACON_ROOT_ADDRESS = inl e.

(** The ways the check of one entry fails, each with the error raised. *)
Definition entry_raises (w3 : eth) (entry : string * account) (e : exn)
  : Prop :=
  address_error (fst entry) e
  \/ exists address,
       compared (fst entry) address
       /\ ((exists f actual wanted,
              first_mismatch w3 address (snd entry) f actual wanted
              /\ e = state_mismatch_error address f actual wanted)
           \/ (exists cause,
                 first_break w3 address (snd entry) cause
                 /\ e = Verifier.post_state_error address cause)).

End MoreEntries.

(** ** Stages of a run *)

(** The stage of [main] an event belongs to: the launch of anvil, the
    connection and the seeding, the replay, the report, the end. *)
Definition stage (ev : Pipeline.event) : nat :=
  match ev with
  | Pipeline.Popen _ | Pipeline.Sleep _ => 0
  | Pipeline.IsConnected | Pipeline.Request _ _ => 1
  | Pipeline.SendRaw _ | Pipeline.WaitReceipt _ | Pipeline.GotReceipt _ => 2
  | Pipeline.Run _ | Pipeline.ClipboardCopy _ => 3
  | Pipeline.Terminate | Pipeline.HandlerWait => 4
  end.

(** The events are of stage [lo] at least and never go back to an earlier
    stage. *)
Fixpoint staged (lo : nat) (evs : list Pipeline.event) : Prop :=
  match evs with
  | [] => True
  | ev :: rest => (lo <= stage ev)%nat /\ staged (stage ev) rest
  end.

(** The three requests that open the seeding of an account. *)
Definition account_requests (address : string) (acc : account)
  : list Pipeline.event :=
  [Pipeline.Request "anvil_setCode" [PStr address; PStr (code acc)];
   Pipeline.Request "anvil_setBalance" [PStr address; PStr (balance acc)];
   Pipeline.Request "anvil_setNonce" [PStr address; PStr (nonce acc)]].

(** The requests for the storage entries, when all their strings are
    numbers. *)
Fixpoint storage_events (address : string) (items : list (string * string))
  : option (list Pipeline.event) :=
  match items with
  | [] => Some []
  | (k, v) :: rest =>
      match int16 k, int16 v, storage_events address rest with
      | Some nk, Some nv, Some evs =>
          Some (set_storage_request address nk nv :: evs)
      | _, _, _ => None
      end
  end.

(** The requests of a whole seeding, account after account. *)
Fixpoint seed_events (items : list (string * account))
  : option (list Pipeline.event) :=
  match items with
  | [] => Some []
  | (address, acc) :: rest =>
      match storage_events address (storage acc), seed_events rest with
      | Some s, Some r => Some (account_requests address acc ++ s ++ r)%list
      | _, _ => None
      end
  end.

(** The requests that set the context of a block. *)
Definition block_requests (b : block) : list Pipeline.event :=
  (match transactions b with
   | tx :: _ =>
       match chain_id tx with
       | Some id => [Pipeline.Request "anvil_setChainId" [PInt id]]
       | None => []
       end
   | [] => []
   end
   ++ [Pipeline.Request "anvil_setCoinbase"
         [PStr (bytes_hex (coinbase (block_header b)))];
       Pipeline.Request "anvil_setNextBlockBaseFeePerGas"
         [PInt (base_fee_per_gas (block_header b))];
       Pipeline.Request "evm_setBlockGasLimit"
         [PInt (gas_limit (block_header b))]])%list.

(** The launch of anvil for a block. *)
Definition launch_events (b : block) : list Pipeline.event :=
  [Pipeline.Popen [Lit "anvil --timestamp "; FInt (timestamp (block_header b));
                   Lit " --hardfork cancun"];
   Pipeline.Sleep 1].

Definition cast_run (tx_hash : string) : Pipeline.event :=
  Pipeline.Run [Lit "cast run "; FStr tx_hash].

Section MoreRuns.
Context `{Libs} `{Corpus} `{Node}.

(** What [c] adds to the log is of the stages [lo] to [hi], in order. *)
Definition within (lo hi : nat) {A} (c : Pipeline.M A) : Prop :=
  forall w, exists evs,
    Pipeline.log (snd (c w)) = (Pipeline.log w ++ evs)%list
    /\ staged lo evs
    /\ Forall (fun ev => (stage ev <= hi)%nat) evs.

(** What [c] adds to the log is a first part of [full], and all of it
    when [c] returns. *)
Definition runs_prefix {A} (c : Pipeline.M A) (full : list Pipeline.event)
  : Prop :=
  forall w, exists evs rest,
    Pipeline.log (snd (c w)) = (Pipeline.log w ++ evs)%list
    /\ full = (evs ++ rest)%list
    /\ (forall a, fst (c w) = inr a -> rest = []).

(** The node raises on no request. *)
Definition accepting : Prop :=
  forall method params n, fst (make_request method params n) = inr tt.

(** [c] ends in [r] whatever the world, having added [full] to the log. *)
Definition ends_in {A} (c : Pipeline.M A) (r : result A)
  (full : list Pipeline.event) : Prop :=
  forall w, exists n, c w = (r, logged w n full).

End MoreRuns.

(** Of the key and the value of a storage entry, [s] is the first that is
    not a number. *)
Definition first_unparsable (k v s : string) : Prop :=
  (int16 k = None /\ s = k)
  \/ ((exists n, int16 k = Some n) /\ int16 v = None /\ s = v).

(** The byte values that a list of hexadecimal digit values spells, two
    digits to a byte. *)
Fixpoint pair_values (ds : list Z) : list Z :=
  match ds with
  | d1 :: d2 :: rest => 16 * d1 + d2 :: pair_values rest
  | _ => []
  end.

End Vocabulary.

(* ------------------------------------------------------------------ *)
(** * Concrete vectors, corpora and nodes *)

Module Sample.

Definition sender : string := "0xa94f5374Fce5edBC8E2a8697C15331677e6EbF0B".
Definition beacon : string := "0x000F3df6D732807Ef1319fB7B8bB8522d0Beac02".

Definition funded : account :=
  {| code := "0x"; balance := "0x64"; nonce := "0x0";
     storage := [("0x01", "0x02")] |}.

(** [funded] with its numbers written another way. *)
Definition funded_padded : account :=
  {| code := "0x"; balance := "0x0064"; nonce := "0";
     storage := [("0x01", "0x0000000000000000000000000000000000000000000000000000000000000002")] |}.

(** [funded] expecting another nonce, and another value in its slot. *)
Definition funded_nonce1 : account :=
  {| code := "0x"; balance := "0x64"; nonce := "0x1";
     storage := [("0x01", "0x02")] |}.

Definition funded_slot3 : account :=
  {| code := "0x"; balance := "0x64"; nonce := "0x0";
     storage := [("0x01", "0x03")] |}.

Definition beacon_account (balance : string) : account :=
  {| code := "0x"; balance := balance; nonce := "0x0"; storage := [] |}.

Definition vector (beacon_balance : string) (rlp : string) : test_data :=
  {| pre := [(sender, funded)];
     blocks := [{| rlp := rlp |}];
     postState := [(sender, funded); (beacon, beacon_account beacon_balance)] |}.

(** A stand-in for the libraries: addresses are their own checksum form, a
    block is decoded with one transaction per byte of its encoding. *)
Definition libs : Libs :=
  {| to_checksum_address := fun s => inr s;
     BEACON_ROOT_ADDRESS := beacon;
     rlp_decode_CancunBlock := fun raw =>
       inr {| block_header :=
                {| timestamp := 1000; coinbase := [xba]; base_fee_per_gas := 10;
                   gas_limit := 30000000 |};
              transactions :=
                map (fun b => {| chain_id := Some 1; encode := [b] |}) raw |};
     HexBytes_hex := fun h => "0x" ++ Py.bytes_hex h |}.

(** A node whose accounts all hold [bal], nonce 0, no code and 2 in every
    slot, and that accepts every call. *)
Definition eth_with (bal : Z) : eth :=
  {| get_balance := fun _ => inr bal;
     get_transaction_count := fun _ => inr 0;
     get_code := fun _ => inr [];
     get_storage_at := fun _ _ => inr [x00; x02] |}.

(** As [eth_with 100], but for the balance of the beacon root address. *)
Definition eth_apart : eth :=
  {| get_balance := fun a => if String.eqb a beacon then inr 7 else inr 100;
     get_transaction_count := fun _ => inr 0;
     get_code := fun _ => inr [];
     get_storage_at := fun _ _ => inr [x00; x02] |}.

Definition quiet_node : Node :=
  {| node := unit;
     is_connected := fun n => (true, n);
     make_request := fun _ _ n => (inr tt, n);
     send_raw_transaction := fun raw n => (inr raw, n);
     wait_for_transaction_receipt := fun _ n => (inr tt, n);
     eth_of := fun _ => eth_with 100 |}.

(** A corpus directory: file names with their text. In this stand-in the
    text of a file is the [rlp] of its vector's block. *)
Definition files : list (string * string) :=
  [("stExample_add_d0g0v0_Cancun.json", "0x0102");
   ("stExample_sub_d0g0v0_Cancun.json", "0x");
   ("stArgs_add_d0g0v0_Cancun.json", "0x03")].

Fixpoint text_of (dir : list (string * string)) (file_name : string)
  : result string :=
  match dir with
  | [] => inl (Exn (OtherError "FileNotFoundError") [FStr file_name] None)
  | (name, text) :: dir' =>
      if String.eqb name file_name then inr text else text_of dir' file_name
  end.

Definition corpus_of (name folder : string) (dir : list (string * string))
  : Corpus :=
  {| TEST_NAME := name;
     TEST_PARENT_FOLDER := folder;
     os_listdir := inr (map fst dir);
     read_text := text_of dir;
     json_loads := fun text => inr (vector "0x0" text) |}.

Definition long_name : string := string_of_list_ascii (repeat "a"%char 256).

Definition long_files : list (string * string) :=
  [(long_name ++ ".json", "0x01"); ("stExample_add.json", "0x")].

(** Before the script starts: the node at rest, nothing logged. *)
Definition start : @Pipeline.world quiet_node :=
  @Pipeline.Build_world quiet_node tt [].


(** ** Further samples *)

(** An account whose expected balance is not a number. *)
Definition garbled : account :=
  {| code := "0x"; balance := "0xzz"; nonce := "0x0"; storage := [] |}.

Definition vector_of (post : list (string * account)) : test_data :=
  {| pre := [(sender, funded)];
     blocks := [{| rlp := "0x0102" |}];
     postState := post |}.

Definition bad_address_error (s : string) : exn :=
  Exn ValueError [Lit "Unknown format "; FRepr s] None.

(** As [libs], but only strings of forty-two characters are addresses. *)
Definition strict_libs : Libs :=
  {| to_checksum_address := fun s =>
       if (String.length s =? 42)%nat then inr s
       else inl (bad_address_error s);
     BEACON_ROOT_ADDRESS := beacon;
     rlp_decode_CancunBlock := @rlp_decode_CancunBlock libs;
     HexBytes_hex := @HexBytes_hex libs |}.

(** As [eth_with 100], but with another value in every slot other than
    slot ["0x01"]. *)
Definition eth_other_slots : eth :=
  {| get_balance := fun _ => inr 100;
     get_transaction_count := fun _ => inr 0;
     get_code := fun _ => inr [];
     get_storage_at := fun _ k =>
       if String.eqb k "0x01" then inr [x00; x02] else inr [xff] |}.

(** A node that holds the 32-byte word of 2 in every slot. *)
Definition eth_word2 : eth :=
  {| get_balance := fun _ => inr 100;
     get_transaction_count := fun _ => inr 0;
     get_code := fun _ => inr [];
     get_storage_at := fun _ _ => inr (repeat x00 31 ++ [x02])%list |}.

(** A node that does not answer the connection test. *)
Definition down_node : Node :=
  {| node := unit;
     is_connected := fun n => (false, n);
     make_request := fun _ _ n => (inr tt, n);
     send_raw_transaction := fun raw n => (inr raw, n);
     wait_for_transaction_receipt := fun _ n => (inr tt, n);
     eth_of := fun _ => eth_with 100 |}.

Definition down_start : @Pipeline.world down_node :=
  @Pipeline.Build_world down_node tt [].

(** A directory whose one file holds a block that is not hexadecimal. *)
Definition bad_files : list (string * string) := [("stBad.json", "0xzz")].

(** An account whose second storage value is not a number. *)
Definition half_stored : account :=
  {| code := "0x60"; balance := "0x1"; nonce := "0x0";
     storage := [("0x01", "0x02"); ("0x03", "oops"); ("0x04", "0x05")] |}.

Definition half_vector : test_data :=
  {| pre := [(sender, funded); (beacon, half_stored); (sender, funded)];
     blocks := [{| rlp := "0x0102" |}];
     postState := [] |}.

(** What [libs] decodes the two bytes [0x0102] to. *)
Definition two_tx_block : block :=
  {| block_header :=
       {| timestamp := 1000; coinbase := [xba]; base_fee_per_gas := 10;
          gas_limit := 30000000 |};
     transactions := [{| chain_id := Some 1; encode := [x01] |};
                      {| chain_id := Some 1; encode := [x02] |}] |}.

End Sample.

(* ------------------------------------------------------------------ *)
(** * Facts about the built-ins *)

Module PyFacts.
Import Py Vocabulary.

Lemma prefix_iff (p s : string) :
  String.prefix p s = true <-> exists t, s = p ++ t.
Proof.
  revert p; induction s as [|b s IH]; intros [|a p]; simpl.
  - split; [exists ""; reflexivity | reflexivity].
  - split; [discriminate | intros [t Ht]; discriminate].
  - split; [exists (String b s); reflexivity | reflexivity].
  - destruct (ascii_dec a b) as [->|Hab].
    + rewrite IH. split; intros [t Ht]; exists t; congruence.
    + split; [discriminate | intros [t Ht]; congruence].
Qed.

Lemma append_assoc (a b c : string) : (a ++ b) ++ c = a ++ (b ++ c).
Proof. induction a; simpl; congruence. Qed.

Lemma append_empty_r (a : string) : a ++ "" = a.
Proof. induction a; simpl; congruence. Qed.

(** The [in] of the list comprehension is the substring relation. *)
Lemma str_in_iff (sub s : string) :
  str_in sub s = true <-> occurs_in sub s.
Proof.
  induction s as [|c s IH]; cbn [str_in]; rewrite orb_true_iff.
  - rewrite prefix_iff. split.
    + intros [[t Ht]|Hf]; [|discriminate]. exists "", t. exact Ht.
    + intros [[|x b] [a Ha]]; [left; exists a; exact Ha | discriminate].
  - rewrite IH, (prefix_iff sub (String c s)). split.
    + intros [[t Ht]|[b [a Ha]]].
      * exists "", t. exact Ht.
      * exists (String c b), a. simpl. congruence.
    + intros [[|x b] [a Ha]].
      * left. exists a. exact Ha.
      * right. exists b, a. simpl in Ha. congruence.
Qed.

Lemma str_in_false_iff (sub s : string) :
  str_in sub s = false <-> ~ occurs_in sub s.
Proof.
  rewrite <- str_in_iff. destruct (str_in sub s); split; congruence.
Qed.

(** ** Hexadecimal digits *)

Lemma hex_digit_hexchar (d : Z) :
  0 <= d < 16 -> hex_digit (hexchar d) = Some d.
Proof.
  intros Hd.
  assert (Hcases : d = 0 \/ d = 1 \/ d = 2 \/ d = 3 \/ d = 4 \/ d = 5 \/ d = 6
                   \/ d = 7 \/ d = 8 \/ d = 9 \/ d = 10 \/ d = 11 \/ d = 12
                   \/ d = 13 \/ d = 14 \/ d = 15) by lia.
  repeat (destruct Hcases as [->|Hcases]; [reflexivity|]).
  subst d. reflexivity.
Qed.

Lemma hexchar_not_underscore (d : Z) :
  0 <= d < 16 -> Ascii.eqb (hexchar d) "_" = false.
Proof.
  intros Hd.
  assert (Hcases : d = 0 \/ d = 1 \/ d = 2 \/ d = 3 \/ d = 4 \/ d = 5 \/ d = 6
                   \/ d = 7 \/ d = 8 \/ d = 9 \/ d = 10 \/ d = 11 \/ d = 12
                   \/ d = 13 \/ d = 14 \/ d = 15) by lia.
  repeat (destruct Hcases as [->|Hcases]; [reflexivity|]).
  subst d. reflexivity.
Qed.

Lemma be_value_app (acc : Z) (xs ys : list Z) :
  be_value acc (xs ++ ys) = be_value (be_value acc xs) ys.
Proof. revert acc; induction xs; intros; simpl; auto. Qed.

Lemma scan_hex_digits (ds : list Z) :
  Forall (fun d => 0 <= d < 16) ds ->
  forall seen acc,
    scan_hex false seen acc (string_of_list_ascii (map hexchar ds))
    = Some (be_value acc ds, seen || negb (Nat.eqb (List.length ds) 0), "").
Proof.
  induction 1 as [|d ds Hd _ IH]; intros seen acc; simpl.
  - rewrite orb_false_r. reflexivity.
  - rewrite hexchar_not_underscore, hex_digit_hexchar by assumption.
    rewrite IH. simpl. rewrite orb_true_r. reflexivity.
Qed.

Lemma fixed_le_length w n : List.length (fixed_le w n) = w.
Proof. revert n; induction w; intros; simpl; auto. Qed.

Lemma fixed_le_range w n : Forall (fun d => 0 <= d < 16) (fixed_le w n).
Proof.
  revert n; induction w; intros; simpl; constructor; auto.
  apply Z.mod_pos_bound. lia.
Qed.

Lemma fixed_le_value (w : nat) (n : Z) :
  0 <= n < 16 ^ Z.of_nat w ->
  be_value 0 (rev (fixed_le w n)) = n.
Proof.
  revert n; induction w as [|w IH]; intros n Hn.
  - simpl in *. lia.
  - cbn [fixed_le rev]. rewrite be_value_app. cbn [be_value].
    rewrite Nat2Z.inj_succ, Z.pow_succ_r in Hn by lia.
    rewrite IH.
    + pose proof (Z.div_mod n 16). lia.
    + split; [apply Z.div_pos; lia | apply Z.div_lt_upper_bound; lia].
Qed.

Lemma fixed_le_zero (w : nat) :
  map hexchar (fixed_le w 0) = repeat "0"%char w.
Proof.
  induction w as [|w IH]; [reflexivity|].
  cbn [fixed_le map repeat]. change (0 / 16) with 0. rewrite IH.
  reflexivity.
Qed.

(** With fuel for all its digits, [hex_le] gives the digits of [n]
    without the leading zeros of the fixed-width form. *)
Lemma hex_le_fixed (fuel : nat) :
  forall (w : nat) (n : Z),
    0 <= n < 16 ^ Z.of_nat fuel -> 0 <= n < 16 ^ Z.of_nat w ->
    (hex_le fuel n
       ++ repeat "0"%char (w - List.length (hex_le fuel n)))%list
    = map hexchar (fixed_le w n).
Proof.
  induction fuel as [|fuel IH]; intros w n Hf Hw.
  - simpl in Hf. assert (n = 0) by lia. subst n. simpl.
    rewrite Nat.sub_0_r. symmetry. apply fixed_le_zero.
  - cbn [hex_le]. destruct (Z.eqb_spec n 0) as [->|Hn0].
    + simpl. rewrite Nat.sub_0_r. symmetry. apply fixed_le_zero.
    + destruct w as [|w]; [simpl in Hw; lia|].
      rewrite Nat2Z.inj_succ, Z.pow_succ_r in Hf, Hw by lia.
      cbn [List.length fixed_le map app Nat.sub]. f_equal.
      apply IH.
      * split; [apply Z.div_pos; lia | apply Z.div_lt_upper_bound; lia].
      * split; [apply Z.div_pos; lia | apply Z.div_lt_upper_bound; lia].
Qed.

Lemma log2_fuel (n : Z) :
  0 < n -> 0 <= n < 16 ^ Z.of_nat (S (Z.to_nat (Z.log2 n))).
Proof.
  intros Hn. split; [lia|].
  pose proof (Z.log2_nonneg n) as Hl.
  destruct (Z.log2_spec n Hn) as [_ Hup].
  rewrite Nat2Z.inj_succ, Z2Nat.id by lia.
  eapply Z.lt_le_trans; [exact Hup|].
  change 16 with (2 ^ 4). rewrite <- Z.pow_mul_r by lia.
  apply Z.pow_le_mono_r; lia.
Qed.

Lemma zfill_hex_abs (w : nat) (n : Z) :
  (0 < w)%nat -> 0 <= n < 16 ^ Z.of_nat w ->
  zfill w (hex_abs n) = map hexchar (rev (fixed_le w n)).
Proof.
  intros Hw Hn. unfold zfill, hex_abs.
  rewrite map_rev.
  destruct (Z.eqb_spec n 0) as [->|Hn0].
  - rewrite fixed_le_zero, rev_repeat.
    destruct w as [|w]; [lia|]. cbn [List.length Nat.sub].
    rewrite Nat.sub_0_r. change ["0"%char] with (repeat "0"%char 1).
    rewrite <- repeat_app. f_equal. lia.
  - rewrite <- (hex_le_fixed (S (Z.to_nat (Z.log2 n))) w n)
      by (try apply log2_fuel; lia).
    rewrite rev_app_distr, rev_repeat, length_rev. reflexivity.
Qed.

Lemma format_064x_fixed (n : Z) :
  0 <= n < 2 ^ 256 ->
  format_064x n = string_of_list_ascii (map hexchar (rev (fixed_le 64 n))).
Proof.
  intros Hn. unfold format_064x.
  destruct (Z.ltb_spec n 0) as [Hneg|_]; [lia|].
  rewrite zfill_hex_abs; [reflexivity | lia |].
  change (16 ^ Z.of_nat 64) with (2 ^ 256). exact Hn.
Qed.

Lemma skip_prefix_0x (c : ascii) (r : string) :
  Ascii.eqb c "_" = false ->
  skip_prefix (String "0" (String "x" (String c r))) = String c r.
Proof.
  destruct c as [[] [] [] [] [] [] [] []]; intros Hc;
    try reflexivity; discriminate Hc.
Qed.

Lemma starts_with_underscore_other (c : ascii) (r : string) :
  Ascii.eqb c "_" = false -> starts_with_underscore (String c r) = false.
Proof.
  destruct c as [[] [] [] [] [] [] [] []]; intros Hc;
    try reflexivity; discriminate Hc.
Qed.

(** [int(s, 16)] reads a [0x] word of digits as the number they denote. *)
Lemma int16_0x_digits (ds : list Z) :
  ds <> [] -> Forall (fun d => 0 <= d < 16) ds ->
  int16 ("0x" ++ string_of_list_ascii (map hexchar ds))
  = Some (be_value 0 ds).
Proof.
  intros Hne Hds. destruct ds as [|d ds]; [congruence|].
  pose proof (Forall_inv Hds) as Hd.
  change (int16 ("0x" ++ string_of_list_ascii (map hexchar (d :: ds))))
    with (int16_unsigned
            (String "0" (String "x"
               (String (hexchar d) (string_of_list_ascii (map hexchar ds)))))).
  unfold int16_unsigned.
  rewrite skip_prefix_0x, starts_with_underscore_other
    by (apply hexchar_not_underscore; exact Hd).
  change (String (hexchar d) (string_of_list_ascii (map hexchar ds)))
    with (string_of_list_ascii (map hexchar (d :: ds))).
  rewrite scan_hex_digits by exact Hds. reflexivity.
Qed.

Lemma be_value_zeros (k : nat) : be_value 0 (repeat 0 k) = 0.
Proof. induction k as [|k IH]; [reflexivity | exact IH]. Qed.

(** Zeros in front of the digits do not change the number read. *)
Lemma int16_leading_zeros (k : nat) (ds : list Z) :
  ds <> [] -> Forall (fun d => 0 <= d < 16) ds ->
  int16 ("0x" ++ string_of_list_ascii (map hexchar (repeat 0 k ++ ds)))
  = int16 ("0x" ++ string_of_list_ascii (map hexchar ds)).
Proof.
  intros Hne Hds.
  assert (Hne' : (repeat 0 k ++ ds)%list <> []).
  { intros E. apply app_eq_nil in E. destruct E as [_ E]. contradiction. }
  assert (Hds' : Forall (fun d => 0 <= d < 16) (repeat 0 k ++ ds)).
  { apply Forall_app. split; [|exact Hds].
    apply Forall_forall. intros d Hd. apply repeat_spec in Hd. lia. }
  rewrite (int16_0x_digits _ Hne' Hds'), (int16_0x_digits _ Hne Hds).
  rewrite be_value_app, be_value_zeros. reflexivity.
Qed.

(** For a number of 256 bits, ["0x" + f"{n:064x}"] is its 32-byte word. *)
Lemma format_064x_word32 (n : Z) :
  0 <= n < 2 ^ 256 -> is_word32 n ("0x" ++ format_064x n).
Proof.
  intros Hn. exists (rev (fixed_le 64 n)).
  split; [|split; [|split]].
  - rewrite format_064x_fixed by exact Hn. reflexivity.
  - rewrite length_rev. apply fixed_le_length.
  - apply Forall_rev, fixed_le_range.
  - apply fixed_le_value. change (16 ^ Z.of_nat 64) with (2 ^ 256). exact Hn.
Qed.

(** Beyond 256 bits the form is wider than sixty-four digits. *)
Example format_064x_wider : String.length (format_064x (2 ^ 256)) = 65%nat.
Proof. vm_compute. reflexivity. Qed.

Lemma word32_length (n : Z) (s : string) :
  is_word32 n s -> String.length s = 66%nat.
Proof.
  intros (ds & -> & Hlen & _ & _). cbn [append String.length].
  do 2 f_equal. rewrite <- Hlen, <- (length_map hexchar ds).
  generalize (map hexchar ds). clear. intros l.
  induction l; simpl; congruence.
Qed.

Lemma word32_int16 (n : Z) (s : string) :
  is_word32 n s -> int16 s = Some n.
Proof.
  intros (ds & -> & Hlen & Hds & <-). apply int16_0x_digits; [|exact Hds].
  intros ->. discriminate Hlen.
Qed.

End PyFacts.

(* ------------------------------------------------------------------ *)
(** * The vector loader *)

Module LoaderFacts.
Import Py Vocabulary PyFacts.

Section WithCorpus.
Context `{Corpus}.

Lemma selected_iff (f : string) : Loader.selected f = true <-> matching f.
Proof.
  unfold Loader.selected, matching.
  rewrite andb_true_iff, !str_in_iff. reflexivity.
Qed.

Lemma matching_by_test (f : string) :
  Loader.selected f = true -> matching f.
Proof. apply selected_iff. Qed.

Lemma not_matching_by_test (f : string) :
  Loader.selected f = false -> ~ matching f.
Proof.
  intros E Hf. apply selected_iff in Hf. congruence.
Qed.

Lemma filter_no_match (names : list string) :
  no_match names -> filter Loader.selected names = [].
Proof.
  induction 1 as [|f l Hf _ IH]; [reflexivity|]. simpl.
  destruct (Loader.selected f) eqn:E; [|exact IH].
  apply selected_iff in E. contradiction.
Qed.

Lemma filter_only_match (names : list string) (f : string) :
  only_match names f -> filter Loader.selected names = [f].
Proof.
  intros (l1 & l2 & -> & Hf & H1 & H2).
  rewrite filter_app. simpl.
  apply selected_iff in Hf. rewrite Hf.
  rewrite (filter_no_match l1 H1), (filter_no_match l2 H2). reflexivity.
Qed.

Lemma filter_several (names : list string) :
  several_matches names ->
  (2 <= List.length (filter Loader.selected names))%nat.
Proof.
  intros (l1 & f1 & l2 & f2 & l3 & -> & Hf1 & Hf2).
  apply selected_iff in Hf1, Hf2.
  rewrite filter_app. simpl. rewrite Hf1.
  rewrite filter_app. simpl. rewrite Hf2.
  rewrite length_app. simpl. rewrite length_app. simpl. lia.
Qed.

(** With one matching file, loading is reading and parsing that file. *)
Lemma get_test_file_single (names : list string) (f : string) :
  os_listdir = inr names -> only_match names f ->
  Loader.get_test_file = Exn.bind (read_text f) json_loads.
Proof.
  intros Hls Hone. unfold Loader.get_test_file.
  rewrite Hls. cbn [Exn.bind]. rewrite (filter_only_match _ _ Hone).
  reflexivity.
Qed.

(** C7. When exactly one file of the corpus directory has a name that
    contains both the test name and the folder, [get_test_file] returns
    what [json.loads] makes of that file's text, nothing else done to it:
    it succeeds with the parsed vector whenever the text parses. *)
Theorem load_single_match (names : list string) (f text : string) :
  os_listdir = inr names ->
  only_match names f ->
  read_text f = inr text ->
  Loader.get_test_file = json_loads text.
Proof.
  intros Hls Hone Hread.
  rewrite (get_test_file_single names f Hls Hone), Hread. reflexivity.
Qed.

(** C8. When no file of the corpus directory matches, [get_test_file]
    raises: the "not found" [ValueError] for a test name of at most 255
    characters, the "exceeds the maximum length" [ValueError] for a longer
    one. *)
Theorem load_no_match (names : list string) :
  os_listdir = inr names ->
  no_match names ->
  ((String.length TEST_NAME <= 255)%nat ->
   Loader.get_test_file = inl Loader.not_found_error)
  /\ ((255 < String.length TEST_NAME)%nat ->
      Loader.get_test_file = inl Loader.name_too_long_error).
Proof.
  intros Hls Hnone. unfold Loader.get_test_file.
  rewrite Hls. cbn [Exn.bind]. rewrite (filter_no_match _ Hnone).
  cbn [List.length Nat.eqb].
  split; intros Hlen.
  - destruct (Nat.ltb_spec 255 (String.length TEST_NAME)); [lia|reflexivity].
  - destruct (Nat.ltb_spec 255 (String.length TEST_NAME)); [reflexivity|lia].
Qed.

(** C9. When two or more files match, [get_test_file] raises: the
    "is ambiguous" [ValueError] when the folder is the empty string, the
    short "not found" [ValueError] when a folder was given. *)
Theorem load_several_matches (names : list string) :
  os_listdir = inr names ->
  several_matches names ->
  (TEST_PARENT_FOLDER = "" ->
   Loader.get_test_file = inl Loader.ambiguous_error)
  /\ (TEST_PARENT_FOLDER <> "" ->
      Loader.get_test_file = inl Loader.not_single_error).
Proof.
  intros Hls Hmany. unfold Loader.get_test_file.
  rewrite Hls. cbn [Exn.bind].
  pose proof (filter_several _ Hmany) as Hlen.
  destruct (filter Loader.selected names) as [|a [|b l]];
    cbn [List.length] in Hlen; try lia.
  cbn [List.length Nat.eqb Nat.ltb Nat.leb].
  split; intros Hfolder.
  - rewrite Hfolder. reflexivity.
  - apply String.eqb_neq in Hfolder. rewrite Hfolder. reflexivity.
Qed.

(** C10. The length of the test name is looked at only when nothing
    matches: with a test name of more than 255 characters and exactly one
    matching file whose text parses, [get_test_file] returns the parsed
    vector. *)
Theorem load_long_name_single_match
  (names : list string) (f text : string) (v : test_data) :
  (255 < String.length TEST_NAME)%nat ->
  os_listdir = inr names ->
  only_match names f ->
  read_text f = inr text ->
  json_loads text = inr v ->
  Loader.get_test_file = inr v.
Proof.
  intros _ Hls Hone Hread Hparse.
  rewrite (get_test_file_single names f Hls Hone), Hread. exact Hparse.
Qed.

End WithCorpus.

(** ** The theorems at concrete corpora *)

Import Sample.

Ltac no_match_by_test :=
  repeat (constructor; [apply not_matching_by_test; vm_compute; reflexivity|]);
  constructor.

Ltac only_match_by_test before after :=
  exists before, after;
  split; [reflexivity|];
  split; [apply matching_by_test; vm_compute; reflexivity|];
  split; no_match_by_test.

Lemma load_single_match_witness :
  @Loader.get_test_file (corpus_of "sub" "" files) = inr (vector "0x0" "0x").
Proof.
  apply (@load_single_match (corpus_of "sub" "" files) (map fst files)
           "stExample_sub_d0g0v0_Cancun.json" "0x").
  - reflexivity.
  - only_match_by_test ["stExample_add_d0g0v0_Cancun.json"]
                       ["stArgs_add_d0g0v0_Cancun.json"].
  - reflexivity.
Defined.

Lemma load_no_match_witness :
  @Loader.get_test_file (corpus_of "mul" "" files)
  = inl (@Loader.not_found_error (corpus_of "mul" "" files))
  /\ @Loader.get_test_file (corpus_of long_name "" files)
     = inl (@Loader.name_too_long_error (corpus_of long_name "" files)).
Proof.
  split.
  - apply (proj1 (@load_no_match (corpus_of "mul" "" files) (map fst files)
                    eq_refl ltac:(no_match_by_test))).
    vm_compute. lia.
  - apply (proj2 (@load_no_match (corpus_of long_name "" files) (map fst files)
                    eq_refl ltac:(no_match_by_test))).
    vm_compute. lia.
Defined.

Lemma load_several_matches_witness :
  @Loader.get_test_file (corpus_of "add" "" files)
  = inl (@Loader.ambiguous_error (corpus_of "add" "" files))
  /\ @Loader.get_test_file (corpus_of "add" "d0g0" files)
     = inl (@Loader.not_single_error (corpus_of "add" "d0g0" files)).
Proof.
  split.
  - apply (@load_several_matches (corpus_of "add" "" files) (map fst files)
             eq_refl).
    + exists [], "stExample_add_d0g0v0_Cancun.json",
        ["stExample_sub_d0g0v0_Cancun.json"],
        "stArgs_add_d0g0v0_Cancun.json", [].
      split; [reflexivity|].
      split; apply matching_by_test; vm_compute; reflexivity.
    + reflexivity.
  - apply (@load_several_matches (corpus_of "add" "d0g0" files) (map fst files)
             eq_refl).
    + exists [], "stExample_add_d0g0v0_Cancun.json",
        ["stExample_sub_d0g0v0_Cancun.json"],
        "stArgs_add_d0g0v0_Cancun.json", [].
      split; [reflexivity|].
      split; apply matching_by_test; vm_compute; reflexivity.
    + discriminate.
Defined.

Lemma load_long_name_single_match_witness :
  @Loader.get_test_file (corpus_of long_name "" long_files)
  = inr (vector "0x0" "0x01").
Proof.
  apply (@load_long_name_single_match
           (corpus_of long_name "" long_files) (map fst long_files)
           (long_name ++ ".json") "0x01").
  - vm_compute. lia.
  - reflexivity.
  - only_match_by_test (@nil string) ["stExample_add.json"].
  - vm_compute. reflexivity.
  - reflexivity.
Defined.

End LoaderFacts.

(* ------------------------------------------------------------------ *)
(** * The post-state verifier *)

Module VerifierFacts.
Import Py Vocabulary PyFacts.

Lemma value_eq_dec (a b : value) : {a = b} + {a <> b}.
Proof.
  decide equality; [apply Z.eq_dec | apply list_eq_dec, Byte.byte_eq_dec].
Qed.

Lemma bytes_eqb_refl (b : bytes) : Verifier.bytes_eqb b b = true.
Proof.
  unfold Verifier.bytes_eqb. destruct (list_eq_dec _ b b); congruence.
Qed.

Lemma bytes_eqb_neq (a b : bytes) : a <> b -> Verifier.bytes_eqb a b = false.
Proof.
  unfold Verifier.bytes_eqb. destruct (list_eq_dec _ a b); congruence.
Qed.

(** In a list whose elements each pass or fail a test, either all pass or
    there is a first one that fails. *)
Lemma first_failure {A} (pass fail : A -> Prop) (l : list A) :
  Forall (fun x => pass x \/ fail x) l ->
  Forall pass l
  \/ exists before x after,
       l = (before ++ x :: after)%list /\ Forall pass before /\ fail x.
Proof.
  induction 1 as [|x l [Hp|Hf] _ [IH|(b & y & a & -> & Hb & Hy)]].
  - left. constructor.
  - left. constructor; assumption.
  - right. exists (x :: b), y, a. repeat split; [constructor|]; assumption.
  - right. exists [], x, l. repeat split; [constructor | assumption].
  - right. exists [], x, (b ++ y :: a)%list.
    repeat split; [constructor | assumption].
Qed.

Section WithLibs.
Context `{Libs}.
Variable w3 : eth.

(** ** One assertion *)

Ltac unpack_agrees Hag :=
  destruct Hag as (? & Hlive & Hexp); cbn [fst snd live expected] in Hlive, Hexp.

Ltac unpack_differs Hdf :=
  destruct Hdf as (Hlive & Hexp & Hne); cbn [fst snd live expected] in Hlive, Hexp.

Lemma assert_balance_agrees (address : string) (acc : account) :
  agrees w3 address (Balance, balance acc) ->
  Verifier.assert_balance w3 address acc = inr tt.
Proof.
  intros Hag. unpack_agrees Hag. unfold Verifier.assert_balance, Exn.int16.
  destruct (get_balance w3 address) as [e|n]; [discriminate|].
  destruct (Py.int16 (balance acc)) as [m|]; [|discriminate].
  cbn in *. assert (n = m) by congruence. subst m.
  rewrite Z.eqb_refl. reflexivity.
Qed.

Lemma assert_balance_differs (address : string) (acc : account) actual wanted :
  differs w3 address (Balance, balance acc) actual wanted ->
  Verifier.assert_balance w3 address acc
  = inl (assertion_error Balance actual wanted).
Proof.
  intros Hdf. unpack_differs Hdf. unfold Verifier.assert_balance, Exn.int16.
  destruct (get_balance w3 address) as [e|n]; [discriminate|].
  destruct (Py.int16 (balance acc)) as [m|]; [|discriminate].
  cbn in *. injection Hlive as <-. injection Hexp as <-.
  destruct (Z.eqb_spec n m) as [->|_]; [congruence|]. reflexivity.
Qed.

Lemma assert_nonce_agrees (address : string) (acc : account) :
  agrees w3 address (Nonce, nonce acc) ->
  Verifier.assert_nonce w3 address acc = inr tt.
Proof.
  intros Hag. unpack_agrees Hag. unfold Verifier.assert_nonce, Exn.int16.
  destruct (get_transaction_count w3 address) as [e|n]; [discriminate|].
  destruct (Py.int16 (nonce acc)) as [m|]; [|discriminate].
  cbn in *. assert (n = m) by congruence. subst m.
  rewrite Z.eqb_refl. reflexivity.
Qed.

Lemma assert_nonce_differs (address : string) (acc : account) actual wanted :
  differs w3 address (Nonce, nonce acc) actual wanted ->
  Verifier.assert_nonce w3 address acc
  = inl (assertion_error Nonce actual wanted).
Proof.
  intros Hdf. unpack_differs Hdf. unfold Verifier.assert_nonce, Exn.int16.
  destruct (get_transaction_count w3 address) as [e|n]; [discriminate|].
  destruct (Py.int16 (nonce acc)) as [m|]; [|discriminate].
  cbn in *. injection Hlive as <-. injection Hexp as <-.
  destruct (Z.eqb_spec n m) as [->|_]; [congruence|]. reflexivity.
Qed.

Lemma assert_code_agrees (address : string) (acc : account) :
  agrees w3 address (Code, code acc) ->
  Verifier.assert_code w3 address acc = inr tt.
Proof.
  intros Hag. unpack_agrees Hag. unfold Verifier.assert_code, Exn.bytes_fromhex.
  destruct (get_code w3 address) as [e|b]; [discriminate|].
  destruct (Py.bytes_fromhex _) as [b'|]; [|discriminate].
  cbn in *. assert (b = b') by congruence. subst b'.
  rewrite bytes_eqb_refl. reflexivity.
Qed.

Lemma assert_code_differs (address : string) (acc : account) actual wanted :
  differs w3 address (Code, code acc) actual wanted ->
  Verifier.assert_code w3 address acc
  = inl (assertion_error Code actual wanted).
Proof.
  intros Hdf. unpack_differs Hdf. unfold Verifier.assert_code, Exn.bytes_fromhex.
  destruct (get_code w3 address) as [e|b]; [discriminate|].
  destruct (Py.bytes_fromhex _) as [b'|]; [|discriminate].
  cbn in *. injection Hlive as <-. injection Hexp as <-.
  rewrite bytes_eqb_neq by congruence. reflexivity.
Qed.

Lemma assert_slot_agrees (address k v : string) :
  agrees w3 address (Slot k, v) ->
  Verifier.assert_slot w3 address k v = inr tt.
Proof.
  intros Hag. unpack_agrees Hag. unfold Verifier.assert_slot, Exn.int16.
  destruct (get_storage_at w3 address k) as [e|raw]; [discriminate|].
  destruct (Py.int16 v) as [m|]; [|discriminate].
  cbn in *. assert (int_from_bytes_big raw = m) by congruence. subst m.
  rewrite Z.eqb_refl. reflexivity.
Qed.

Lemma assert_slot_differs (address k v : string) actual wanted :
  differs w3 address (Slot k, v) actual wanted ->
  Verifier.assert_slot w3 address k v
  = inl (assertion_error (Slot k) actual wanted).
Proof.
  intros Hdf. unpack_differs Hdf. unfold Verifier.assert_slot, Exn.int16.
  destruct (get_storage_at w3 address k) as [e|raw]; [discriminate|].
  destruct (Py.int16 v) as [m|]; [|discriminate].
  cbn in *. injection Hlive as <-. injection Hexp as <-.
  destruct (Z.eqb_spec (int_from_bytes_big raw) m) as [E|_]; [congruence|].
  reflexivity.
Qed.

(** ** The storage loop *)

Lemma assert_storage_agrees (address : string) (items : list (string * string)) :
  Forall (agrees w3 address) (map slot_of items) ->
  Verifier.assert_storage w3 address items = inr tt.
Proof.
  induction items as [|[k v] items IH]; intros Hall; [reflexivity|].
  inversion Hall as [|? ? Hkv Hrest]; subst.
  cbn [Verifier.assert_storage].
  rewrite (assert_slot_agrees address k v Hkv). cbn [Exn.bind].
  apply IH, Hrest.
Qed.

Lemma assert_storage_differs (address : string)
  (before : list (string * string)) k v after actual wanted :
  Forall (agrees w3 address) (map slot_of before) ->
  differs w3 address (Slot k, v) actual wanted ->
  Verifier.assert_storage w3 address (before ++ (k, v) :: after)
  = inl (assertion_error (Slot k) actual wanted).
Proof.
  induction before as [|[k0 v0] before IH]; intros Hall Hdf.
  - cbn [app Verifier.assert_storage].
    rewrite (assert_slot_differs address k v _ _ Hdf). reflexivity.
  - inversion Hall as [|? ? Hkv Hrest]; subst.
    cbn [app Verifier.assert_storage].
    rewrite (assert_slot_agrees address k0 v0 Hkv). cbn [Exn.bind].
    apply IH; assumption.
Qed.

(** ** One account *)

Lemma wrap_assertion_error (address : string) (f : field) actual wanted :
  Verifier.post_state_error address (assertion_error f actual wanted)
  = state_mismatch_error address f actual wanted.
Proof. reflexivity. Qed.

Lemma check_account_ok (address : string) (acc : account) :
  account_ok w3 address acc ->
  Verifier.check_account w3 address acc = inr tt.
Proof.
  unfold account_ok, expectations. cbn [app]. intros Hall.
  inversion Hall as [|? ? Hb Hall1]; subst.
  inversion Hall1 as [|? ? Hn Hall2]; subst.
  inversion Hall2 as [|? ? Hc Hs]; subst.
  unfold Verifier.check_account.
  rewrite (assert_balance_agrees _ _ Hb), (assert_nonce_agrees _ _ Hn),
    (assert_code_agrees _ _ Hc). cbn [Exn.bind].
  rewrite (assert_storage_agrees address (storage acc) Hs). reflexivity.
Qed.

Lemma check_account_mismatch (address : string) (acc : account)
  (f : field) (actual wanted : value) :
  first_mismatch w3 address acc f actual wanted ->
  Verifier.check_account w3 address acc
  = inl (state_mismatch_error address f actual wanted).
Proof.
  intros (before & s & after & Hexp & Hbefore & Hdf).
  unfold expectations in Hexp. cbn [app] in Hexp.
  unfold Verifier.check_account.
  destruct before as [|b0 before].
  { cbn [app] in Hexp. injection Hexp as <- <- _.
    rewrite (assert_balance_differs _ _ _ _ Hdf). reflexivity. }
  inversion Hbefore as [|? ? Hb Hbefore1]; subst.
  cbn [app] in Hexp. injection Hexp as <- Hexp.
  rewrite (assert_balance_agrees _ _ Hb). cbn [Exn.bind].
  destruct before as [|b1 before].
  { cbn [app] in Hexp. injection Hexp as <- <- _.
    rewrite (assert_nonce_differs _ _ _ _ Hdf). reflexivity. }
  inversion Hbefore1 as [|? ? Hn Hbefore2]; subst.
  cbn [app] in Hexp. injection Hexp as <- Hexp.
  rewrite (assert_nonce_agrees _ _ Hn). cbn [Exn.bind].
  destruct before as [|b2 before].
  { cbn [app] in Hexp. injection Hexp as <- <- _.
    rewrite (assert_code_differs _ _ _ _ Hdf). reflexivity. }
  inversion Hbefore2 as [|? ? Hc Hbefore3]; subst.
  cbn [app] in Hexp. injection Hexp as <- Hexp.
  rewrite (assert_code_agrees _ _ Hc). cbn [Exn.bind].
  apply map_eq_app in Hexp.
  destruct Hexp as (s1 & s2 & Hst & <- & Hs2).
  destruct s2 as [|[k v] s2]; [discriminate|].
  cbn [map] in Hs2. injection Hs2 as <- <- _.
  rewrite Hst.
  rewrite (assert_storage_differs address s1 k v s2 actual wanted Hbefore3 Hdf).
  reflexivity.
Qed.

(** ** All accounts *)

Lemma check_accounts_ok (items : list (string * account)) :
  Forall (entry_ok w3) items ->
  Verifier.check_accounts w3 items = inr tt.
Proof.
  induction 1 as [|[raw acc] items Hentry _ IH]; [reflexivity|].
  cbn [Verifier.check_accounts].
  destruct Hentry as [(b & Hraw & Hb)|(a & (Hraw & b & Hb & Hne) & Hok)];
    cbn [fst snd] in *; rewrite Hraw; cbn [Exn.bind]; rewrite Hb; cbn [Exn.bind].
  - rewrite String.eqb_refl. exact IH.
  - apply String.eqb_neq in Hne. rewrite Hne.
    rewrite (check_account_ok a acc Hok). exact IH.
Qed.

Lemma check_accounts_mismatch
  (before : list (string * account)) raw acc after address f actual wanted :
  Forall (entry_ok w3) before ->
  compared raw address ->
  first_mismatch w3 address acc f actual wanted ->
  Verifier.check_accounts w3 (before ++ (raw, acc) :: after)
  = inl (state_mismatch_error address f actual wanted).
Proof.
  intros Hbefore (Hraw & b & Hb & Hne) Hfirst.
  induction Hbefore as [|[raw0 acc0] before Hentry _ IH].
  - cbn [app Verifier.check_accounts].
    rewrite Hraw; cbn [Exn.bind]; rewrite Hb; cbn [Exn.bind].
    apply String.eqb_neq in Hne. rewrite Hne.
    rewrite (check_account_mismatch _ _ _ _ _ Hfirst). reflexivity.
  - cbn [app Verifier.check_accounts].
    destruct Hentry as [(b0 & Hraw0 & Hb0)|(a0 & (Hraw0 & b0 & Hb0 & Hne0) & Hok)];
      cbn [fst snd] in *; rewrite Hraw0; cbn [Exn.bind];
      rewrite Hb0; cbn [Exn.bind].
    + rewrite String.eqb_refl. exact IH.
    + apply String.eqb_neq in Hne0. rewrite Hne0.
      rewrite (check_account_ok a0 acc0 Hok). exact IH.
Qed.

Lemma comparable_cases (address : string) (fs : field * string) :
  comparable w3 address fs ->
  agrees w3 address fs
  \/ exists actual wanted, differs w3 address fs actual wanted.
Proof.
  intros (actual & wanted & Hlive & Hexp).
  destruct (value_eq_dec actual wanted) as [->|Hne].
  - left. exists wanted. split; assumption.
  - right. exists actual, wanted. repeat split; assumption.
Qed.

Lemma entry_cases (entry : string * account) :
  entry_comparable w3 entry -> entry_ok w3 entry \/ entry_fails w3 entry.
Proof.
  intros [Hsys|(a & Hcmp & Hall)]; [left; left; exact Hsys|].
  destruct (first_failure (agrees w3 a)
              (fun fs => exists actual wanted, differs w3 a fs actual wanted)
              (expectations (snd entry)))
    as [Hok|(before & [f s] & after & Hexp & Hbefore & actual & wanted & Hdf)].
  - eapply Forall_impl; [|exact Hall]. intros fs. apply comparable_cases.
  - left. right. exists a. split; assumption.
  - right. exists a, f, actual, wanted. split; [exact Hcmp|].
    exists before, s, after.
    split; [exact Hexp | split; [exact Hbefore | exact Hdf]].
Qed.

(** C1. [check_post_state] succeeds when every account of [postState]
    other than the beacon root address agrees with the node in balance,
    nonce, code and every listed storage slot. When some field differs, it
    raises the [ValueError] "Post state does not match for ..." that
    carries the checksummed address, the field's name, the actual and the
    expected value, for the first field that differs in the first account
    that has one. And whenever all addresses have a checksum form, all
    expected strings parse and the node answers, one of the two is the
    case. *)
Theorem check_post_state_verdict (data : test_data) :
  (Forall (entry_ok w3) (postState data) ->
   Verifier.check_post_state w3 data = inr tt)
  /\ (forall before raw acc after address f actual wanted,
        postState data = (before ++ (raw, acc) :: after)%list ->
        Forall (entry_ok w3) before ->
        compared raw address ->
        first_mismatch w3 address acc f actual wanted ->
        Verifier.check_post_state w3 data
        = inl (state_mismatch_error address f actual wanted))
  /\ (Forall (entry_comparable w3) (postState data) ->
      Forall (entry_ok w3) (postState data)
      \/ exists before raw acc after address f actual wanted,
           postState data = (before ++ (raw, acc) :: after)%list
           /\ Forall (entry_ok w3) before
           /\ compared raw address
           /\ first_mismatch w3 address acc f actual wanted).
Proof.
  unfold Verifier.check_post_state. split; [|split].
  - apply check_accounts_ok.
  - intros before raw acc after address f actual wanted -> Hbefore Hcmp Hfirst.
    apply check_accounts_mismatch; assumption.
  - intros Hall.
    destruct (first_failure (entry_ok w3) (entry_fails w3) (postState data))
      as [Hok|(before & [raw acc] & after & Hsplit & Hbefore & Hfail)].
    + eapply Forall_impl; [|exact Hall]. intros e. apply entry_cases.
    + left. exact Hok.
    + right. destruct Hfail as (a & f & actual & wanted & Hcmp & Hfirst).
      exists before, raw, acc, after, a, f, actual, wanted.
      split; [exact Hsplit | split; [exact Hbefore | split; assumption]].
Qed.

(** ** Numbers are compared by value *)

Lemma same_number_int16 (s1 s2 : string) :
  same_number s1 s2 -> Exn.int16 s1 = Exn.int16 s2.
Proof.
  intros (n & H1 & H2). unfold Exn.int16. rewrite H1, H2. reflexivity.
Qed.

Lemma assert_storage_same_slots (address : string)
  (s1 s2 : list (string * string)) :
  Forall2 same_slot s1 s2 ->
  Verifier.assert_storage w3 address s1 = Verifier.assert_storage w3 address s2.
Proof.
  induction 1 as [|[k1 v1] [k2 v2] s1 s2 [Hk Hv] _ IH]; [reflexivity|].
  cbn [fst snd] in Hk, Hv. subst k2.
  cbn [Verifier.assert_storage]. unfold Verifier.assert_slot.
  rewrite (same_number_int16 _ _ Hv), IH. reflexivity.
Qed.

Lemma check_account_same_numbers (address : string) (a1 a2 : account) :
  same_numbers a1 a2 ->
  Verifier.check_account w3 address a1 = Verifier.check_account w3 address a2.
Proof.
  intros (Hcode & Hbal & Hnonce & Hst).
  unfold Verifier.check_account, Verifier.assert_balance,
    Verifier.assert_nonce, Verifier.assert_code.
  rewrite Hcode, (same_number_int16 _ _ Hbal), (same_number_int16 _ _ Hnonce),
    (assert_storage_same_slots address _ _ Hst).
  reflexivity.
Qed.

(** An assertion that passes has compared the two values. *)
Lemma assert_balance_passes (address : string) (acc : account) :
  Verifier.assert_balance w3 address acc = inr tt ->
  balance_matches w3 address acc.
Proof.
  unfold Verifier.assert_balance, Exn.int16, balance_matches.
  destruct (get_balance w3 address) as [e|n]; [discriminate|].
  destruct (Py.int16 (balance acc)) as [m|]; [|discriminate].
  cbn. destruct (Z.eqb_spec n m) as [->|_]; [|discriminate].
  intros _. exists m. split; reflexivity.
Qed.

Lemma assert_nonce_passes (address : string) (acc : account) :
  Verifier.assert_nonce w3 address acc = inr tt ->
  nonce_matches w3 address acc.
Proof.
  unfold Verifier.assert_nonce, Exn.int16, nonce_matches.
  destruct (get_transaction_count w3 address) as [e|n]; [discriminate|].
  destruct (Py.int16 (nonce acc)) as [m|]; [|discriminate].
  cbn. destruct (Z.eqb_spec n m) as [->|_]; [|discriminate].
  intros _. exists m. split; reflexivity.
Qed.

Lemma assert_code_passes (address : string) (acc : account) :
  Verifier.assert_code w3 address acc = inr tt ->
  code_matches w3 address acc.
Proof.
  unfold Verifier.assert_code, Exn.bytes_fromhex, code_matches,
    Verifier.bytes_eqb.
  destruct (get_code w3 address) as [e|b]; [discriminate|].
  destruct (Py.bytes_fromhex _) as [b'|]; [|discriminate].
  cbn. destruct (list_eq_dec Byte.byte_eq_dec b b') as [->|_]; [|discriminate].
  intros _. exists b'. split; reflexivity.
Qed.

Lemma assert_slot_passes (address k v : string) :
  Verifier.assert_slot w3 address k v = inr tt ->
  slot_matches w3 address (k, v).
Proof.
  unfold Verifier.assert_slot, Exn.int16, slot_matches. cbn [fst snd].
  destruct (get_storage_at w3 address k) as [e|raw]; [discriminate|].
  destruct (Py.int16 v) as [m|]; [|discriminate].
  cbn. destruct (Z.eqb_spec (int_from_bytes_big raw) m) as [<-|_];
    [|discriminate].
  intros _. exists raw. split; reflexivity.
Qed.

Lemma assert_storage_passes (address : string)
  (items : list (string * string)) :
  Verifier.assert_storage w3 address items = inr tt ->
  Forall (slot_matches w3 address) items.
Proof.
  induction items as [|[k v] items IH]; intros Hres; [constructor|].
  cbn [Verifier.assert_storage] in Hres.
  destruct (Verifier.assert_slot w3 address k v) as [e|[]] eqn:Eslot;
    [discriminate|].
  cbn [Exn.bind] in Hres.
  constructor; [apply assert_slot_passes, Eslot | apply IH, Hres].
Qed.

(** The comparisons said in full are those of [agrees]. *)
Lemma balance_matches_agrees (address : string) (acc : account) :
  balance_matches w3 address acc ->
  agrees w3 address (Balance, balance acc).
Proof.
  intros (n & Hlive & Hexp). exists (VInt n). cbn [fst snd live expected].
  rewrite Hlive, Hexp. split; reflexivity.
Qed.

Lemma nonce_matches_agrees (address : string) (acc : account) :
  nonce_matches w3 address acc ->
  agrees w3 address (Nonce, nonce acc).
Proof.
  intros (n & Hlive & Hexp). exists (VInt n). cbn [fst snd live expected].
  rewrite Hlive, Hexp. split; reflexivity.
Qed.

Lemma code_matches_agrees (address : string) (acc : account) :
  code_matches w3 address acc ->
  agrees w3 address (Code, code acc).
Proof.
  intros (c & Hlive & Hexp). exists (VBytes c). cbn [fst snd live expected].
  rewrite Hlive, Hexp. split; reflexivity.
Qed.

Lemma slot_matches_agrees (address : string) (kv : string * string) :
  slot_matches w3 address kv -> agrees w3 address (slot_of kv).
Proof.
  intros (raw & Hlive & Hexp). exists (VInt (int_from_bytes_big raw)).
  cbn [slot_of fst snd live expected]. rewrite Hlive, Hexp.
  split; reflexivity.
Qed.

Lemma slots_match_agree (address : string) (items : list (string * string)) :
  Forall (slot_matches w3 address) items ->
  Forall (agrees w3 address) (map slot_of items).
Proof.
  induction 1 as [|kv items Hkv _ IH]; cbn [map]; constructor;
    [apply slot_matches_agrees, Hkv | exact IH].
Qed.

(** One account passes exactly when all its comparisons hold. *)
Lemma check_account_passes_iff (address : string) (acc : account) :
  Verifier.check_account w3 address acc = inr tt
  <-> balance_matches w3 address acc
      /\ nonce_matches w3 address acc
      /\ code_matches w3 address acc
      /\ Forall (slot_matches w3 address) (storage acc).
Proof.
  split.
  - unfold Verifier.check_account, try_except.
    destruct (Verifier.assert_balance w3 address acc) as [e|[]] eqn:Eb;
      [discriminate|].
    destruct (Verifier.assert_nonce w3 address acc) as [e|[]] eqn:En;
      [discriminate|].
    destruct (Verifier.assert_code w3 address acc) as [e|[]] eqn:Ec;
      [discriminate|].
    cbn [Exn.bind].
    destruct (Verifier.assert_storage w3 address (storage acc))
      as [e|[]] eqn:Es; [discriminate|].
    intros _.
    split; [apply assert_balance_passes, Eb|].
    split; [apply assert_nonce_passes, En|].
    split; [apply assert_code_passes, Ec | apply assert_storage_passes, Es].
  - intros (Hb & Hn & Hc & Hs). apply check_account_ok.
    unfold account_ok, expectations. cbn [app].
    constructor; [apply balance_matches_agrees, Hb|].
    constructor; [apply nonce_matches_agrees, Hn|].
    constructor; [apply code_matches_agrees, Hc|].
    apply slots_match_agree, Hs.
Qed.

(** C2. The verifier compares numbers, not their spelling. Each
    assertion on a number passes exactly when the node's value is the
    number the vector's hexadecimal string denotes: the balance against
    [get_balance], the nonce against [get_transaction_count], and each
    listed slot against the big-endian integer of what [get_storage_at]
    returns; an account passes exactly when its balance, nonce, code and
    every listed slot do. A number that differs is rejected with the
    mismatch error naming its field, the node's value and the expected
    one: the balance; the nonce, the balance being right; a slot, all
    before it being right. Two expected accounts whose numbers are
    spelled differently get the same verdict. An expected balance of
    ["0x64"] passes against a live balance of 100 and is rejected against
    101 with the error that names the balance, 101 and 100. *)
Theorem numbers_compared_by_value (address : string) :
  (forall acc : account,
      Verifier.assert_balance w3 address acc = inr tt
      <-> balance_matches w3 address acc)
  /\ (forall acc : account,
        Verifier.assert_nonce w3 address acc = inr tt
        <-> nonce_matches w3 address acc)
  /\ (forall k v : string,
        Verifier.assert_slot w3 address k v = inr tt
        <-> slot_matches w3 address (k, v))
  /\ (forall acc : account,
        Verifier.check_account w3 address acc = inr tt
        <-> balance_matches w3 address acc
            /\ nonce_matches w3 address acc
            /\ code_matches w3 address acc
            /\ Forall (slot_matches w3 address) (storage acc))
  /\ (forall (acc : account) (actual wanted : Z),
        get_balance w3 address = inr actual ->
        Py.int16 (balance acc) = Some wanted ->
        actual <> wanted ->
        Verifier.check_account w3 address acc
        = inl (state_mismatch_error address Balance
                 (VInt actual) (VInt wanted)))
  /\ (forall (acc : account) (actual wanted : Z),
        balance_matches w3 address acc ->
        get_transaction_count w3 address = inr actual ->
        Py.int16 (nonce acc) = Some wanted ->
        actual <> wanted ->
        Verifier.check_account w3 address acc
        = inl (state_mismatch_error address Nonce
                 (VInt actual) (VInt wanted)))
  /\ (forall (acc : account) (s1 : list (string * string)) (k v : string)
             (s2 : list (string * string)) (raw : Py.bytes) (wanted : Z),
        balance_matches w3 address acc ->
        nonce_matches w3 address acc ->
        code_matches w3 address acc ->
        storage acc = (s1 ++ (k, v) :: s2)%list ->
        Forall (slot_matches w3 address) s1 ->
        get_storage_at w3 address k = inr raw ->
        Py.int16 v = Some wanted ->
        Py.int_from_bytes_big raw <> wanted ->
        Verifier.check_account w3 address acc
        = inl (state_mismatch_error address (Slot k)
                 (VInt (Py.int_from_bytes_big raw)) (VInt wanted)))
  /\ (forall a1 a2 : account,
        same_numbers a1 a2 ->
        Verifier.check_account w3 address a1
        = Verifier.check_account w3 address a2)
  /\ (forall acc : account,
        balance acc = "0x64" ->
        (get_balance w3 address = inr 100 ->
         Verifier.assert_balance w3 address acc = inr tt)
        /\ (get_balance w3 address = inr 101 ->
            Verifier.check_account w3 address acc
            = inl (state_mismatch_error address Balance (VInt 101) (VInt 100)))).
Proof.
  assert (Hbalance : forall (acc : account) (actual wanted : Z),
             get_balance w3 address = inr actual ->
             Py.int16 (balance acc) = Some wanted ->
             actual <> wanted ->
             Verifier.check_account w3 address acc
             = inl (state_mismatch_error address Balance
                      (VInt actual) (VInt wanted))).
  { intros acc actual wanted Hlive Hexp Hne. apply check_account_mismatch.
    exists [], (balance acc), ((Nonce, nonce acc) :: (Code, code acc)
                                 :: map slot_of (storage acc)).
    split; [reflexivity|]. split; [constructor|].
    split; [|split]; cbn [fst snd live expected].
    - rewrite Hlive. reflexivity.
    - rewrite Hexp. reflexivity.
    - congruence. }
  split.
  { intros acc. split; [apply assert_balance_passes|].
    intros Hm. apply assert_balance_agrees, balance_matches_agrees, Hm. }
  split.
  { intros acc. split; [apply assert_nonce_passes|].
    intros Hm. apply assert_nonce_agrees, nonce_matches_agrees, Hm. }
  split.
  { intros k v. split; [apply assert_slot_passes|].
    intros Hm. apply assert_slot_agrees.
    exact (slot_matches_agrees address (k, v) Hm). }
  split; [apply check_account_passes_iff|].
  split; [exact Hbalance|].
  split.
  { intros acc actual wanted Hb Hlive Hexp Hne. apply check_account_mismatch.
    exists [(Balance, balance acc)], (nonce acc),
      ((Code, code acc) :: map slot_of (storage acc)).
    split; [reflexivity|].
    split; [constructor; [apply balance_matches_agrees, Hb | constructor]|].
    split; [|split]; cbn [fst snd live expected].
    - rewrite Hlive. reflexivity.
    - rewrite Hexp. reflexivity.
    - congruence. }
  split.
  { intros acc s1 k v s2 raw wanted Hb Hn Hc Hst Hs1 Hlive Hexp Hne.
    apply check_account_mismatch.
    exists ([(Balance, balance acc); (Nonce, nonce acc); (Code, code acc)]
              ++ map slot_of s1)%list, v, (map slot_of s2).
    split.
    { unfold expectations. rewrite Hst, map_app. reflexivity. }
    split.
    { cbn [app].
      constructor; [apply balance_matches_agrees, Hb|].
      constructor; [apply nonce_matches_agrees, Hn|].
      constructor; [apply code_matches_agrees, Hc|].
      apply slots_match_agree, Hs1. }
    split; [|split]; cbn [fst snd live expected].
    - rewrite Hlive. reflexivity.
    - rewrite Hexp. reflexivity.
    - congruence. }
  split; [apply check_account_same_numbers|].
  intros acc Hbal. split; intros Hlive.
  - apply assert_balance_agrees, balance_matches_agrees.
    exists 100. rewrite Hbal. split; [exact Hlive | reflexivity].
  - apply (Hbalance acc 101 100 Hlive); [rewrite Hbal; reflexivity | lia].
Qed.

End WithLibs.

(** ** The beacon root address *)

Section TwoNodes.
Context `{Libs}.
Variables w3 w3' : eth.

Lemma assert_storage_same_at (address : string) (items : list (string * string)) :
  same_at w3 w3' address ->
  Verifier.assert_storage w3 address items
  = Verifier.assert_storage w3' address items.
Proof.
  intros (_ & _ & _ & Hst).
  induction items as [|[k v] items IH]; [reflexivity|].
  cbn [Verifier.assert_storage]. unfold Verifier.assert_slot.
  rewrite Hst, IH. reflexivity.
Qed.

Lemma check_account_same_at (address : string) (acc : account) :
  same_at w3 w3' address ->
  Verifier.check_account w3 address acc
  = Verifier.check_account w3' address acc.
Proof.
  intros Hsame. pose proof Hsame as (Hb & Hn & Hc & _).
  unfold Verifier.check_account, Verifier.assert_balance,
    Verifier.assert_nonce, Verifier.assert_code.
  rewrite Hb, Hn, Hc, (assert_storage_same_at address _ Hsame).
  reflexivity.
Qed.

Lemma check_accounts_same_but_system (items1 items2 : list (string * account)) :
  Forall2 same_but_system items1 items2 ->
  (forall a, to_checksum_address BEACON_ROOT_ADDRESS <> inr a ->
             same_at w3 w3' a) ->
  Verifier.check_accounts w3 items1 = Verifier.check_accounts w3' items2.
Proof.
  intros Hitems Hnodes.
  induction Hitems as [|[raw1 acc1] [raw2 acc2] l1 l2 [Hraw Hacc] _ IH];
    [reflexivity|].
  cbn [fst snd] in Hraw, Hacc. subst raw2.
  cbn [Verifier.check_accounts].
  destruct (to_checksum_address raw1) as [e|a] eqn:Ea; [reflexivity|].
  cbn [Exn.bind].
  destruct (to_checksum_address BEACON_ROOT_ADDRESS) as [e|b] eqn:Eb;
    [reflexivity|].
  cbn [Exn.bind].
  destruct (String.eqb_spec a b) as [->|Hne]; [exact IH|].
  assert (Hnot : ~ is_system raw1).
  { intros (b' & Hr & Hb'). congruence. }
  rewrite <- (Hacc Hnot).
  rewrite (check_account_same_at a acc1), IH; [reflexivity|].
  apply Hnodes. congruence.
Qed.

(** C3. The account recorded under the beacon root address plays no part
    in the verdict: two vectors whose [postState] have the same addresses
    in the same order and the same accounts everywhere but under the
    beacon root address get the same outcome, also from two nodes that
    answer differently about the beacon root address (and alike about
    every other address). *)
Theorem system_address_not_compared (data1 data2 : test_data) :
  Forall2 same_but_system (postState data1) (postState data2) ->
  (forall a, to_checksum_address BEACON_ROOT_ADDRESS <> inr a ->
             same_at w3 w3' a) ->
  Verifier.check_post_state w3 data1 = Verifier.check_post_state w3' data2.
Proof.
  intros Hitems Hnodes. unfold Verifier.check_post_state.
  apply check_accounts_same_but_system; assumption.
Qed.

End TwoNodes.

(** ** The theorems at a concrete vector *)

Import Sample.

Lemma sender_compared : @compared libs sender sender.
Proof.
  split; [reflexivity|]. exists beacon. split; [reflexivity|discriminate].
Qed.

Lemma funded_ok : account_ok (eth_with 100) sender funded.
Proof.
  unfold account_ok, expectations. cbn [funded storage map app slot_of].
  repeat (apply Forall_cons; [eexists; split; reflexivity|]).
  apply Forall_nil.
Qed.

Lemma sample_entries_ok (b r : string) :
  Forall (@entry_ok libs (eth_with 100)) (postState (vector b r)).
Proof.
  constructor; [|constructor; [|constructor]].
  - right. exists sender. split; [exact sender_compared | exact funded_ok].
  - left. exists beacon. split; reflexivity.
Qed.

Lemma funded_balance_differs :
  first_mismatch (eth_with 101) sender funded Balance (VInt 101) (VInt 100).
Proof.
  exists [], "0x64",
    [(Nonce, "0x0"); (Code, "0x"); (Slot "0x01", "0x02")].
  split; [reflexivity|]. split; [constructor|].
  split; [reflexivity|]. split; [reflexivity|discriminate].
Qed.

Lemma sample_entries_comparable (bal : Z) (b r : string) :
  Forall (@entry_comparable libs (eth_with bal)) (postState (vector b r)).
Proof.
  constructor; [|constructor; [|constructor]].
  - right. exists sender. split; [exact sender_compared|].
    unfold expectations. cbn [vector funded storage map app slot_of snd].
    repeat (apply Forall_cons; [do 2 eexists; split; reflexivity|]).
    apply Forall_nil.
  - left. exists beacon. split; reflexivity.
Qed.

Lemma check_post_state_verdict_witness :
  @Verifier.check_post_state libs (eth_with 100) (vector "0x0" "0x0102")
  = inr tt
  /\ @Verifier.check_post_state libs (eth_with 101) (vector "0x0" "0x0102")
     = inl (state_mismatch_error sender Balance (VInt 101) (VInt 100))
  /\ (Forall (@entry_ok libs (eth_with 101))
             (postState (vector "0x0" "0x0102"))
      \/ exists before raw acc after address f actual wanted,
           postState (vector "0x0" "0x0102")
           = (before ++ (raw, acc) :: after)%list
           /\ Forall (@entry_ok libs (eth_with 101)) before
           /\ @compared libs raw address
           /\ first_mismatch (eth_with 101) address acc f actual wanted).
Proof.
  split; [|split].
  3: { apply (proj2 (proj2 (@check_post_state_verdict libs (eth_with 101)
                              (vector "0x0" "0x0102")))).
       apply sample_entries_comparable. }
  - apply (proj1 (@check_post_state_verdict libs (eth_with 100)
                    (vector "0x0" "0x0102"))).
    apply sample_entries_ok.
  - apply (proj1 (proj2 (@check_post_state_verdict libs (eth_with 101)
                           (vector "0x0" "0x0102")))
             [] sender funded [(beacon, beacon_account "0x0")]).
    + reflexivity.
    + constructor.
    + exact sender_compared.
    + exact funded_balance_differs.
Defined.

Lemma funded_same_numbers : same_numbers funded funded_padded.
Proof.
  split; [reflexivity|].
  split; [exists 100; split; vm_compute; reflexivity|].
  split; [exists 0; split; vm_compute; reflexivity|].
  constructor; [|constructor].
  split; [reflexivity|]. exists 2. split; vm_compute; reflexivity.
Qed.

Lemma numbers_compared_by_value_witness :
  @Verifier.check_account (eth_with 100) sender funded
  = @Verifier.check_account (eth_with 100) sender funded_padded
  /\ Verifier.assert_balance (eth_with 100) sender funded = inr tt
  /\ Verifier.check_account (eth_with 101) sender funded
     = inl (state_mismatch_error sender Balance (VInt 101) (VInt 100))
  /\ Verifier.check_account (eth_with 100) sender funded = inr tt
  /\ Verifier.check_account (eth_with 100) sender funded_nonce1
     = inl (state_mismatch_error sender Nonce (VInt 0) (VInt 1))
  /\ Verifier.check_account (eth_with 100) sender funded_slot3
     = inl (state_mismatch_error sender (Slot "0x01") (VInt 2) (VInt 3)).
Proof.
  pose proof (numbers_compared_by_value (eth_with 100) sender)
    as (_ & _ & _ & Hacc & _ & Hnonce & Hslot & Hsame & Hex).
  pose proof (numbers_compared_by_value (eth_with 101) sender)
    as (_ & _ & _ & _ & _ & _ & _ & _ & Hex').
  assert (Hb : forall acc, balance acc = "0x64" ->
                           balance_matches (eth_with 100) sender acc).
  { intros acc E. exists 100. rewrite E. split; reflexivity. }
  assert (Hn : forall acc, nonce acc = "0x0" ->
                           nonce_matches (eth_with 100) sender acc).
  { intros acc E. exists 0. rewrite E. split; reflexivity. }
  assert (Hc : forall acc, code acc = "0x" ->
                           code_matches (eth_with 100) sender acc).
  { intros acc E. exists []. rewrite E. split; reflexivity. }
  split; [exact (Hsame funded funded_padded funded_same_numbers)|].
  split; [exact (proj1 (Hex funded eq_refl) eq_refl)|].
  split; [exact (proj2 (Hex' funded eq_refl) eq_refl)|].
  split; [|split].
  - apply (proj2 (Hacc funded)).
    split; [apply Hb; reflexivity|]. split; [apply Hn; reflexivity|].
    split; [apply Hc; reflexivity|].
    constructor; [|constructor]. exists [x00; x02]. split; reflexivity.
  - apply (Hnonce funded_nonce1 0 1);
      [apply Hb; reflexivity | reflexivity | reflexivity | lia].
  - apply (Hslot funded_slot3 [] "0x01" "0x03" [] [x00; x02] 3);
      [apply Hb; reflexivity | apply Hn; reflexivity | apply Hc; reflexivity
      | reflexivity | constructor | reflexivity | reflexivity
      | vm_compute; discriminate].
Defined.

Lemma system_address_not_compared_witness :
  @Verifier.check_post_state libs (eth_with 100) (vector "0x0" "0x0102")
  = @Verifier.check_post_state libs eth_apart (vector "0xdead" "0x0102").
Proof.
  apply (@system_address_not_compared libs (eth_with 100) eth_apart
           (vector "0x0" "0x0102") (vector "0xdead" "0x0102")).
  - constructor; [|constructor; [|constructor]].
    + split; [reflexivity|]. intros _. reflexivity.
    + split; [reflexivity|]. intros Hnot. exfalso. apply Hnot.
      exists beacon. split; reflexivity.
  - intros a Ha. split; [|split; [|split]]; try reflexivity.
    cbn [get_balance eth_with eth_apart].
    destruct (String.eqb_spec a beacon) as [->|Hne]; [|reflexivity].
    exfalso. apply Ha. reflexivity.
Defined.

End VerifierFacts.

(* ------------------------------------------------------------------ *)
(** * Seeding and replay *)

Module PipelineFacts.
Import Py Vocabulary PyFacts Pipeline.

Section WithNode.
Context `{Libs} `{Corpus} `{Node}.

(** ** The log only grows *)

Lemma not_send_request method params : ~ is_send (Request method params).
Proof. intros [raw Hraw]. discriminate. Qed.

Lemma quiet_mret {A} (a : A) : quiet (mret a).
Proof. intros w. exists []. cbn. rewrite app_nil_r. split; constructor. Qed.

Lemma quiet_mraise {A} (e : exn) : quiet (@mraise _ A e).
Proof. intros w. exists []. cbn. rewrite app_nil_r. split; constructor. Qed.

Lemma quiet_lift {A} (r : result A) : quiet (lift r).
Proof. intros w. exists []. cbn. rewrite app_nil_r. split; constructor. Qed.

Lemma quiet_query {A} (f : eth -> result A) : quiet (query f).
Proof. intros w. exists []. cbn. rewrite app_nil_r. split; constructor. Qed.

Lemma quiet_emit (ev : event) : ~ is_send ev -> quiet (emit ev).
Proof.
  intros Hev w. exists [ev]. cbn. split; [reflexivity|].
  constructor; [exact Hev | constructor].
Qed.

Lemma quiet_call {A} (ev : event) (f : node -> result A * node) :
  ~ is_send ev -> quiet (call ev f).
Proof.
  intros Hev w. exists [ev]. unfold call.
  destruct (f (the_node w)) as [r n]. cbn. split; [reflexivity|].
  constructor; [exact Hev | constructor].
Qed.

Lemma quiet_mbind {A B} (c : M A) (k : A -> M B) :
  quiet c -> (forall a, quiet (k a)) -> quiet (mbind c k).
Proof.
  intros Hc Hk w. unfold mbind.
  destruct (Hc w) as (evs1 & Hlog1 & Hq1).
  destruct (c w) as [[e|a] w1]; cbn [snd] in Hlog1.
  - exists evs1. split; assumption.
  - destruct (Hk a w1) as (evs2 & Hlog2 & Hq2).
    exists (evs1 ++ evs2)%list. split.
    + rewrite Hlog2, Hlog1, app_assoc. reflexivity.
    + apply Forall_app. split; assumption.
Qed.

Lemma quiet_mtry {A} (c : M A) (h : exn -> M A) :
  quiet c -> (forall e, quiet (h e)) -> quiet (mtry c h).
Proof.
  intros Hc Hh w. unfold mtry.
  destruct (Hc w) as (evs1 & Hlog1 & Hq1).
  destruct (c w) as [[e|a] w1]; cbn [snd] in Hlog1.
  - destruct (Hh e w1) as (evs2 & Hlog2 & Hq2).
    exists (evs1 ++ evs2)%list. split.
    + rewrite Hlog2, Hlog1, app_assoc. reflexivity.
    + apply Forall_app. split; assumption.
  - exists evs1. split; assumption.
Qed.

Lemma quiet_provider_request method params :
  quiet (provider_request method params).
Proof. apply quiet_call, not_send_request. Qed.

Lemma quiet_set_storage address items : quiet (set_storage address items).
Proof.
  induction items as [|[k v] items IH]; cbn [set_storage].
  - apply quiet_mret.
  - apply quiet_mbind; [apply quiet_lift|]. intros key.
    apply quiet_mbind; [apply quiet_lift|]. intros value.
    apply quiet_mbind; [apply quiet_provider_request|]. intros _. exact IH.
Qed.

Lemma quiet_set_accounts items : quiet (set_accounts items).
Proof.
  induction items as [|[address acc] items IH]; cbn [set_accounts].
  - apply quiet_mret.
  - repeat (apply quiet_mbind; [apply quiet_provider_request|]; intros _).
    apply quiet_mbind; [apply quiet_set_storage|]. intros _. exact IH.
Qed.

Lemma quiet_set_pre_state data : quiet (set_pre_state data).
Proof. apply quiet_set_accounts. Qed.

Lemma quiet_connect_anvil : quiet connect_anvil.
Proof.
  unfold connect_anvil. apply quiet_mbind.
  - apply quiet_call. intros [raw Hraw]. discriminate.
  - intros [|]; cbn [negb]; [apply quiet_mret | apply quiet_mraise].
Qed.

Lemma quiet_set_block data : quiet (set_block data).
Proof.
  unfold set_block. apply quiet_mbind; [apply quiet_lift|]. intros b.
  apply quiet_mbind.
  - destruct (transactions b) as [|tx txs]; [apply quiet_mret|].
    destruct (chain_id tx); [apply quiet_provider_request | apply quiet_mret].
  - intros _.
    repeat (apply quiet_mbind; [apply quiet_provider_request|]; intros _).
    apply quiet_provider_request.
Qed.

Lemma quiet_seeding test : quiet (seeding test).
Proof.
  unfold seeding.
  apply quiet_mbind; [apply quiet_connect_anvil|]. intros _.
  apply quiet_mbind; [apply quiet_set_pre_state|]. intros _.
  apply quiet_set_block.
Qed.

Lemma quiet_AnvilHandler_init data : quiet (AnvilHandler_init data).
Proof.
  unfold AnvilHandler_init. apply quiet_mtry.
  - apply quiet_mbind; [apply quiet_lift|]. intros b.
    apply quiet_mbind; intros;
      apply quiet_emit; intros [raw Hraw]; discriminate.
  - intros e. apply quiet_mraise.
Qed.

(** ** The replay loop *)

(** One turn of the loop, with the two calls to the node laid open. *)
Lemma send_all_cons (tx : transaction) (rest : list transaction)
  (acc : list string) (w : world) :
  send_all (tx :: rest) acc w
  = match send_raw_transaction (encode tx) (the_node w) with
    | (inl e, n) => (inl e, logged w n [SendRaw (encode tx)])
    | (inr h, n) =>
        let tx_hash := HexBytes_hex h in
        match wait_for_transaction_receipt tx_hash n with
        | (inl e, n') =>
            (inl e, logged w n' [SendRaw (encode tx); WaitReceipt tx_hash])
        | (inr _, n') =>
            send_all rest (acc ++ [tx_hash])
                     (logged w n' (exchange (tx, tx_hash)))
        end
    end.
Proof.
  cbn [send_all]. unfold mbind at 1. unfold send_transaction.
  unfold mbind at 1. unfold call at 1.
  destruct (send_raw_transaction (encode tx) (the_node w)) as [[e|h] n];
    [reflexivity|].
  cbn [mret]. unfold mbind at 1. unfold wait_receipt.
  unfold mbind at 1. unfold call at 1. cbn [the_node log].
  destruct (wait_for_transaction_receipt (HexBytes_hex h) n) as [[e|[]] n'];
    unfold logged; rewrite <- app_assoc; [reflexivity|].
  unfold emit. cbn [the_node log exchange fst snd].
  rewrite <- app_assoc. reflexivity.
Qed.

(** What a run of the loop leaves in the log: the exchanges of the
    transactions it completed, in the order of the list, and after them at
    most the unfinished exchange of the transaction it failed at. *)
Lemma send_all_trace (txs : list transaction) :
  forall (acc : list string) (w : world),
  exists (hs : list string) (tail : list event),
    log (snd (send_all txs acc w))
    = (log w ++ flat_map exchange (combine txs hs) ++ tail)%list
    /\ (List.length hs <= List.length txs)%nat
    /\ match fst (send_all txs acc w) with
       | inr recorded =>
           recorded = (acc ++ hs)%list
           /\ List.length hs = List.length txs /\ tail = []
       | inl _ =>
           exists tx,
             nth_error txs (List.length hs) = Some tx
             /\ (tail = [SendRaw (encode tx)]
                 \/ exists h, tail = [SendRaw (encode tx); WaitReceipt h])
       end.
Proof.
  induction txs as [|tx rest IH]; intros acc w.
  - exists [], []. cbn. rewrite !app_nil_r. auto.
  - rewrite send_all_cons.
    destruct (send_raw_transaction (encode tx) (the_node w)) as [[e|h] n].
    + exists [], [SendRaw (encode tx)]. cbn.
      split; [reflexivity|]. split; [lia|].
      exists tx. split; [reflexivity|]. left. reflexivity.
    + cbv zeta.
      destruct (wait_for_transaction_receipt (HexBytes_hex h) n)
        as [[e|u] n'].
      * exists [], [SendRaw (encode tx); WaitReceipt (HexBytes_hex h)]. cbn.
        split; [reflexivity|]. split; [lia|].
        exists tx. split; [reflexivity|]. right.
        exists (HexBytes_hex h). reflexivity.
      * destruct (IH (acc ++ [HexBytes_hex h])%list
                    (logged w n' (exchange (tx, HexBytes_hex h))))
          as (hs & tail & Hlog & Hlen & Hres).
        exists (HexBytes_hex h :: hs), tail.
        split; [|split].
        -- rewrite Hlog. cbn [logged log combine flat_map].
           rewrite <- !app_assoc. reflexivity.
        -- cbn [List.length]. lia.
        -- destruct (fst (send_all rest _ _)) as [e|recorded].
           ++ cbn [List.length nth_error]. exact Hres.
           ++ destruct Hres as (-> & Hl & ->).
              rewrite <- app_assoc. cbn [List.length app]. auto.
Qed.

(** The same run with the node in it: the hashes are those the node
    returned, each waited for before the next submission. *)
Lemma send_all_run (txs : list transaction) :
  forall (acc : list string) (w : world),
  exists (hs : list string) (tail : list event) (mid : node),
    log (snd (send_all txs acc w))
    = (log w ++ flat_map exchange (combine txs hs) ++ tail)%list
    /\ (List.length hs <= List.length txs)%nat
    /\ confirmed (the_node w) (firstn (List.length hs) txs) hs mid
    /\ match fst (send_all txs acc w) with
       | inr recorded =>
           recorded = (acc ++ hs)%list
           /\ List.length hs = List.length txs /\ tail = []
           /\ the_node (snd (send_all txs acc w)) = mid
       | inl e =>
           exists tx,
             nth_error txs (List.length hs) = Some tx
             /\ stops_at mid tx e tail
       end.
Proof.
  induction txs as [|tx rest IH]; intros acc w.
  - exists [], [], (the_node w). cbn. rewrite !app_nil_r.
    split; [reflexivity|]. split; [lia|]. split; [constructor|]. auto.
  - rewrite send_all_cons.
    destruct (send_raw_transaction (encode tx) (the_node w))
      as [[e|h] n] eqn:Esend.
    + exists [], [SendRaw (encode tx)], (the_node w). cbn.
      split; [reflexivity|]. split; [lia|]. split; [constructor|].
      exists tx. split; [reflexivity|]. left. exists n.
      split; [exact Esend | reflexivity].
    + cbv zeta.
      destruct (wait_for_transaction_receipt (HexBytes_hex h) n)
        as [[e|u] n'] eqn:Ewait.
      * exists [], [SendRaw (encode tx); WaitReceipt (HexBytes_hex h)],
          (the_node w). cbn.
        split; [reflexivity|]. split; [lia|]. split; [constructor|].
        exists tx. split; [reflexivity|]. right. exists h, n, n'.
        split; [exact Esend|]. split; [exact Ewait | reflexivity].
      * destruct u.
        destruct (IH (acc ++ [HexBytes_hex h])%list
                    (logged w n' (exchange (tx, HexBytes_hex h))))
          as (hs & tail & mid & Hlog & Hlen & Hconf & Hres).
        exists (HexBytes_hex h :: hs), tail, mid.
        split; [|split; [|split]].
        -- rewrite Hlog. cbn [logged log combine flat_map].
           rewrite <- !app_assoc. reflexivity.
        -- cbn [List.length]. lia.
        -- cbn [List.length firstn logged the_node] in *.
           exact (confirmed_cons (the_node w) tx h n n' _ _ _
                    Esend Ewait Hconf).
        -- destruct (fst (send_all rest _ _)) as [e|recorded].
           ++ cbn [List.length nth_error]. exact Hres.
           ++ destruct Hres as (-> & Hl & -> & Hnode).
              rewrite <- app_assoc. cbn [List.length app]. auto.
Qed.

(** C4. The replay takes the transactions one by one in the order of the
    block: the log it leaves is, for each transaction in turn, the
    submission, the wait for its receipt and the receipt, so that a
    transaction is submitted only after the receipt of the one before it.
    The hash waited for and recorded for a transaction is the one the
    node returned for its submission, and each submission is made of the
    node as the receipt before it left it; the hashes recorded are in
    the order of the submissions. A replay that fails has completed a
    first part of the list this way and stops at the next transaction,
    on the node's error for its submission or for the wait, leaving at
    most that unfinished exchange. *)
Theorem replay_in_order (b : block) (w : world) :
  exists (hs : list string) (tail : list event) (mid : node),
    log (snd (replay b w))
    = (log w ++ flat_map exchange (combine (transactions b) hs) ++ tail)%list
    /\ (List.length hs <= List.length (transactions b))%nat
    /\ confirmed (the_node w)
         (firstn (List.length hs) (transactions b)) hs mid
    /\ match fst (replay b w) with
       | inr recorded =>
           recorded = hs
           /\ List.length hs = List.length (transactions b) /\ tail = []
           /\ confirmed (the_node w) (transactions b) recorded
                (the_node (snd (replay b w)))
       | inl e =>
           (transactions b = [] /\ tail = [] /\ e = no_transaction_error)
           \/ exists tx,
                nth_error (transactions b) (List.length hs) = Some tx
                /\ stops_at mid tx e tail
                /\ (tail = [SendRaw (encode tx)]
                    \/ exists h, tail = [SendRaw (encode tx); WaitReceipt h])
       end.
Proof.
  unfold replay. destruct (transactions b) as [|tx rest] eqn:Etxs.
  - exists [], [], (the_node w). cbn. rewrite app_nil_r.
    split; [reflexivity|]. split; [lia|]. split; [constructor|]. auto.
  - cbn [List.length Nat.eqb].
    destruct (send_all_run (tx :: rest) [] w)
      as (hs & tail & mid & Hlog & Hlen & Hconf & Hres).
    exists hs, tail, mid.
    split; [exact Hlog|]. split; [exact Hlen|]. split; [exact Hconf|].
    destruct (fst (send_all (tx :: rest) [] w)) as [e|recorded].
    + right. destruct Hres as (tx0 & Hnth & Hstop).
      exists tx0. split; [exact Hnth|]. split; [exact Hstop|].
      destruct Hstop as [(n' & _ & ->)|(h & n1 & n2 & _ & _ & ->)];
        [left; reflexivity | right; eexists; reflexivity].
    + destruct Hres as (Hrec & Hl & Htail & Hnode). cbn [app] in Hrec.
      split; [exact Hrec|]. split; [exact Hl|]. split; [exact Htail|].
      rewrite Hl, firstn_all in Hconf. rewrite Hrec, Hnode. exact Hconf.
Qed.

(** ** An empty block *)

Lemma replay_empty (b : block) (w : world) :
  transactions b = [] -> replay b w = (inl no_transaction_error, w).
Proof. intros Htxs. unfold replay. rewrite Htxs. reflexivity. Qed.

Lemma main_body_empty (test : test_data) (b : block) (w : world) :
  get_block test = inr b -> transactions b = [] ->
  main_body test w
  = mbind (seeding test) (fun _ => mraise no_transaction_error) w.
Proof.
  intros Hblock Htxs. unfold main_body, seeding, mbind.
  destruct (connect_anvil w) as [[e|u1] w1]; [reflexivity|].
  destruct (set_pre_state test w1) as [[e|u2] w2]; [reflexivity|].
  destruct (set_block test w2) as [[e|u3] w3]; [reflexivity|].
  unfold lift. rewrite Hblock, (replay_empty b w3 Htxs). reflexivity.
Qed.

Lemma AnvilHandler_init_launches (test : test_data) (b : block) (w : world) :
  get_block test = inr b ->
  AnvilHandler_init test w
  = (inr tt,
     logged w (the_node w)
       [Popen [Lit "anvil --timestamp "; FInt (timestamp (block_header b));
               Lit " --hardfork cancun"];
        Sleep 1]).
Proof.
  intros Hblock. unfold AnvilHandler_init, mtry, mbind, lift, emit, logged.
  rewrite Hblock. cbn [the_node log]. rewrite <- app_assoc. reflexivity.
Qed.

Lemma main_empty (test : test_data) (b : block) (w : world) :
  Loader.get_test_file = inr test ->
  get_block test = inr b -> transactions b = [] ->
  main w
  = let (r, w2) := seeding test (snd (AnvilHandler_init test w)) in
    (inl match r with
         | inl e => e
         | inr _ => no_transaction_error
         end,
     logged w2 (the_node w2) [Terminate]).
Proof.
  intros Hload Hblock Htxs. unfold main.
  unfold mbind at 1. unfold lift at 1. rewrite Hload.
  unfold mbind at 1. rewrite (AnvilHandler_init_launches test b w Hblock).
  cbn [snd]. unfold mbind at 1. unfold mtry.
  rewrite (main_body_empty test b _ Hblock Htxs). unfold mbind at 1.
  destruct (seeding test _) as [[e|u] w2]; reflexivity.
Qed.

(** C5. A block decoded with no transaction is not replayed: the replay
    raises the [ValueError] "Could not find transaction in test data" and
    leaves the node and the log as they were. [main] then fails, and
    nothing it has put in the log is the submission of a transaction; its
    error is that [ValueError] whenever the seeding before the replay went
    through. *)
Theorem empty_block_rejected (test : test_data) (b : block) (w : world) :
  Loader.get_test_file = inr test ->
  get_block test = inr b ->
  transactions b = [] ->
  replay b w = (inl no_transaction_error, w)
  /\ (exists e, fst (main w) = inl e)
  /\ (exists evs,
        log (snd (main w)) = (log w ++ evs)%list
        /\ Forall (fun ev => ~ is_send ev) evs)
  /\ (fst (seeding test (snd (AnvilHandler_init test w))) = inr tt ->
      fst (main w) = inl no_transaction_error).
Proof.
  intros Hload Hblock Htxs.
  split; [exact (replay_empty b w Htxs)|].
  rewrite (main_empty test b w Hload Hblock Htxs).
  destruct (quiet_AnvilHandler_init test w) as (evs1 & Hlog1 & Hq1).
  destruct (quiet_seeding test (snd (AnvilHandler_init test w)))
    as (evs2 & Hlog2 & Hq2).
  destruct (seeding test (snd (AnvilHandler_init test w))) as [r w2].
  cbn [fst snd] in *.
  split; [eexists; reflexivity|]. split.
  - exists (evs1 ++ evs2 ++ [Terminate])%list. split.
    + unfold logged. cbn [log]. rewrite Hlog2, Hlog1, <- !app_assoc.
      reflexivity.
    + repeat (apply Forall_app; split); try assumption.
      constructor; [|constructor]. intros [raw Hraw]. discriminate.
  - intros ->. reflexivity.
Qed.

(** ** Seeding the storage *)

Lemma mbind_inr {A B} (c : M A) (k : A -> M B) (w : world) (b : B) :
  fst (mbind c k w) = inr b ->
  exists a w1, c w = (inr a, w1) /\ mbind c k w = k a w1.
Proof.
  unfold mbind. destruct (c w) as [[e|a] w1]; [discriminate|].
  intros _. exists a, w1. split; reflexivity.
Qed.

Lemma slot_word_inr (s word : string) :
  slot_word s = inr word ->
  exists n, Py.int16 s = Some n /\ word = "0x" ++ format_064x n.
Proof.
  unfold slot_word, Exn.int16. destruct (Py.int16 s) as [n|]; [|discriminate].
  cbn. intros [= <-]. exists n. split; reflexivity.
Qed.

(** The requests a successful [set_storage] has made. *)
Lemma set_storage_requests (address : string) (items : list (string * string)) :
  forall w,
    fst (set_storage address items w) = inr tt ->
    exists evs,
      log (snd (set_storage address items w)) = (log w ++ evs)%list
      /\ forall k v, In (k, v) items ->
           exists nk nv,
             Py.int16 k = Some nk /\ Py.int16 v = Some nv
             /\ In (set_storage_request address nk nv) evs.
Proof.
  induction items as [|[k0 v0] items IH]; intros w Hok.
  - exists []. cbn. rewrite app_nil_r. split; [reflexivity|]. intros k v [].
  - cbn [set_storage] in *.
    destruct (mbind_inr _ _ _ _ Hok) as (key & w1 & Hkey & E1).
    rewrite E1 in *. clear E1.
    unfold lift in Hkey. injection Hkey as Hkey <-.
    destruct (mbind_inr _ _ _ _ Hok) as (value & w2 & Hvalue & E2).
    rewrite E2 in *. clear E2.
    unfold lift in Hvalue. injection Hvalue as Hvalue <-.
    destruct (mbind_inr _ _ _ _ Hok) as (u & w3 & Hreq & E3).
    rewrite E3 in *. clear E3.
    destruct (slot_word_inr _ _ Hkey) as (nk0 & Hnk0 & ->).
    destruct (slot_word_inr _ _ Hvalue) as (nv0 & Hnv0 & ->).
    assert (Hlog3 : log w3 = (log w ++ [set_storage_request address nk0 nv0])%list).
    { unfold provider_request, call in Hreq.
      destruct (make_request _ _ (the_node w)) as [r n].
      injection Hreq as _ <-. reflexivity. }
    destruct (IH w3 Hok) as (evs & Hlog & Hin).
    exists (set_storage_request address nk0 nv0 :: evs). split.
    + rewrite Hlog, Hlog3, <- app_assoc. reflexivity.
    + intros k v [[= <- <-]|Hrest].
      * exists nk0, nv0. split; [exact Hnk0|]. split; [exact Hnv0|].
        left. reflexivity.
      * destruct (Hin k v Hrest) as (nk & nv & Hnk & Hnv & Hev).
        exists nk, nv. split; [exact Hnk|]. split; [exact Hnv|].
        right. exact Hev.
Qed.

Lemma set_accounts_requests (items : list (string * account)) :
  forall w,
    fst (set_accounts items w) = inr tt ->
    exists evs,
      log (snd (set_accounts items w)) = (log w ++ evs)%list
      /\ forall address acc k v,
           In (address, acc) items -> In (k, v) (storage acc) ->
           exists nk nv,
             Py.int16 k = Some nk /\ Py.int16 v = Some nv
             /\ In (set_storage_request address nk nv) evs.
Proof.
  induction items as [|[a0 acc0] items IH]; intros w Hok.
  - exists []. cbn. rewrite app_nil_r. split; [reflexivity|].
    intros address acc k v [].
  - cbn [set_accounts] in *.
    destruct (mbind_inr _ _ _ _ Hok) as (u1 & w1 & Hr1 & E1).
    rewrite E1 in *. clear E1.
    destruct (mbind_inr _ _ _ _ Hok) as (u2 & w2 & Hr2 & E2).
    rewrite E2 in *. clear E2.
    destruct (mbind_inr _ _ _ _ Hok) as (u3 & w3 & Hr3 & E3).
    rewrite E3 in *. clear E3.
    destruct (mbind_inr _ _ _ _ Hok) as (u4 & w4 & Hst & E4).
    rewrite E4 in *. clear E4.
    destruct (quiet_provider_request "anvil_setCode"
                [PStr a0; PStr (code acc0)] w) as (evs1 & Hlog1 & _).
    destruct (quiet_provider_request "anvil_setBalance"
                [PStr a0; PStr (balance acc0)] w1) as (evs2 & Hlog2 & _).
    destruct (quiet_provider_request "anvil_setNonce"
                [PStr a0; PStr (nonce acc0)] w2) as (evs3 & Hlog3 & _).
    rewrite Hr1 in Hlog1. rewrite Hr2 in Hlog2. rewrite Hr3 in Hlog3.
    cbn [snd] in Hlog1, Hlog2, Hlog3.
    destruct (set_storage_requests a0 (storage acc0) w3) as (evs4 & Hlog4 & Hin4).
    { rewrite Hst. destruct u4. reflexivity. }
    rewrite Hst in Hlog4. cbn [snd] in Hlog4.
    destruct (IH w4 Hok) as (evs5 & Hlog5 & Hin5).
    exists (evs1 ++ evs2 ++ evs3 ++ evs4 ++ evs5)%list. split.
    + rewrite Hlog5, Hlog4, Hlog3, Hlog2, Hlog1, <- !app_assoc. reflexivity.
    + intros address acc k v [[= <- <-]|Hrest] Hkv.
      * destruct (Hin4 k v Hkv) as (nk & nv & Hnk & Hnv & Hev).
        exists nk, nv. split; [exact Hnk|]. split; [exact Hnv|].
        rewrite !in_app_iff. auto.
      * destruct (Hin5 address acc k v Hrest Hkv) as (nk & nv & Hnk & Hnv & Hev).
        exists nk, nv. split; [exact Hnk|]. split; [exact Hnv|].
        rewrite !in_app_iff. auto.
Qed.

(** C6. A [set_pre_state] that goes through has, for every storage entry
    of every account of [pre], asked the node to set that slot, with the
    key and the value each written as [0x] and the number's [064x] form.
    For a number of 256 bits this form is the 32-byte word: sixty-four
    lower-case hexadecimal digits that denote the number, most significant
    first, whatever zeros the vector's string led with; strings of the
    same number give the same word. *)
Theorem storage_seeded_as_words (data : test_data) (w : world) :
  fst (set_pre_state data w) = inr tt ->
  exists evs,
    log (snd (set_pre_state data w)) = (log w ++ evs)%list
    /\ forall address acc k v,
         In (address, acc) (pre data) -> In (k, v) (storage acc) ->
         exists nk nv,
           Py.int16 k = Some nk /\ Py.int16 v = Some nv
           /\ In (set_storage_request address nk nv) evs
           /\ (0 <= nk < 2 ^ 256 -> is_word32 nk ("0x" ++ format_064x nk))
           /\ (0 <= nv < 2 ^ 256 -> is_word32 nv ("0x" ++ format_064x nv))
           /\ (forall k', Py.int16 k' = Some nk -> slot_word k' = slot_word k)
           /\ (forall v', Py.int16 v' = Some nv -> slot_word v' = slot_word v).
Proof.
  intros Hok. unfold set_pre_state in *.
  destruct (set_accounts_requests (pre data) w Hok) as (evs & Hlog & Hin).
  exists evs. split; [exact Hlog|].
  intros address acc k v Hacc Hkv.
  destruct (Hin address acc k v Hacc Hkv) as (nk & nv & Hnk & Hnv & Hev).
  exists nk, nv.
  split; [exact Hnk|]. split; [exact Hnv|]. split; [exact Hev|].
  split; [apply format_064x_word32|]. split; [apply format_064x_word32|].
  split; intros s Hs; unfold slot_word, Exn.int16; rewrite Hs;
    [rewrite Hnk | rewrite Hnv]; reflexivity.
Qed.

End WithNode.

(** ** The theorems at a concrete node *)

Import Sample.

(** A block of two transactions, replayed against the quiet node. *)
Example replay_two :
  @replay libs quiet_node
    {| block_header :=
         {| timestamp := 1000; coinbase := [xba]; base_fee_per_gas := 10;
            gas_limit := 30000000 |};
       transactions := [{| chain_id := Some 1; encode := [x01] |};
                        {| chain_id := None; encode := [x02] |}] |}
    start
  = (inr ["0x01"; "0x02"],
     logged start tt
       [SendRaw [x01]; WaitReceipt "0x01"; GotReceipt "0x01";
        SendRaw [x02]; WaitReceipt "0x02"; GotReceipt "0x02"]).
Proof. reflexivity. Qed.

Lemma empty_block_rejected_witness :
  fst (@main libs (corpus_of "sub" "" files) quiet_node start)
  = inl no_transaction_error.
Proof.
  apply (proj2 (proj2 (proj2
           (@empty_block_rejected libs (corpus_of "sub" "" files) quiet_node
              (vector "0x0" "0x")
              {| block_header :=
                   {| timestamp := 1000; coinbase := [xba];
                      base_fee_per_gas := 10; gas_limit := 30000000 |};
                 transactions := [] |}
              start eq_refl eq_refl eq_refl)))).
  vm_compute. reflexivity.
Defined.

Lemma storage_seeded_as_words_witness :
  exists evs,
    log (snd (@set_pre_state quiet_node (vector "0x0" "0x0102") start))
    = (log start ++ evs)%list
    /\ In (set_storage_request sender 1 2) evs
    /\ is_word32 1 ("0x" ++ format_064x 1)
    /\ is_word32 2 ("0x" ++ format_064x 2).
Proof.
  destruct (@storage_seeded_as_words quiet_node (vector "0x0" "0x0102") start
              eq_refl) as (evs & Hlog & Hin).
  exists evs. split; [exact Hlog|].
  destruct (Hin sender funded "0x01" "0x02" (or_introl eq_refl)
              (or_introl eq_refl))
    as (nk & nv & Hnk & Hnv & Hev & Hwk & Hwv & _).
  vm_compute in Hnk, Hnv.
  injection Hnk as <-. injection Hnv as <-.
  split; [exact Hev|]. split; [apply Hwk | apply Hwv]; lia.
Defined.

End PipelineFacts.

(* ------------------------------------------------------------------ *)
(** * More on the vector loader *)

Module LoaderMore.
Import Py Vocabulary PyFacts LoaderFacts.

Section WithCorpus.
Context `{Corpus}.

Lemma filter_nil_no_match (names : list string) :
  filter Loader.selected names = [] -> no_match names.
Proof.
  induction names as [|a l IH]; intros Hf; [constructor|].
  cbn [filter] in Hf. destruct (Loader.selected a) eqn:Ea; [discriminate|].
  constructor; [apply not_matching_by_test, Ea | apply IH, Hf].
Qed.

Lemma filter_single_only_match (names : list string) (f : string) :
  filter Loader.selected names = [f] -> only_match names f.
Proof.
  induction names as [|a l IH]; intros Hf; [discriminate|].
  cbn [filter] in Hf. destruct (Loader.selected a) eqn:Ea.
  - injection Hf as -> Hl. exists [], l.
    split; [reflexivity|]. split; [apply matching_by_test, Ea|].
    split; [constructor | apply filter_nil_no_match, Hl].
  - destruct (IH Hf) as (l1 & l2 & -> & Hm & H1 & H2).
    exists (a :: l1), l2. split; [reflexivity|]. split; [exact Hm|].
    split; [|exact H2].
    constructor; [apply not_matching_by_test, Ea | exact H1].
Qed.

(** X1. [get_test_file] returns a vector only when the listing has
    exactly one matching file name: then that file was read and the vector
    is what [json.loads] made of its text. *)
Theorem load_success_unique (v : test_data) :
  Loader.get_test_file = inr v ->
  exists names f text,
    os_listdir = inr names
    /\ only_match names f
    /\ read_text f = inr text
    /\ json_loads text = inr v.
Proof.
  unfold Loader.get_test_file.
  destruct os_listdir as [e|names]; [discriminate|]. cbn [Exn.bind].
  destruct (filter Loader.selected names) as [|a [|b l]] eqn:Ef.
  - cbn [List.length Nat.eqb]. destruct (255 <? _)%nat; discriminate.
  - cbn [List.length Nat.eqb Nat.ltb Nat.leb getitem nth_error Exn.bind ret].
    destruct (read_text a) as [e|text] eqn:Er; [discriminate|].
    cbn [Exn.bind]. intros Hv. exists names, a, text.
    split; [reflexivity|]. split; [apply filter_single_only_match, Ef|].
    split; [exact Er | exact Hv].
  - cbn [List.length Nat.eqb Nat.ltb Nat.leb].
    destruct (String.eqb _ _); discriminate.
Qed.

End WithCorpus.

(** ** The order of the listing *)

Lemma Permutation_filter_selected `{Corpus} (l1 l2 : list string) :
  Permutation l1 l2 ->
  Permutation (filter Loader.selected l1) (filter Loader.selected l2).
Proof.
  induction 1 as [|x l l' _ IH|x y l|l l' l'' _ IH1 _ IH2]; cbn [filter].
  - constructor.
  - destruct (Loader.selected x); [constructor|]; exact IH.
  - destruct (Loader.selected x), (Loader.selected y);
      try apply Permutation_refl. apply perm_swap.
  - eapply Permutation_trans; eassumption.
Qed.

(** X2. The order in which the system lists the directory does not
    matter: on two listings with the same names [get_test_file] gives the
    same vector or the same error. *)
Theorem load_order_independent (c : Corpus) (l1 l2 : list string) :
  Permutation l1 l2 ->
  @Loader.get_test_file (with_listing c l1)
  = @Loader.get_test_file (with_listing c l2).
Proof.
  intros Hperm. unfold Loader.get_test_file.
  cbn [os_listdir with_listing Exn.bind].
  change (@Loader.selected (with_listing c l1)) with (@Loader.selected c).
  change (@Loader.selected (with_listing c l2)) with (@Loader.selected c).
  pose proof (Permutation_filter_selected l1 l2 Hperm) as Hf.
  destruct (filter Loader.selected l1) as [|a [|b l]].
  - apply Permutation_nil in Hf. rewrite Hf. reflexivity.
  - apply Permutation_length_1_inv in Hf. rewrite Hf. reflexivity.
  - pose proof (Permutation_length Hf) as Hlen.
    destruct (filter Loader.selected l2) as [|a' [|b' l']];
      try discriminate Hlen.
    reflexivity.
Qed.

Import Sample.

Lemma load_success_unique_witness :
  exists names f text,
    @os_listdir (corpus_of "sub" "" files) = inr names
    /\ @only_match (corpus_of "sub" "" files) names f
    /\ @read_text (corpus_of "sub" "" files) f = inr text
    /\ @json_loads (corpus_of "sub" "" files) text = inr (vector "0x0" "0x").
Proof.
  apply (@load_success_unique (corpus_of "sub" "" files) (vector "0x0" "0x")).
  vm_compute. reflexivity.
Defined.

Lemma load_order_independent_witness :
  @Loader.get_test_file
     (with_listing (corpus_of "sub" "" files)
        ["stExample_add_d0g0v0_Cancun.json"; "stExample_sub_d0g0v0_Cancun.json"])
  = @Loader.get_test_file
      (with_listing (corpus_of "sub" "" files)
         ["stExample_sub_d0g0v0_Cancun.json"; "stExample_add_d0g0v0_Cancun.json"]).
Proof.
  apply (load_order_independent (corpus_of "sub" "" files)).
  apply perm_swap.
Defined.

End LoaderMore.

(* ------------------------------------------------------------------ *)
(** * More on the post-state verifier *)

Module VerifierMore.
Import Py Vocabulary PyFacts VerifierFacts.

Section WithLibs.
Context `{Libs}.
Variable w3 : eth.

(** ** Fields that cannot be compared *)

Ltac unpack_breaks Hbr :=
  destruct Hbr as [Hlive|((actual & Hlive) & Hexp & ->)];
  cbn [fst snd live expected parse_error] in *.

Lemma assert_balance_breaks (address : string) (acc : account) (cause : exn) :
  breaks w3 address (Balance, balance acc) cause ->
  Verifier.assert_balance w3 address acc = inl cause.
Proof.
  intros Hbr. unpack_breaks Hbr; unfold Verifier.assert_balance, Exn.int16;
    destruct (get_balance w3 address) as [e|n]; try discriminate.
  - cbn in Hlive. injection Hlive as <-. reflexivity.
  - destruct (Py.int16 (balance acc)); [discriminate|]. reflexivity.
Qed.

Lemma assert_nonce_breaks (address : string) (acc : account) (cause : exn) :
  breaks w3 address (Nonce, nonce acc) cause ->
  Verifier.assert_nonce w3 address acc = inl cause.
Proof.
  intros Hbr. unpack_breaks Hbr; unfold Verifier.assert_nonce, Exn.int16;
    destruct (get_transaction_count w3 address) as [e|n]; try discriminate.
  - cbn in Hlive. injection Hlive as <-. reflexivity.
  - destruct (Py.int16 (nonce acc)); [discriminate|]. reflexivity.
Qed.

Lemma assert_code_breaks (address : string) (acc : account) (cause : exn) :
  breaks w3 address (Code, code acc) cause ->
  Verifier.assert_code w3 address acc = inl cause.
Proof.
  intros Hbr. unpack_breaks Hbr;
    unfold Verifier.assert_code, Exn.bytes_fromhex;
    destruct (get_code w3 address) as [e|b]; try discriminate.
  - cbn in Hlive. injection Hlive as <-. reflexivity.
  - destruct (Py.bytes_fromhex _); [discriminate|]. reflexivity.
Qed.

Lemma assert_slot_breaks (address k v : string) (cause : exn) :
  breaks w3 address (Slot k, v) cause ->
  Verifier.assert_slot w3 address k v = inl cause.
Proof.
  intros Hbr. unpack_breaks Hbr; unfold Verifier.assert_slot, Exn.int16;
    destruct (get_storage_at w3 address k) as [e|raw]; try discriminate.
  - cbn in Hlive. injection Hlive as <-. reflexivity.
  - destruct (Py.int16 v); [discriminate|]. reflexivity.
Qed.

Lemma assert_storage_breaks (address : string)
  (before : list (string * string)) k v after (cause : exn) :
  Forall (agrees w3 address) (map slot_of before) ->
  breaks w3 address (Slot k, v) cause ->
  Verifier.assert_storage w3 address (before ++ (k, v) :: after) = inl cause.
Proof.
  induction before as [|[k0 v0] before IH]; intros Hall Hbr.
  - cbn [app Verifier.assert_storage].
    rewrite (assert_slot_breaks address k v _ Hbr). reflexivity.
  - inversion Hall as [|? ? Hkv Hrest]; subst.
    cbn [app Verifier.assert_storage].
    rewrite (assert_slot_agrees w3 address k0 v0 Hkv). cbn [Exn.bind].
    apply IH; assumption.
Qed.

Lemma check_account_breaks (address : string) (acc : account) (cause : exn) :
  first_break w3 address acc cause ->
  Verifier.check_account w3 address acc
  = inl (Verifier.post_state_error address cause).
Proof.
  intros (before & [f s] & after & Hexp & Hbefore & Hbr).
  unfold expectations in Hexp. cbn [app] in Hexp.
  unfold Verifier.check_account.
  destruct before as [|b0 before].
  { cbn [app] in Hexp. injection Hexp as <- <- _.
    rewrite (assert_balance_breaks _ _ _ Hbr). reflexivity. }
  inversion Hbefore as [|? ? Hb Hbefore1]; subst.
  cbn [app] in Hexp. injection Hexp as <- Hexp.
  rewrite (assert_balance_agrees w3 _ _ Hb). cbn [Exn.bind].
  destruct before as [|b1 before].
  { cbn [app] in Hexp. injection Hexp as <- <- _.
    rewrite (assert_nonce_breaks _ _ _ Hbr). reflexivity. }
  inversion Hbefore1 as [|? ? Hn Hbefore2]; subst.
  cbn [app] in Hexp. injection Hexp as <- Hexp.
  rewrite (assert_nonce_agrees w3 _ _ Hn). cbn [Exn.bind].
  destruct before as [|b2 before].
  { cbn [app] in Hexp. injection Hexp as <- <- _.
    rewrite (assert_code_breaks _ _ _ Hbr). reflexivity. }
  inversion Hbefore2 as [|? ? Hc Hbefore3]; subst.
  cbn [app] in Hexp. injection Hexp as <- Hexp.
  rewrite (assert_code_agrees w3 _ _ Hc). cbn [Exn.bind].
  apply map_eq_app in Hexp.
  destruct Hexp as (s1 & s2 & Hst & <- & Hs2).
  destruct s2 as [|[k v] s2]; [discriminate|].
  cbn [map] in Hs2. injection Hs2 as <- <- _.
  rewrite Hst.
  rewrite (assert_storage_breaks address s1 k v s2 cause Hbefore3 Hbr).
  reflexivity.
Qed.

(** Every field agrees, differs or cannot be compared. *)
Lemma field_cases (address : string) (fs : field * string) :
  agrees w3 address fs
  \/ (exists actual wanted, differs w3 address fs actual wanted)
  \/ (exists cause, breaks w3 address fs cause).
Proof.
  destruct (live w3 address (fst fs)) as [e|actual] eqn:El.
  - right. right. exists e. left. exact El.
  - destruct (expected (fst fs) (snd fs)) as [wanted|] eqn:Ee.
    + destruct (value_eq_dec actual wanted) as [->|Hne].
      * left. exists wanted. split; assumption.
      * right. left. exists actual, wanted. split; [|split]; assumption.
    + right. right. exists (parse_error (fst fs) (snd fs)). right.
      split; [exists actual; exact El|]. split; [exact Ee | reflexivity].
Qed.

(** What one account's check comes to. *)
Lemma check_account_cases (address : string) (acc : account) :
  (account_ok w3 address acc
   /\ Verifier.check_account w3 address acc = inr tt)
  \/ (exists f actual wanted,
        first_mismatch w3 address acc f actual wanted
        /\ Verifier.check_account w3 address acc
           = inl (state_mismatch_error address f actual wanted))
  \/ (exists cause,
        first_break w3 address acc cause
        /\ Verifier.check_account w3 address acc
           = inl (Verifier.post_state_error address cause)).
Proof.
  destruct (first_failure (agrees w3 address)
              (fun fs => (exists actual wanted,
                             differs w3 address fs actual wanted)
                         \/ (exists cause, breaks w3 address fs cause))
              (expectations acc))
    as [Hok|(before & [f s] & after & Hexp & Hbefore & Hfail)].
  - apply Forall_forall. intros fs _. apply field_cases.
  - left. split; [exact Hok | apply check_account_ok, Hok].
  - destruct Hfail as [(actual & wanted & Hdf)|(cause & Hbr)].
    + right. left. exists f, actual, wanted.
      assert (Hfirst : first_mismatch w3 address acc f actual wanted).
      { exists before, s, after.
        split; [exact Hexp | split; [exact Hbefore | exact Hdf]]. }
      split; [exact Hfirst | apply check_account_mismatch, Hfirst].
    + right. right. exists cause.
      assert (Hfirst : first_break w3 address acc cause).
      { exists before, (f, s), after.
        split; [exact Hexp | split; [exact Hbefore | exact Hbr]]. }
      split; [exact Hfirst | apply check_account_breaks, Hfirst].
Qed.

Lemma check_account_inr_ok (address : string) (acc : account) :
  Verifier.check_account w3 address acc = inr tt ->
  account_ok w3 address acc.
Proof.
  intros Hres.
  destruct (check_account_cases address acc)
    as [[Hok _]|[(f & a & x & _ & E)|(c & _ & E)]];
    [exact Hok | congruence | congruence].
Qed.

(** ** The loop over the accounts *)

(** Checking a list of entries is checking a first part of it and, if
    that raises nothing, the rest. *)
Lemma check_accounts_split (l1 l2 : list (string * account)) :
  Verifier.check_accounts w3 (l1 ++ l2)
  = Exn.bind (Verifier.check_accounts w3 l1)
             (fun _ => Verifier.check_accounts w3 l2).
Proof.
  induction l1 as [|[raw acc] l1 IH]; [reflexivity|].
  cbn [app Verifier.check_accounts].
  destruct (to_checksum_address raw) as [e|a]; [reflexivity|].
  cbn [Exn.bind].
  destruct (to_checksum_address BEACON_ROOT_ADDRESS) as [e|b]; [reflexivity|].
  cbn [Exn.bind].
  destruct (String.eqb a b); [exact IH|].
  destruct (Verifier.check_account w3 a acc) as [e|[]]; [reflexivity|].
  cbn [Exn.bind]. exact IH.
Qed.

(** X3. The verification goes through [postState] in order and stops at
    the first entry that raises: when the check of a first part of the
    entries raises, that is the outcome whatever entries follow, and they
    are not looked at; when it raises nothing, the outcome is that of
    the check of the entries that follow. *)
Theorem check_post_state_stops_at_failure (data : test_data)
  (l1 l2 : list (string * account)) :
  postState data = (l1 ++ l2)%list ->
  (forall e, Verifier.check_accounts w3 l1 = inl e ->
             Verifier.check_post_state w3 data = inl e)
  /\ (Verifier.check_accounts w3 l1 = inr tt ->
      Verifier.check_post_state w3 data = Verifier.check_accounts w3 l2).
Proof.
  intros Hsplit. unfold Verifier.check_post_state.
  rewrite Hsplit, check_accounts_split.
  split; [intros e He | intros He]; rewrite He; reflexivity.
Qed.

Lemma check_entry_raises (entry : string * account) (e : exn)
  (after : list (string * account)) :
  entry_raises w3 entry e ->
  Verifier.check_accounts w3 (entry :: after) = inl e.
Proof.
  destruct entry as [raw acc]. cbn [Verifier.check_accounts].
  intros [[Hraw|(a & Hraw & Hb)]|(a & (Hraw & b & Hb & Hne) & Hcase)];
    cbn [fst snd] in *.
  - rewrite Hraw. reflexivity.
  - rewrite Hraw. cbn [Exn.bind]. rewrite Hb. reflexivity.
  - rewrite Hraw. cbn [Exn.bind]. rewrite Hb. cbn [Exn.bind].
    apply String.eqb_neq in Hne. rewrite Hne.
    destruct Hcase as [(f & x & y & Hfirst & ->)|(cause & Hfirst & ->)].
    + rewrite (check_account_mismatch w3 _ _ _ _ _ Hfirst). reflexivity.
    + rewrite (check_account_breaks _ _ _ Hfirst). reflexivity.
Qed.

Lemma entry_ok_or_raises (entry : string * account) :
  entry_ok w3 entry \/ exists e, entry_raises w3 entry e.
Proof.
  destruct entry as [raw acc]. unfold entry_ok, entry_raises. cbn [fst snd].
  destruct (to_checksum_address raw) as [e|a] eqn:Eraw.
  { right. exists e. left. left. exact Eraw. }
  destruct (to_checksum_address BEACON_ROOT_ADDRESS) as [e|b] eqn:Eb.
  { right. exists e. left. right. exists a. split; assumption. }
  destruct (String.eqb_spec a b) as [->|Hne].
  { left. left. exists b. split; assumption. }
  assert (Hcmp : compared raw a).
  { split; [exact Eraw|]. exists b. split; [exact Eb | exact Hne]. }
  destruct (check_account_cases a acc)
    as [[Hok _]|[(f & x & y & Hfirst & _)|(cause & Hfirst & _)]].
  - left. right. exists a. split; [exact Hcmp | exact Hok].
  - right. exists (state_mismatch_error a f x y). right. exists a.
    split; [exact Hcmp|]. left. exists f, x, y. split; [exact Hfirst|reflexivity].
  - right. exists (Verifier.post_state_error a cause). right. exists a.
    split; [exact Hcmp|]. right. exists cause. split; [exact Hfirst|reflexivity].
Qed.

(** X4. An entry whose address has no checksum form stops the
    verification with the error of [to_checksum_address] itself, not
    with the "Post state does not match" error; so does, at the first
    entry, a beacon root address without checksum form. *)
Theorem check_post_state_address_error (data : test_data)
  (before : list (string * account)) raw acc after (e : exn) :
  postState data = (before ++ (raw, acc) :: after)%list ->
  Forall (entry_ok w3) before ->
  address_error raw e ->
  Verifier.check_post_state w3 data = inl e.
Proof.
  intros Hsplit Hbefore Herr. unfold Verifier.check_post_state.
  rewrite Hsplit, check_accounts_split, (check_accounts_ok w3 before Hbefore).
  cbn [Exn.bind]. apply check_entry_raises. left. exact Herr.
Qed.

(** X5. When the first field of the first failing account is one that
    cannot be compared, because the node raises when asked or because
    the vector's string for it does not parse, the verification raises
    the "Post state does not match" error for that address with the
    message of what was raised in place of a field and two values. *)
Theorem check_post_state_break (data : test_data)
  (before : list (string * account)) raw acc after address (cause : exn) :
  postState data = (before ++ (raw, acc) :: after)%list ->
  Forall (entry_ok w3) before ->
  compared raw address ->
  first_break w3 address acc cause ->
  Verifier.check_post_state w3 data
  = inl (Exn ValueError
           ([Lit "Post state does not match for "; FStr address; Lit ", got "]
              ++ exn_str cause)%list
           (Some cause)).
Proof.
  intros Hsplit Hbefore Hcmp Hfirst. unfold Verifier.check_post_state.
  rewrite Hsplit, check_accounts_split, (check_accounts_ok w3 before Hbefore).
  cbn [Exn.bind]. apply (check_entry_raises (raw, acc)).
  right. exists address. split; [exact Hcmp|]. right. exists cause.
  split; [exact Hfirst | reflexivity].
Qed.

Lemma check_accounts_cases (items : list (string * account)) :
  (Forall (entry_ok w3) items /\ Verifier.check_accounts w3 items = inr tt)
  \/ exists before entry after e,
       items = (before ++ entry :: after)%list
       /\ Forall (entry_ok w3) before
       /\ entry_raises w3 entry e
       /\ Verifier.check_accounts w3 items = inl e.
Proof.
  destruct (first_failure (entry_ok w3)
              (fun entry => exists e, entry_raises w3 entry e) items)
    as [Hok|(before & entry & after & Hsplit & Hbefore & e & He)].
  - apply Forall_forall. intros entry _. apply entry_ok_or_raises.
  - left. split; [exact Hok | apply check_accounts_ok, Hok].
  - right. exists before, entry, after, e.
    split; [exact Hsplit|]. split; [exact Hbefore|]. split; [exact He|].
    rewrite Hsplit, check_accounts_split, (check_accounts_ok w3 before Hbefore).
    cbn [Exn.bind]. apply check_entry_raises, He.
Qed.

(** X6. Whatever the vector and the node: [check_post_state] either
    returns, and then every entry was the beacon root address or a
    compared account that agrees in every field; or there is a first
    entry that is not so, and what is raised is that entry's error: the
    error of [to_checksum_address], the mismatch error of its first
    differing field, or the wrapped error of its first field that cannot
    be compared. *)
Theorem check_post_state_cases (data : test_data) :
  (Forall (entry_ok w3) (postState data)
   /\ Verifier.check_post_state w3 data = inr tt)
  \/ exists before entry after e,
       postState data = (before ++ entry :: after)%list
       /\ Forall (entry_ok w3) before
       /\ entry_raises w3 entry e
       /\ Verifier.check_post_state w3 data = inl e.
Proof.
  unfold Verifier.check_post_state. apply check_accounts_cases.
Qed.

(** X7. [check_post_state] returns exactly when every entry of
    [postState] is the beacon root address or an account whose balance,
    nonce, code and listed storage slots all agree with the node: a run
    that raises nothing has compared every field of every other account
    and found it equal. *)
Theorem check_post_state_sound (data : test_data) :
  Verifier.check_post_state w3 data = inr tt
  <-> Forall (entry_ok w3) (postState data).
Proof.
  unfold Verifier.check_post_state. split.
  - intros Hres.
    destruct (check_accounts_cases (postState data))
      as [[Hok _]|(b & en & a & e & _ & _ & _ & E)]; [exact Hok|congruence].
  - apply check_accounts_ok.
Qed.

End WithLibs.

(** ** What the node is asked *)

Section TwoNodes.
Context `{Libs}.
Variables w3 w3' : eth.

Lemma assert_storage_same_listed (address : string)
  (items : list (string * string)) :
  Forall (fun kv => get_storage_at w3 address (fst kv)
                    = get_storage_at w3' address (fst kv)) items ->
  Verifier.assert_storage w3 address items
  = Verifier.assert_storage w3' address items.
Proof.
  induction 1 as [|[k v] items Hkv _ IH]; [reflexivity|].
  cbn [fst] in Hkv. cbn [Verifier.assert_storage].
  unfold Verifier.assert_slot. rewrite Hkv, IH. reflexivity.
Qed.

Lemma check_account_same_listed (address : string) (acc : account) :
  same_listed w3 w3' address acc ->
  Verifier.check_account w3 address acc
  = Verifier.check_account w3' address acc.
Proof.
  intros (Hb & Hn & Hc & Hst).
  unfold Verifier.check_account, Verifier.assert_balance,
    Verifier.assert_nonce, Verifier.assert_code.
  rewrite Hb, Hn, Hc, (assert_storage_same_listed address _ Hst).
  reflexivity.
Qed.

(** X8. The verification asks the node only about the accounts of
    [postState] that it compares, and of their storage only about the
    slots listed: two nodes that answer alike on these get the same
    outcome, whatever else they hold (other accounts, other slots of the
    same accounts). *)
Theorem check_post_state_reads_listed (data : test_data) :
  (forall raw acc address,
      In (raw, acc) (postState data) ->
      compared raw address ->
      same_listed w3 w3' address acc) ->
  Verifier.check_post_state w3 data = Verifier.check_post_state w3' data.
Proof.
  unfold Verifier.check_post_state.
  induction (postState data) as [|[raw acc] items IH]; intros Hsame;
    [reflexivity|].
  cbn [Verifier.check_accounts].
  destruct (to_checksum_address raw) as [e|a] eqn:Eraw; [reflexivity|].
  cbn [Exn.bind].
  destruct (to_checksum_address BEACON_ROOT_ADDRESS) as [e|b] eqn:Eb;
    [reflexivity|].
  cbn [Exn.bind].
  assert (IH' : Verifier.check_accounts w3 items
                = Verifier.check_accounts w3' items).
  { apply IH. intros raw0 acc0 a0 Hin. apply Hsame. right. exact Hin. }
  destruct (String.eqb_spec a b) as [->|Hne]; [exact IH'|].
  rewrite (check_account_same_listed a acc), IH'; [reflexivity|].
  apply (Hsame raw acc a); [left; reflexivity|].
  split; [exact Eraw|]. exists b. split; [exact Eb | exact Hne].
Qed.

End TwoNodes.

(** ** The theorems at concrete vectors *)

Import Sample.

Lemma check_post_state_stops_at_failure_witness :
  @Verifier.check_post_state libs (eth_with 100)
     (vector_of [(sender, garbled); (beacon, funded); (sender, funded)])
  = inl (Verifier.post_state_error sender (invalid_literal "0xzz")).
Proof.
  apply (proj1 (@check_post_state_stops_at_failure libs (eth_with 100)
                  (vector_of [(sender, garbled); (beacon, funded);
                              (sender, funded)])
                  [(sender, garbled)] [(beacon, funded); (sender, funded)]
                  eq_refl)).
  vm_compute. reflexivity.
Defined.

Lemma check_post_state_address_error_witness :
  @Verifier.check_post_state strict_libs (eth_with 100)
     (vector_of [("0x12", funded)])
  = inl (bad_address_error "0x12").
Proof.
  apply (@check_post_state_address_error strict_libs (eth_with 100)
           (vector_of [("0x12", funded)]) [] "0x12" funded []).
  - reflexivity.
  - constructor.
  - left. reflexivity.
Defined.

Lemma check_post_state_break_witness :
  @Verifier.check_post_state libs (eth_with 100)
     (vector_of [(sender, garbled); (beacon, funded)])
  = inl (Exn ValueError
           [Lit "Post state does not match for "; FStr sender; Lit ", got ";
            Lit "invalid literal for int() with base 16: "; FRepr "0xzz"]
           (Some (invalid_literal "0xzz"))).
Proof.
  apply (@check_post_state_break libs (eth_with 100)
           (vector_of [(sender, garbled); (beacon, funded)])
           [] sender garbled [(beacon, funded)] sender
           (invalid_literal "0xzz")).
  - reflexivity.
  - constructor.
  - exact sender_compared.
  - exists [], (Balance, "0xzz"), [(Nonce, "0x0"); (Code, "0x")].
    split; [reflexivity|]. split; [constructor|].
    right. split; [exists (VInt 100); reflexivity|].
    split; reflexivity.
Defined.

Lemma check_post_state_reads_listed_witness :
  @Verifier.check_post_state libs (eth_with 100) (vector "0x0" "0x0102")
  = @Verifier.check_post_state libs eth_other_slots (vector "0x0" "0x0102").
Proof.
  apply (@check_post_state_reads_listed libs (eth_with 100) eth_other_slots
           (vector "0x0" "0x0102")).
  intros raw acc address [E|[E|[]]] Hcmp; injection E as <- <-.
  - split; [reflexivity|]. split; [reflexivity|]. split; [reflexivity|].
    constructor; [reflexivity | constructor].
  - destruct Hcmp as (Hraw & b & Hb & Hne). cbn in Hraw, Hb. congruence.
Defined.

End VerifierMore.

(* ------------------------------------------------------------------ *)
(** * More on seeding, replay and [main] *)

Module PipelineMore.
Import Py Vocabulary PyFacts Pipeline PipelineFacts.

Section WithNode.
Context `{Libs} `{Corpus} `{Node}.

(** ** Binding *)

Lemma mbind_eq_inr {A B} (c : M A) (k : A -> M B) (w w' : world) (b : B) :
  mbind c k w = (inr b, w') ->
  exists a w1, c w = (inr a, w1) /\ k a w1 = (inr b, w').
Proof.
  unfold mbind. destruct (c w) as [[e|a] w1]; [discriminate|].
  intros E. exists a, w1. split; [reflexivity | exact E].
Qed.

Lemma provider_request_run method params (w : world) :
  exists r n,
    provider_request method params w
    = (r, logged w n [Request method params]).
Proof.
  unfold provider_request, call.
  destruct (make_request method params (the_node w)) as [r n].
  exists r, n. reflexivity.
Qed.

(** ** Stages *)

Lemma staged_weaken (lo lo' : nat) (evs : list event) :
  (lo <= lo')%nat -> staged lo' evs -> staged lo evs.
Proof.
  destruct evs as [|ev rest]; [trivial|]. cbn [staged].
  intros Hle [Hlo Hrest]. split; [lia | exact Hrest].
Qed.

Lemma staged_app (lo mid : nat) (e1 e2 : list event) :
  staged lo e1 -> Forall (fun ev => (stage ev <= mid)%nat) e1 ->
  (lo <= mid)%nat -> staged mid e2 ->
  staged lo (e1 ++ e2).
Proof.
  revert lo. induction e1 as [|ev e1 IH]; intros lo Hs1 Hhi Hle Hs2.
  - cbn [app]. exact (staged_weaken lo mid e2 Hle Hs2).
  - cbn [app staged] in *. destruct Hs1 as [Hlo Hs1].
    inversion Hhi as [|? ? Hev Hhi']; subst.
    split; [exact Hlo|]. apply IH; assumption.
Qed.

Lemma staged_at_least (lo : nat) (evs : list event) :
  staged lo evs -> Forall (fun ev => (lo <= stage ev)%nat) evs.
Proof.
  revert lo. induction evs as [|ev evs IH]; intros lo Hst; [constructor|].
  cbn [staged] in Hst. destruct Hst as [Hlo Hrest].
  constructor; [exact Hlo|].
  eapply Forall_impl; [|exact (IH _ Hrest)]. cbn. intros; lia.
Qed.

Lemma within_silent {A} (lo hi : nat) (c : M A) :
  (forall w, snd (c w) = w) -> within lo hi c.
Proof.
  intros Hc w. exists []. rewrite Hc, app_nil_r.
  split; [reflexivity|]. split; constructor.
Qed.

Lemma within_mret {A} lo hi (a : A) : within lo hi (mret a).
Proof. apply within_silent. reflexivity. Qed.

Lemma within_mraise {A} lo hi (e : exn) : within lo hi (@mraise _ A e).
Proof. apply within_silent. reflexivity. Qed.

Lemma within_lift {A} lo hi (r : result A) : within lo hi (lift r).
Proof. apply within_silent. reflexivity. Qed.

Lemma within_query {A} lo hi (f : eth -> result A) : within lo hi (query f).
Proof. apply within_silent. reflexivity. Qed.

Lemma within_emit (ev : event) : within (stage ev) (stage ev) (emit ev).
Proof.
  intros w. exists [ev]. cbn. split; [reflexivity|].
  split; [split; [lia | exact I] | constructor; [lia | constructor]].
Qed.

Lemma within_call {A} (ev : event) (f : node -> result A * node) :
  within (stage ev) (stage ev) (call ev f).
Proof.
  intros w. exists [ev]. unfold call.
  destruct (f (the_node w)) as [r n]. cbn. split; [reflexivity|].
  split; [split; [lia | exact I] | constructor; [lia | constructor]].
Qed.

Lemma within_weaken {A} (lo hi lo' hi' : nat) (c : M A) :
  (lo' <= lo)%nat -> (hi <= hi')%nat -> within lo hi c -> within lo' hi' c.
Proof.
  intros Hlo Hhi Hc w. destruct (Hc w) as (evs & Hlog & Hst & Hall).
  exists evs. split; [exact Hlog|].
  split; [exact (staged_weaken _ _ _ Hlo Hst)|].
  eapply Forall_impl; [|exact Hall]. cbn. intros; lia.
Qed.

Lemma within_mbind {A B} (lo mid hi : nat) (c : M A) (k : A -> M B) :
  (lo <= mid)%nat -> (mid <= hi)%nat ->
  within lo mid c -> (forall a, within mid hi (k a)) ->
  within lo hi (mbind c k).
Proof.
  intros Hlm Hmh Hc Hk w. unfold mbind.
  destruct (Hc w) as (evs1 & Hlog1 & Hst1 & Hall1).
  destruct (c w) as [[e|a] w1]; cbn [snd] in Hlog1.
  - exists evs1. split; [exact Hlog1|]. split; [exact Hst1|].
    eapply Forall_impl; [|exact Hall1]. cbn. intros; lia.
  - destruct (Hk a w1) as (evs2 & Hlog2 & Hst2 & Hall2).
    exists (evs1 ++ evs2)%list. split; [|split].
    + rewrite Hlog2, Hlog1, app_assoc. reflexivity.
    + apply (staged_app lo mid); assumption.
    + apply Forall_app. split; [|exact Hall2].
      eapply Forall_impl; [|exact Hall1]. cbn. intros; lia.
Qed.

Lemma within_mtry {A} (lo mid hi : nat) (c : M A) (h : exn -> M A) :
  (lo <= mid)%nat -> (mid <= hi)%nat ->
  within lo mid c -> (forall e, within mid hi (h e)) ->
  within lo hi (mtry c h).
Proof.
  intros Hlm Hmh Hc Hh w. unfold mtry.
  destruct (Hc w) as (evs1 & Hlog1 & Hst1 & Hall1).
  destruct (c w) as [[e|a] w1]; cbn [snd] in Hlog1.
  - destruct (Hh e w1) as (evs2 & Hlog2 & Hst2 & Hall2).
    exists (evs1 ++ evs2)%list. split; [|split].
    + rewrite Hlog2, Hlog1, app_assoc. reflexivity.
    + apply (staged_app lo mid); assumption.
    + apply Forall_app. split; [|exact Hall2].
      eapply Forall_impl; [|exact Hall1]. cbn. intros; lia.
  - exists evs1. split; [exact Hlog1|]. split; [exact Hst1|].
    eapply Forall_impl; [|exact Hall1]. cbn. intros; lia.
Qed.

(** A piece of one stage followed by a piece of the same stage. *)
Lemma within_same {A B} (s : nat) (c : M A) (k : A -> M B) :
  within s s c -> (forall a, within s s (k a)) -> within s s (mbind c k).
Proof. apply within_mbind; lia. Qed.

Lemma within_provider_request method params :
  within 1 1 (provider_request method params).
Proof. apply (within_call (Request method params)). Qed.

Lemma within_set_storage address items : within 1 1 (set_storage address items).
Proof.
  induction items as [|[k v] items IH]; cbn [set_storage].
  - apply within_mret.
  - apply within_same; [apply within_lift|]. intros key.
    apply within_same; [apply within_lift|]. intros value.
    apply within_same; [apply within_provider_request|]. intros _. exact IH.
Qed.

Lemma within_set_accounts items : within 1 1 (set_accounts items).
Proof.
  induction items as [|[address acc] items IH]; cbn [set_accounts].
  - apply within_mret.
  - repeat (apply within_same; [apply within_provider_request|]; intros _).
    apply within_same; [apply within_set_storage|]. intros _. exact IH.
Qed.

Lemma within_connect_anvil : within 1 1 connect_anvil.
Proof.
  unfold connect_anvil. apply within_same.
  - apply (within_call IsConnected).
  - intros [|]; cbn [negb]; [apply within_mret | apply within_mraise].
Qed.

Lemma within_set_block data : within 1 1 (set_block data).
Proof.
  unfold set_block. apply within_same; [apply within_lift|]. intros b.
  apply within_same.
  - destruct (transactions b) as [|tx txs]; [apply within_mret|].
    destruct (chain_id tx); [apply within_provider_request | apply within_mret].
  - intros _.
    repeat (apply within_same; [apply within_provider_request|]; intros _).
    apply within_provider_request.
Qed.

Lemma within_send_all txs : forall acc, within 2 2 (send_all txs acc).
Proof.
  induction txs as [|tx rest IH]; intros acc; cbn [send_all].
  - apply within_mret.
  - apply within_same.
    + unfold send_transaction. apply within_same.
      * apply (within_call (SendRaw (encode tx))).
      * intros h. apply within_mret.
    + intros tx_hash. apply within_same; [|intros _; apply IH].
      unfold wait_receipt. apply within_same.
      * apply (within_call (WaitReceipt tx_hash)).
      * intros _. apply (within_emit (GotReceipt tx_hash)).
Qed.

Lemma within_replay b : within 2 2 (replay b).
Proof.
  unfold replay. destruct (List.length (transactions b) =? 0)%nat;
    [apply within_mraise | apply within_send_all].
Qed.

Lemma within_cast_run_all hs : within 3 3 (cast_run_all hs).
Proof.
  induction hs as [|h hs IH]; cbn [cast_run_all].
  - apply within_mret.
  - apply within_same; [|intros _; exact IH].
    apply (within_emit (Run [Lit "cast run "; FStr h])).
Qed.

Lemma within_main_body test : within 1 3 (main_body test).
Proof.
  unfold main_body.
  apply (within_mbind 1 1 3); [lia | lia | apply within_connect_anvil|].
  intros _.
  apply (within_mbind 1 1 3); [lia | lia | apply within_set_accounts|].
  intros _.
  apply (within_mbind 1 1 3); [lia | lia | apply within_set_block|].
  intros _.
  apply (within_mbind 1 2 3); [lia | lia | apply within_lift|].
  intros b.
  apply (within_mbind 2 2 3); [lia | lia | apply within_replay|].
  intros hs.
  apply (within_mbind 2 3 3); [lia | lia | apply within_query|].
  intros _.
  apply within_same; [apply within_cast_run_all|]. intros _.
  apply within_same; [apply within_lift|]. intros first.
  apply within_same; [|intros _; apply within_mret].
  apply (within_emit (ClipboardCopy _)).
Qed.

Lemma within_AnvilHandler_init data : within 0 0 (AnvilHandler_init data).
Proof.
  unfold AnvilHandler_init.
  apply (within_mtry 0 0 0); [lia | lia | | intros e; apply within_mraise].
  apply within_same; [apply within_lift|]. intros b.
  apply within_same; [apply (within_emit (Popen _))|]. intros _.
  apply (within_emit (Sleep 1)).
Qed.

Lemma within_main : within 0 4 main.
Proof.
  unfold main.
  apply (within_mbind 0 0 4); [lia | lia | apply within_lift|].
  intros test.
  apply (within_mbind 0 0 4); [lia | lia | apply within_AnvilHandler_init|].
  intros _.
  apply (within_mbind 0 4 4); [lia | lia | |].
  - apply (within_mtry 0 3 4); [lia | lia | |].
    + apply (within_weaken 1 3); [lia | lia | apply within_main_body].
    + intros e. apply (within_weaken 4 4); [lia | lia |].
      apply within_same; [apply (within_emit Terminate)|].
      intros _. apply within_mraise.
  - intros hs. apply within_same; [apply (within_emit HandlerWait)|].
    intros _. apply within_mret.
Qed.

Lemma staged_after (lo : nat) (l1 : list event) (ev : event)
  (rest : list event) :
  staged lo (l1 ++ ev :: rest) -> staged (stage ev) rest.
Proof.
  revert lo. induction l1 as [|x l1 IH]; intros lo Hst; cbn [app staged] in Hst.
  - exact (proj2 Hst).
  - exact (IH _ (proj2 Hst)).
Qed.

(** X9. Whatever happens, what [main] does to the outside comes in the
    order of its stages and never goes back: the launch of anvil, then
    the connection test and the seeding requests, then the submissions
    and receipts, then the [cast run] commands and the clipboard, then the
    termination or the final wait. Of two events of one run, the earlier
    is of no later stage; so no seeding request follows a submission. *)
Theorem main_log_staged (w : world) :
  exists evs,
    log (snd (main w)) = (log w ++ evs)%list
    /\ forall l1 ev1 l2 ev2 l3,
         evs = (l1 ++ ev1 :: l2 ++ ev2 :: l3)%list ->
         (stage ev1 <= stage ev2)%nat.
Proof.
  destruct (within_main w) as (evs & Hlog & Hst & _).
  exists evs. split; [exact Hlog|].
  intros l1 ev1 l2 ev2 l3 ->.
  apply staged_after, staged_at_least in Hst.
  rewrite Forall_forall in Hst. apply Hst.
  apply in_or_app. right. left. reflexivity.
Qed.

(** ** How [main] ends *)

(** X10. When the test file cannot be loaded, or the block of its vector
    cannot be decoded, [main] raises before anything is done to the
    outside: the loader's error in the first case, in the second the
    [Exception] "Could not launch anvil" raised from the error of
    [get_block]; anvil is not launched and so not terminated. *)
Theorem main_fails_before_launch (w : world) :
  (forall e, Loader.get_test_file = inl e -> main w = (inl e, w))
  /\ (forall test e,
        Loader.get_test_file = inr test ->
        get_block test = inl e ->
        main w
        = (inl (Exn Exception [Lit "Could not launch anvil"] (Some e)), w)).
Proof.
  split.
  - intros e Hload. unfold main, mbind, lift. rewrite Hload. reflexivity.
  - intros test e Hload Hblock.
    unfold main, mbind at 1, lift at 1. rewrite Hload.
    unfold mbind at 1, AnvilHandler_init, mtry, mbind at 1, lift.
    rewrite Hblock. reflexivity.
Qed.

(** X11. When the node does not answer the connection test, [main]
    raises the [Exception] "Not connected to anvil endpoint": anvil was
    launched, no request was made of it, and it is terminated. *)
Theorem main_not_connected (test : test_data) (b : block) (w : world) :
  Loader.get_test_file = inr test ->
  get_block test = inr b ->
  fst (is_connected (the_node w)) = false ->
  fst (main w)
  = inl (Exn Exception [Lit "Not connected to anvil endpoint"] None)
  /\ log (snd (main w))
     = (log w ++ launch_events b ++ [IsConnected; Terminate])%list.
Proof.
  intros Hload Hblock Hconn.
  assert (Hbody : forall w1, the_node w1 = the_node w ->
            exists n,
              main_body test w1
              = (inl (Exn Exception [Lit "Not connected to anvil endpoint"] None),
                 logged w1 n [IsConnected])).
  { intros w1 Hnode. unfold main_body, mbind, connect_anvil, mbind, call.
    rewrite Hnode. destruct (is_connected (the_node w)) as [c n].
    cbn [fst] in Hconn. subst c. exists n. reflexivity. }
  assert (Hmain : exists n,
            main w
            = (inl (Exn Exception [Lit "Not connected to anvil endpoint"] None),
               logged w n (launch_events b ++ [IsConnected; Terminate]))).
  { destruct (Hbody (logged w (the_node w) (launch_events b)) eq_refl)
      as (n & Hb).
    exists n. unfold main.
    unfold mbind at 1. unfold lift at 1. rewrite Hload.
    unfold mbind at 1. rewrite (AnvilHandler_init_launches test b w Hblock).
    unfold mbind at 1, mtry. unfold launch_events in *. rewrite Hb.
    unfold mbind, emit, mraise, logged. cbn [fst snd log the_node].
    rewrite <- !app_assoc. reflexivity. }
  destruct Hmain as (n & ->). split; reflexivity.
Qed.

(** The pieces of the report leave the node alone. *)
Lemma cast_run_all_run (hs : list string) (w : world) :
  cast_run_all hs w = (inr tt, logged w (the_node w) (map cast_run hs)).
Proof.
  revert w. induction hs as [|h hs IH]; intros w.
  - cbn. unfold logged. rewrite app_nil_r. destruct w; reflexivity.
  - cbn [cast_run_all map]. unfold mbind, emit. rewrite IH.
    unfold logged. cbn [the_node log]. rewrite <- app_assoc. reflexivity.
Qed.

Lemma replay_inr (b : block) (w w' : world) (hs : list string) :
  replay b w = (inr hs, w') ->
  transactions b <> [] /\ List.length hs = List.length (transactions b).
Proof.
  unfold replay. destruct (transactions b) as [|tx rest] eqn:Etxs;
    [discriminate|].
  cbn [List.length Nat.eqb]. intros Hrun. split; [discriminate|].
  destruct (send_all_trace (tx :: rest) [] w) as (hs' & tail & _ & _ & Hres).
  rewrite Hrun in Hres. cbn [fst app] in Hres.
  destruct Hres as (-> & Hlen & _). exact Hlen.
Qed.

(** X12. When [main] reaches its final wait, the vector was loaded and
    its block decoded with at least one transaction, one hash was
    recorded per transaction, the post-state was verified against the
    node as the run leaves it, and the log ends with one [cast run] per
    recorded hash in order, the clipboard copy of the first one's debug
    command and the wait; anvil was not terminated. *)
Theorem main_success (w w' : world) (hs : list string) :
  main w = (inr hs, w') ->
  exists test b,
    Loader.get_test_file = inr test
    /\ get_block test = inr b
    /\ transactions b <> []
    /\ List.length hs = List.length (transactions b)
    /\ Verifier.check_post_state (eth_of (the_node w')) test = inr tt
    /\ exists evs first,
         nth_error hs 0 = Some first
         /\ log w'
            = (log w ++ evs ++ map cast_run hs
                 ++ [ClipboardCopy [Lit "cast run "; FStr first; Lit " --debug"];
                     HandlerWait])%list
         /\ Forall (fun ev => (stage ev <= 2)%nat) evs.
Proof.
  intros Hmain. unfold main in Hmain.
  apply mbind_eq_inr in Hmain. destruct Hmain as (test & w0 & Hload & Hmain).
  unfold lift in Hload. injection Hload as Hload Hw0. subst w0.
  apply mbind_eq_inr in Hmain. destruct Hmain as (u & w1 & Hinit & Hmain).
  apply mbind_eq_inr in Hmain. destruct Hmain as (hs0 & w2 & Hbody & Hmain).
  apply mbind_eq_inr in Hmain. destruct Hmain as (u' & w3 & Hwait & Hmain).
  unfold mret in Hmain. injection Hmain as Hhs Hw3. subst hs0 w3.
  unfold emit in Hwait. injection Hwait as Hu' Hw'.
  assert (Hrun : main_body test w1 = (inr hs, w2)).
  { unfold mtry in Hbody. destruct (main_body test w1) as [[e|hs1] w2'].
    - unfold mbind, emit, mraise in Hbody. discriminate.
    - exact Hbody. }
  clear Hbody.
  destruct (get_block test) as [e|b] eqn:Hblock.
  { unfold AnvilHandler_init, mtry, mbind, lift in Hinit.
    rewrite Hblock in Hinit. discriminate. }
  rewrite (AnvilHandler_init_launches test b w Hblock) in Hinit.
  injection Hinit as Hu Hw1.
  unfold main_body in Hrun.
  apply mbind_eq_inr in Hrun. destruct Hrun as (u1 & v1 & Hc1 & Hrun).
  apply mbind_eq_inr in Hrun. destruct Hrun as (u2 & v2 & Hc2 & Hrun).
  apply mbind_eq_inr in Hrun. destruct Hrun as (u3 & v3 & Hc3 & Hrun).
  apply mbind_eq_inr in Hrun. destruct Hrun as (b' & v4 & Hc4 & Hrun).
  unfold lift in Hc4. rewrite Hblock in Hc4. injection Hc4 as Hb' Hv4.
  subst b' v4.
  apply mbind_eq_inr in Hrun. destruct Hrun as (hs1 & v5 & Hc5 & Hrun).
  apply mbind_eq_inr in Hrun. destruct Hrun as (u6 & v6 & Hc6 & Hrun).
  unfold query in Hc6. injection Hc6 as Hcheck Hv6. subst v6. destruct u6.
  apply mbind_eq_inr in Hrun. destruct Hrun as (u7 & v7 & Hc7 & Hrun).
  rewrite cast_run_all_run in Hc7. injection Hc7 as Hu7 Hv7.
  apply mbind_eq_inr in Hrun. destruct Hrun as (first & v8 & Hc8 & Hrun).
  unfold lift in Hc8. injection Hc8 as Hfirst Hv8. subst v8.
  apply mbind_eq_inr in Hrun. destruct Hrun as (u9 & v9 & Hc9 & Hrun).
  unfold emit in Hc9. injection Hc9 as Hu9 Hv9.
  unfold mret in Hrun. injection Hrun as Hhs1 Hw2. subst hs1.
  subst v9 v7 w2 w'. cbn [the_node log logged] in *.
  destruct (replay_inr b v3 v5 hs Hc5) as [Hne Hlen].
  exists test, b.
  split; [exact Hload|]. split; [exact Hblock|]. split; [exact Hne|].
  split; [exact Hlen|]. split; [exact Hcheck|].
  assert (Hfirst' : nth_error hs 0 = Some first).
  { unfold getitem in Hfirst. destruct (nth_error hs 0); [|discriminate].
    injection Hfirst as ->. reflexivity. }
  destruct (within_connect_anvil w1) as (e1 & Hl1 & _ & Ha1).
  rewrite Hc1 in Hl1. cbn [snd] in Hl1.
  destruct (within_set_accounts (pre test) v1) as (e2 & Hl2 & _ & Ha2).
  change (set_accounts (pre test)) with (set_pre_state test) in Hl2.
  rewrite Hc2 in Hl2. cbn [snd] in Hl2.
  destruct (within_set_block test v2) as (e3 & Hl3 & _ & Ha3).
  rewrite Hc3 in Hl3. cbn [snd] in Hl3.
  destruct (within_replay b v3) as (e4 & Hl4 & _ & Ha4).
  rewrite Hc5 in Hl4. cbn [snd] in Hl4.
  exists (launch_events b ++ e1 ++ e2 ++ e3 ++ e4)%list, first.
  split; [exact Hfirst'|]. split.
  - rewrite Hl4, Hl3, Hl2, Hl1, <- Hw1. unfold logged, launch_events.
    cbn [log]. rewrite <- !app_assoc. reflexivity.
  - repeat (apply Forall_app; split);
      try (eapply Forall_impl; [|eassumption]; cbn; intros; lia).
    repeat constructor.
Qed.

(** [main] laid open along its three ways out. *)
Lemma main_run (w : world) :
  main w
  = match Loader.get_test_file with
    | inl e => (inl e, w)
    | inr test =>
        match get_block test with
        | inl e =>
            (inl (Exn Exception [Lit "Could not launch anvil"] (Some e)), w)
        | inr b =>
            match main_body test (logged w (the_node w) (launch_events b)) with
            | (inl e, w2) => (inl e, logged w2 (the_node w2) [Terminate])
            | (inr hs, w2) => (inr hs, logged w2 (the_node w2) [HandlerWait])
            end
        end
    end.
Proof.
  unfold main. unfold mbind at 1. unfold lift at 1.
  destruct Loader.get_test_file as [e0|test]; [reflexivity|].
  unfold mbind at 1.
  destruct (get_block test) as [e0|b] eqn:Hblock.
  { unfold AnvilHandler_init, mtry, mbind at 1, lift. rewrite Hblock.
    reflexivity. }
  rewrite (AnvilHandler_init_launches test b w Hblock).
  unfold mbind at 1, mtry. unfold launch_events.
  destruct (main_body test _) as [[e1|hs] w2]; reflexivity.
Qed.

(** X13. A [main] that raises after anvil was launched has terminated
    it, as the last thing it did, and nothing before that was a
    termination or the final wait; what it raises is what its [try] block
    raised. Raising without having launched anvil, it has done nothing. *)
Theorem main_failure_terminates (w : world) (e : exn) :
  fst (main w) = inl e ->
  snd (main w) = w
  \/ exists test evs n,
       Loader.get_test_file = inr test
       /\ fst (main_body test (snd (AnvilHandler_init test w))) = inl e
       /\ snd (main w) = logged w n (evs ++ [Terminate])
       /\ Forall (fun ev => (stage ev <= 3)%nat) evs.
Proof.
  rewrite main_run.
  destruct Loader.get_test_file as [e0|test] eqn:Hload.
  { intros _. left. reflexivity. }
  destruct (get_block test) as [e0|b] eqn:Hblock.
  { intros _. left. reflexivity. }
  destruct (within_main_body test
              (logged w (the_node w) (launch_events b)))
    as (evs & Hlog & _ & Hall).
  destruct (main_body test (logged w (the_node w) (launch_events b)))
    as [[e1|hs] w2] eqn:Hbody; cbn [fst snd] in *; [|discriminate].
  intros [= ->]. right.
  exists test, (launch_events b ++ evs)%list, (the_node w2).
  split; [reflexivity|]. split; [|split].
  - rewrite (AnvilHandler_init_launches test b w Hblock). cbn [snd].
    fold (launch_events b). rewrite Hbody. reflexivity.
  - unfold logged in *. cbn [log] in *. rewrite Hlog, <- !app_assoc.
    reflexivity.
  - apply Forall_app. split; [repeat constructor | exact Hall].
Qed.

(** ** [get_block] *)


(** ** The requests of the seeding *)

Lemma runs_prefix_silent {A} (c : M A) :
  (forall w, snd (c w) = w) -> runs_prefix c [].
Proof.
  intros Hc w. exists [], []. rewrite Hc, app_nil_r.
  split; [reflexivity|]. split; [reflexivity|]. intros; reflexivity.
Qed.

Lemma runs_prefix_request method params :
  runs_prefix (provider_request method params) [Request method params].
Proof.
  intros w. destruct (provider_request_run method params w) as (r & n & ->).
  exists [Request method params], []. cbn [snd logged log].
  split; [reflexivity|]. split; [reflexivity|]. intros; reflexivity.
Qed.

Lemma runs_prefix_mbind {A B} (c : M A) (k : A -> M B)
  (f1 f2 : list event) :
  runs_prefix c f1 -> (forall a, runs_prefix (k a) f2) ->
  runs_prefix (mbind c k) (f1 ++ f2).
Proof.
  intros Hc Hk w. unfold mbind.
  destruct (Hc w) as (evs1 & rest1 & Hlog1 & Hf1 & Hdone1).
  destruct (c w) as [[e|a] w1]; cbn [fst snd] in *.
  - exists evs1, (rest1 ++ f2)%list. split; [exact Hlog1|].
    split; [rewrite Hf1, app_assoc; reflexivity | discriminate].
  - rewrite (Hdone1 a eq_refl), app_nil_r in Hf1. subst f1.
    destruct (Hk a w1) as (evs2 & rest2 & Hlog2 & Hf2 & Hdone2).
    exists (evs1 ++ evs2)%list, rest2. split; [|split].
    + rewrite Hlog2, Hlog1, app_assoc. reflexivity.
    + rewrite Hf2, app_assoc. reflexivity.
    + exact Hdone2.
Qed.

Lemma runs_prefix_ext {A} (c c' : M A) (full : list event) :
  (forall w, c w = c' w) -> runs_prefix c' full -> runs_prefix c full.
Proof.
  intros Hext Hc w. rewrite Hext. apply Hc.
Qed.

Lemma slot_word_some (s : string) (n : Z) :
  Py.int16 s = Some n -> slot_word s = inr ("0x" ++ format_064x n).
Proof.
  intros Hs. unfold slot_word, Exn.int16. rewrite Hs. reflexivity.
Qed.

(** With a key and a value that are numbers, one turn of the storage
    loop is the request and the rest of the loop. *)
Lemma set_storage_cons (address k v : string) (nk nv : Z)
  (rest : list (string * string)) (w : world) :
  Py.int16 k = Some nk -> Py.int16 v = Some nv ->
  set_storage address ((k, v) :: rest) w
  = mbind (provider_request "anvil_setStorageAt"
             [PStr address; PStr ("0x" ++ format_064x nk);
              PStr ("0x" ++ format_064x nv)])
          (fun _ => set_storage address rest) w.
Proof.
  intros Hk Hv. cbn [set_storage]. unfold mbind at 1, lift at 1.
  rewrite (slot_word_some k nk Hk). unfold mbind at 1, lift at 1.
  rewrite (slot_word_some v nv Hv). reflexivity.
Qed.

Lemma runs_prefix_set_storage (address : string)
  (items : list (string * string)) :
  forall full,
    storage_events address items = Some full ->
    runs_prefix (set_storage address items) full.
Proof.
  induction items as [|[k v] items IH]; intros full Hfull.
  - injection Hfull as <-. apply runs_prefix_silent. reflexivity.
  - cbn [storage_events] in Hfull.
    destruct (Py.int16 k) as [nk|] eqn:Hk; [|discriminate].
    destruct (Py.int16 v) as [nv|] eqn:Hv; [|discriminate].
    destruct (storage_events address items) as [evs|]; [|discriminate].
    injection Hfull as <-.
    eapply runs_prefix_ext.
    + intros w. apply (set_storage_cons address k v nk nv items w Hk Hv).
    + apply (runs_prefix_mbind _ _ [set_storage_request address nk nv] evs).
      * apply runs_prefix_request.
      * intros _. apply IH. reflexivity.
Qed.

Lemma runs_prefix_set_accounts (items : list (string * account)) :
  forall full,
    seed_events items = Some full -> runs_prefix (set_accounts items) full.
Proof.
  induction items as [|[address acc] items IH]; intros full Hfull.
  - injection Hfull as <-. apply runs_prefix_silent. reflexivity.
  - cbn [seed_events] in Hfull.
    destruct (storage_events address (storage acc)) as [s|] eqn:Hs;
      [|discriminate].
    destruct (seed_events items) as [r|]; [|discriminate].
    injection Hfull as <-. cbn [set_accounts account_requests app].
    apply (runs_prefix_mbind _ _ [_]); [apply runs_prefix_request|]. intros _.
    apply (runs_prefix_mbind _ _ [_]); [apply runs_prefix_request|]. intros _.
    apply (runs_prefix_mbind _ _ [_]); [apply runs_prefix_request|]. intros _.
    apply runs_prefix_mbind; [apply runs_prefix_set_storage, Hs|]. intros _.
    apply IH. reflexivity.
Qed.

(** X15. For a [pre] whose storage keys and values are all numbers, the
    requests of [set_pre_state] are, account after account in the order
    of [pre]: set-code, set-balance and set-nonce with the vector's
    strings as they are, then one set-storage per entry in the order of
    the entries, key and value as words. Whatever the node does, the run
    makes a first part of this list, and the whole list when it
    returns. *)
Theorem set_pre_state_in_order (data : test_data) (full : list event)
  (w : world) :
  seed_events (pre data) = Some full ->
  exists evs rest,
    log (snd (set_pre_state data w)) = (log w ++ evs)%list
    /\ full = (evs ++ rest)%list
    /\ (fst (set_pre_state data w) = inr tt -> rest = []).
Proof.
  intros Hfull.
  destruct (runs_prefix_set_accounts (pre data) full Hfull w)
    as (evs & rest & Hlog & Hf & Hdone).
  exists evs, rest. split; [exact Hlog|]. split; [exact Hf|].
  apply Hdone.
Qed.

(** X16. [set_block] decodes the block again and makes of the node, in
    this order: set-chain-id, only when the block has a first transaction
    and that one has a chain id (later transactions are not looked at);
    set-coinbase with the coinbase in hexadecimal; set-next-base-fee;
    set-gas-limit. When the block cannot be decoded it raises the error
    of [get_block] and makes no request. *)
Theorem set_block_requests (data : test_data) (w : world) :
  (forall e, get_block data = inl e -> set_block data w = (inl e, w))
  /\ (forall b,
        get_block data = inr b ->
        exists evs rest,
          log (snd (set_block data w)) = (log w ++ evs)%list
          /\ block_requests b = (evs ++ rest)%list
          /\ (fst (set_block data w) = inr tt -> rest = [])).
Proof.
  split.
  - intros e Hblock. unfold set_block, mbind at 1, lift. rewrite Hblock.
    reflexivity.
  - intros b Hblock.
    assert (Hpre : runs_prefix (set_block data) (block_requests b)).
    { eapply runs_prefix_ext.
      - intros w0. unfold set_block, mbind at 1, lift. rewrite Hblock.
        reflexivity.
      - unfold block_requests. apply runs_prefix_mbind.
        + destruct (transactions b) as [|tx txs];
            [apply runs_prefix_silent; reflexivity|].
          destruct (chain_id tx);
            [apply runs_prefix_request | apply runs_prefix_silent; reflexivity].
        + intros _.
          apply (runs_prefix_mbind _ _ [_]); [apply runs_prefix_request|].
          intros _.
          apply (runs_prefix_mbind _ _ [_]); [apply runs_prefix_request|].
          intros _. apply runs_prefix_request. }
    destruct (Hpre w) as (evs & rest & Hlog & Hf & Hdone).
    exists evs, rest. split; [exact Hlog|]. split; [exact Hf|]. apply Hdone.
Qed.

(** ** Seeding a node that accepts every request *)

Lemma logged_nothing (w : world) : logged w (the_node w) [] = w.
Proof. destruct w. unfold logged. cbn. rewrite app_nil_r. reflexivity. Qed.

Lemma logged_logged (w : world) (n n' : node) (e1 e2 : list event) :
  logged (logged w n e1) n' e2 = logged w n' (e1 ++ e2).
Proof. unfold logged. cbn. rewrite app_assoc. reflexivity. Qed.

Lemma ends_in_mbind {A B} (c : M A) (a : A) (k : A -> M B) (r : result B)
  (f1 f2 : list event) :
  ends_in c (inr a) f1 -> ends_in (k a) r f2 ->
  ends_in (mbind c k) r (f1 ++ f2).
Proof.
  intros Hc Hk w. unfold mbind. destruct (Hc w) as (n1 & ->).
  destruct (Hk (logged w n1 f1)) as (n2 & ->).
  exists n2. rewrite logged_logged. reflexivity.
Qed.

Lemma ends_in_ext {A} (c c' : M A) (r : result A) (full : list event) :
  (forall w, c w = c' w) -> ends_in c' r full -> ends_in c r full.
Proof. intros Hext Hc w. rewrite Hext. apply Hc. Qed.

Lemma ends_in_silent {A} (c : M A) (r : result A) :
  (forall w, c w = (r, w)) -> ends_in c r [].
Proof.
  intros Hc w. exists (the_node w). rewrite Hc, logged_nothing. reflexivity.
Qed.

Section Accepting.
Hypothesis Haccept : accepting.

Lemma ends_in_request method params :
  ends_in (provider_request method params) (inr tt) [Request method params].
Proof.
  intros w. unfold provider_request, call.
  pose proof (Haccept method params (the_node w)) as Hr.
  destruct (make_request method params (the_node w)) as [r n].
  cbn [fst] in Hr. subst r. exists n. reflexivity.
Qed.

Lemma ends_in_set_storage (address : string)
  (items : list (string * string)) :
  forall full,
    storage_events address items = Some full ->
    ends_in (set_storage address items) (inr tt) full.
Proof.
  induction items as [|[k v] items IH]; intros full Hfull.
  - injection Hfull as <-. apply ends_in_silent. reflexivity.
  - cbn [storage_events] in Hfull.
    destruct (Py.int16 k) as [nk|] eqn:Hk; [|discriminate].
    destruct (Py.int16 v) as [nv|] eqn:Hv; [|discriminate].
    destruct (storage_events address items) as [evs|]; [|discriminate].
    injection Hfull as <-.
    eapply ends_in_ext.
    + intros w. apply (set_storage_cons address k v nk nv items w Hk Hv).
    + apply (ends_in_mbind _ tt _ _ [set_storage_request address nk nv] evs).
      * apply ends_in_request.
      * apply IH. reflexivity.
Qed.

(** Seeding the storage up to an entry that is not a number. *)
Lemma ends_in_set_storage_bad (address : string)
  (s1 : list (string * string)) (k v s : string)
  (s2 : list (string * string)) :
  forall done,
    storage_events address s1 = Some done ->
    first_unparsable k v s ->
    ends_in (set_storage address (s1 ++ (k, v) :: s2))
            (inl (invalid_literal s)) done.
Proof.
  induction s1 as [|[k0 v0] s1 IH]; intros done Hdone Hbad.
  - injection Hdone as <-. apply ends_in_silent. intros w.
    cbn [app set_storage]. unfold mbind at 1, lift at 1, slot_word, Exn.int16.
    destruct Hbad as [[Hk ->]|[[n Hk] [Hv ->]]]; rewrite Hk; [reflexivity|].
    cbn [Exn.bind ret]. unfold mbind at 1, lift at 1. rewrite Hv. reflexivity.
  - cbn [storage_events] in Hdone.
    destruct (Py.int16 k0) as [nk|] eqn:Hk0; [|discriminate].
    destruct (Py.int16 v0) as [nv|] eqn:Hv0; [|discriminate].
    destruct (storage_events address s1) as [evs|]; [|discriminate].
    injection Hdone as <-. cbn [app].
    eapply ends_in_ext.
    + intros w. apply (set_storage_cons address k0 v0 nk nv _ w Hk0 Hv0).
    + apply (ends_in_mbind _ tt _ _ [set_storage_request address nk nv] evs).
      * apply ends_in_request.
      * apply IH; [reflexivity | exact Hbad].
Qed.

Lemma ends_in_account_requests (address : string) (acc : account) {B}
  (k : M B) (r : result B) (full : list event) :
  ends_in k r full ->
  ends_in (mbind (provider_request "anvil_setCode"
                    [PStr address; PStr (code acc)]) (fun _ =>
           mbind (provider_request "anvil_setBalance"
                    [PStr address; PStr (balance acc)]) (fun _ =>
           mbind (provider_request "anvil_setNonce"
                    [PStr address; PStr (nonce acc)]) (fun _ => k))))
          r (account_requests address acc ++ full).
Proof.
  intros Hk. unfold account_requests. cbn [app].
  apply (ends_in_mbind _ tt _ _ [_]); [apply ends_in_request|].
  apply (ends_in_mbind _ tt _ _ [_]); [apply ends_in_request|].
  apply (ends_in_mbind _ tt _ _ [_]); [apply ends_in_request|].
  exact Hk.
Qed.

Lemma ends_in_set_accounts (items : list (string * account)) :
  forall full,
    seed_events items = Some full ->
    ends_in (set_accounts items) (inr tt) full.
Proof.
  induction items as [|[address acc] items IH]; intros full Hfull.
  - injection Hfull as <-. apply ends_in_silent. reflexivity.
  - cbn [seed_events] in Hfull.
    destruct (storage_events address (storage acc)) as [s|] eqn:Hs;
      [|discriminate].
    destruct (seed_events items) as [r|]; [|discriminate].
    injection Hfull as <-. cbn [set_accounts].
    apply ends_in_account_requests.
    apply (ends_in_mbind _ tt); [apply ends_in_set_storage, Hs|].
    apply IH. reflexivity.
Qed.

Lemma ends_in_set_accounts_bad (before : list (string * account))
  (address : string) (acc : account) (after : list (string * account))
  (s1 : list (string * string)) (k v s : string)
  (s2 : list (string * string)) :
  forall doneB doneS,
    seed_events before = Some doneB ->
    storage acc = (s1 ++ (k, v) :: s2)%list ->
    storage_events address s1 = Some doneS ->
    first_unparsable k v s ->
    ends_in (set_accounts (before ++ (address, acc) :: after))
            (inl (invalid_literal s))
            (doneB ++ account_requests address acc ++ doneS).
Proof.
  induction before as [|[a0 acc0] before IH];
    intros doneB doneS HdoneB Hst HdoneS Hbad.
  - injection HdoneB as <-. cbn [app set_accounts].
    apply ends_in_account_requests.
    rewrite <- (app_nil_r doneS).
    intros w. unfold mbind. rewrite Hst.
    destruct (ends_in_set_storage_bad address s1 k v s s2 doneS HdoneS Hbad w)
      as (n & ->).
    exists n. rewrite app_nil_r. reflexivity.
  - cbn [seed_events] in HdoneB.
    destruct (storage_events a0 (storage acc0)) as [s0|] eqn:Hs0;
      [|discriminate].
    destruct (seed_events before) as [r|]; [|discriminate].
    injection HdoneB as <-. cbn [app set_accounts].
    rewrite <- !app_assoc.
    apply ends_in_account_requests.
    apply (ends_in_mbind _ tt); [apply ends_in_set_storage, Hs0|].
    apply (IH r doneS); [reflexivity | exact Hst | exact HdoneS | exact Hbad].
Qed.

(** X17. On a node that raises on no request, [set_pre_state] of a
    [pre] whose storage keys and values are all numbers returns, having
    made exactly the requests of the seeding, in order. *)
Theorem set_pre_state_accepted (data : test_data) (full : list event)
  (w : world) :
  seed_events (pre data) = Some full ->
  exists n, set_pre_state data w = (inr tt, logged w n full).
Proof.
  intros Hfull. apply (ends_in_set_accounts (pre data) full Hfull).
Qed.

(** X18. A storage key or value that is not a number stops the seeding
    with the [ValueError] of [int(s, 16)] for that string, at that
    entry: the accounts before it are seeded, and of its own account the
    code, balance and nonce and the storage entries before it; those
    requests are not taken back, and nothing after them is requested. *)
Theorem set_pre_state_bad_storage (data : test_data)
  (before : list (string * account)) (address : string) (acc : account)
  (after : list (string * account))
  (s1 : list (string * string)) (k v s : string)
  (s2 : list (string * string)) (doneB doneS : list event) (w : world) :
  pre data = (before ++ (address, acc) :: after)%list ->
  seed_events before = Some doneB ->
  storage acc = (s1 ++ (k, v) :: s2)%list ->
  storage_events address s1 = Some doneS ->
  first_unparsable k v s ->
  exists n,
    set_pre_state data w
    = (inl (invalid_literal s),
       logged w n (doneB ++ account_requests address acc ++ doneS)).
Proof.
  intros Hpre HdoneB Hst HdoneS Hbad. unfold set_pre_state. rewrite Hpre.
  apply (ends_in_set_accounts_bad before address acc after s1 k v s s2
           doneB doneS HdoneB Hst HdoneS Hbad).
Qed.

End Accepting.

End WithNode.

(** ** The theorems at concrete nodes *)

Import Sample.

Lemma main_fails_before_launch_witness :
  @main libs (corpus_of "mul" "" files) quiet_node start
  = (inl (@Loader.not_found_error (corpus_of "mul" "" files)), start)
  /\ @main libs (corpus_of "stBad" "" bad_files) quiet_node start
     = (inl (Exn Exception [Lit "Could not launch anvil"]
               (Some (Exn Exception [Lit "Could not find block in test data"]
                        (Some not_hex)))),
        start).
Proof.
  split.
  - apply (proj1 (@main_fails_before_launch libs (corpus_of "mul" "" files)
                    quiet_node start)).
    vm_compute. reflexivity.
  - apply (proj2 (@main_fails_before_launch libs
                    (corpus_of "stBad" "" bad_files) quiet_node start)
             (vector "0x0" "0xzz")).
    + vm_compute. reflexivity.
    + vm_compute. reflexivity.
Defined.

Lemma main_not_connected_witness :
  fst (@main libs (corpus_of "stExample_add" "" files) down_node down_start)
  = inl (Exn Exception [Lit "Not connected to anvil endpoint"] None)
  /\ log (snd (@main libs (corpus_of "stExample_add" "" files) down_node
                 down_start))
     = (log down_start ++ launch_events two_tx_block
          ++ [IsConnected; Terminate])%list.
Proof.
  apply (@main_not_connected libs (corpus_of "stExample_add" "" files)
           down_node (vector "0x0" "0x0102") two_tx_block down_start).
  - vm_compute. reflexivity.
  - vm_compute. reflexivity.
  - reflexivity.
Defined.

Lemma main_success_witness :
  exists test b,
    @Loader.get_test_file (corpus_of "stExample_add" "" files) = inr test
    /\ @get_block libs test = inr b
    /\ transactions b <> []
    /\ List.length ["0x01"; "0x02"] = List.length (transactions b)
    /\ @Verifier.check_post_state libs
         (eth_of (the_node
            (snd (@main libs (corpus_of "stExample_add" "" files)
                    quiet_node start))))
         test = inr tt
    /\ exists evs first,
         nth_error ["0x01"; "0x02"] 0 = Some first
         /\ log (snd (@main libs (corpus_of "stExample_add" "" files)
                        quiet_node start))
            = (log start ++ evs ++ map cast_run ["0x01"; "0x02"]
                 ++ [ClipboardCopy [Lit "cast run "; FStr first; Lit " --debug"];
                     HandlerWait])%list
         /\ Forall (fun ev => (stage ev <= 2)%nat) evs.
Proof.
  apply (@main_success libs (corpus_of "stExample_add" "" files) quiet_node
           start).
  vm_compute. reflexivity.
Defined.

Lemma main_failure_terminates_witness :
  snd (@main libs (corpus_of "sub" "" files) quiet_node start) = start
  \/ exists test evs n,
       @Loader.get_test_file (corpus_of "sub" "" files) = inr test
       /\ fst (@main_body libs quiet_node test
                 (snd (@AnvilHandler_init libs quiet_node test start)))
          = inl no_transaction_error
       /\ snd (@main libs (corpus_of "sub" "" files) quiet_node start)
          = logged start n (evs ++ [Terminate])
       /\ Forall (fun ev => (stage ev <= 3)%nat) evs.
Proof.
  apply (@main_failure_terminates libs (corpus_of "sub" "" files) quiet_node
           start no_transaction_error).
  vm_compute. reflexivity.
Defined.

Lemma set_pre_state_in_order_witness :
  exists evs rest,
    log (snd (@set_pre_state quiet_node (vector "0x0" "0x0102") start))
    = (log start ++ evs)%list
    /\ (account_requests sender funded ++ [set_storage_request sender 1 2])%list
       = (evs ++ rest)%list
    /\ (fst (@set_pre_state quiet_node (vector "0x0" "0x0102") start) = inr tt
        -> rest = []).
Proof.
  apply (@set_pre_state_in_order quiet_node (vector "0x0" "0x0102")).
  vm_compute. reflexivity.
Defined.

Lemma quiet_node_accepting : @accepting quiet_node.
Proof. intros method params n. reflexivity. Qed.

Lemma set_pre_state_accepted_witness :
  exists n,
    @set_pre_state quiet_node (vector "0x0" "0x0102") start
    = (inr tt,
       logged start n
         (account_requests sender funded ++ [set_storage_request sender 1 2])).
Proof.
  apply (@set_pre_state_accepted quiet_node quiet_node_accepting
           (vector "0x0" "0x0102")).
  vm_compute. reflexivity.
Defined.

Lemma set_pre_state_bad_storage_witness :
  exists n,
    @set_pre_state quiet_node half_vector start
    = (inl (invalid_literal "oops"),
       logged start n
         ((account_requests sender funded ++ [set_storage_request sender 1 2])
            ++ account_requests beacon half_stored
            ++ [set_storage_request beacon 1 2])).
Proof.
  apply (@set_pre_state_bad_storage quiet_node quiet_node_accepting
           half_vector [(sender, funded)] beacon half_stored
           [(sender, funded)] [("0x01", "0x02")] "0x03" "oops" "oops"
           [("0x04", "0x05")]).
  - reflexivity.
  - vm_compute. reflexivity.
  - reflexivity.
  - vm_compute. reflexivity.
  - right. split; [exists 3; vm_compute; reflexivity|].
    split; [vm_compute; reflexivity | reflexivity].
Defined.

End PipelineMore.

(* ------------------------------------------------------------------ *)
(** * A slot seeded and read back *)

Module SeedAndVerify.
Import Py Vocabulary PyFacts VerifierFacts Pipeline.

Lemma is_space_hexchar (d : Z) : 0 <= d < 16 -> is_space (hexchar d) = false.
Proof.
  intros Hd.
  assert (Hcases : d = 0 \/ d = 1 \/ d = 2 \/ d = 3 \/ d = 4 \/ d = 5 \/ d = 6
                   \/ d = 7 \/ d = 8 \/ d = 9 \/ d = 10 \/ d = 11 \/ d = 12
                   \/ d = 13 \/ d = 14 \/ d = 15) by lia.
  repeat (destruct Hcases as [->|Hcases]; [reflexivity|]).
  subst d. reflexivity.
Qed.

Lemma byte_of_Z_value (z : Z) :
  0 <= z < 256 -> Z.of_N (Byte.to_N (byte_of_Z z)) = z.
Proof.
  intros Hz. unfold byte_of_Z.
  destruct (Byte.of_N (Z.to_N z)) as [b|] eqn:E.
  - apply Byte.to_of_N in E. rewrite E. apply Z2N.id. lia.
  - apply Byte.of_N_None_iff in E. lia.
Qed.

(** [bytes.fromhex] reads pairs of digits as the bytes they spell. *)
Lemma bytes_fromhex_digits (m : nat) :
  forall ds : list Z,
    List.length ds = (2 * m)%nat ->
    Forall (fun d => 0 <= d < 16) ds ->
    bytes_fromhex (string_of_list_ascii (map hexchar ds))
    = Some (map byte_of_Z (pair_values ds)).
Proof.
  induction m as [|m IH]; intros ds Hlen Hds.
  - destruct ds; [reflexivity | discriminate].
  - destruct ds as [|d1 [|d2 ds]]; try (cbn [List.length] in Hlen; lia).
    pose proof (Forall_inv Hds) as Hd1.
    pose proof (Forall_inv (Forall_inv_tail Hds)) as Hd2.
    pose proof (Forall_inv_tail (Forall_inv_tail Hds)) as Hds2.
    cbn beta in Hd1, Hd2.
    cbn [map string_of_list_ascii bytes_fromhex pair_values].
    rewrite (is_space_hexchar d1 Hd1), (hex_digit_hexchar d1 Hd1),
      (hex_digit_hexchar d2 Hd2).
    rewrite IH; [reflexivity | | exact Hds2].
    cbn [List.length] in Hlen. lia.
Qed.

Lemma pair_values_length (m : nat) :
  forall ds : list Z,
    List.length ds = (2 * m)%nat -> List.length (pair_values ds) = m.
Proof.
  induction m as [|m IH]; intros ds Hlen.
  - destruct ds; [reflexivity | discriminate].
  - destruct ds as [|d1 [|d2 ds]]; try (cbn [List.length] in Hlen; lia).
    cbn [pair_values List.length]. f_equal. apply IH.
    cbn [List.length] in Hlen. lia.
Qed.

(** [int.from_bytes(..., "big")] of those bytes is the number the digits
    denote. *)
Lemma int_from_bytes_digits (m : nat) :
  forall (ds : list Z) (acc : Z),
    List.length ds = (2 * m)%nat ->
    Forall (fun d => 0 <= d < 16) ds ->
    fold_left (fun a x => 256 * a + Z.of_N (Byte.to_N x))
      (map byte_of_Z (pair_values ds)) acc
    = be_value acc ds.
Proof.
  induction m as [|m IH]; intros ds acc Hlen Hds.
  - destruct ds; [reflexivity | discriminate].
  - destruct ds as [|d1 [|d2 ds]]; try (cbn [List.length] in Hlen; lia).
    pose proof (Forall_inv Hds) as Hd1.
    pose proof (Forall_inv (Forall_inv_tail Hds)) as Hd2.
    pose proof (Forall_inv_tail (Forall_inv_tail Hds)) as Hds2.
    cbn beta in Hd1, Hd2.
    cbn [pair_values map fold_left be_value].
    rewrite byte_of_Z_value by lia.
    rewrite IH; [f_equal; lia | | exact Hds2].
    cbn [List.length] in Hlen. lia.
Qed.

(** X19. What the seeder sends for a storage value and what the
    verifier expects of it meet: for a string [v] of a 256-bit number,
    the word that [set_pre_state] sends is thirty-two bytes in
    hexadecimal, and a node that answers [get_storage_at] with those
    bytes passes the verifier's assertion for that slot against [v], and
    against any other spelling [v'] of the same number. *)
Theorem seeded_slot_verifies (w3 : eth) (address k v v' : string) (n : Z) :
  Py.int16 v = Some n ->
  0 <= n < 2 ^ 256 ->
  Py.int16 v' = Some n ->
  exists word raw,
    slot_word v = inr word
    /\ Py.bytes_fromhex (slice_from 2 word) = Some raw
    /\ List.length raw = 32%nat
    /\ (get_storage_at w3 address k = inr raw ->
        Verifier.assert_slot w3 address k v' = inr tt).
Proof.
  intros Hv Hn Hv'.
  pose (ds := rev (fixed_le 64 n)).
  assert (Hlen : List.length ds = (2 * 32)%nat).
  { unfold ds. rewrite length_rev. apply fixed_le_length. }
  assert (Hds : Forall (fun d => 0 <= d < 16) ds).
  { apply Forall_rev, fixed_le_range. }
  exists ("0x" ++ format_064x n), (map byte_of_Z (pair_values ds)).
  split; [|split; [|split]].
  - unfold slot_word, Exn.int16. rewrite Hv. reflexivity.
  - rewrite (format_064x_fixed n Hn). cbn [append slice_from].
    apply (bytes_fromhex_digits 32 ds Hlen Hds).
  - rewrite length_map. apply pair_values_length, Hlen.
  - intros Hraw. apply (assert_slot_agrees w3 address k v').
    exists (VInt n). cbn [fst snd live expected]. rewrite Hraw, Hv'.
    cbn [rmap option_map]. split; [|reflexivity].
    do 2 f_equal. unfold int_from_bytes_big.
    rewrite (int_from_bytes_digits 32 ds 0 Hlen Hds).
    apply fixed_le_value. change (16 ^ Z.of_nat 64) with (2 ^ 256). exact Hn.
Qed.

Lemma seeded_slot_verifies_witness :
  exists word raw,
    slot_word "0x02" = inr word
    /\ Py.bytes_fromhex (slice_from 2 word) = Some raw
    /\ List.length raw = 32%nat
    /\ get_storage_at Sample.eth_word2 Sample.sender "0x01" = inr raw
    /\ Verifier.assert_slot Sample.eth_word2 Sample.sender "0x01" "0x0002"
       = inr tt.
Proof.
  destruct (seeded_slot_verifies Sample.eth_word2 Sample.sender "0x01"
              "0x02" "0x0002" 2 eq_refl ltac:(lia) eq_refl)
    as (word & raw & Hword & Hraw & Hlen & Hpass).
  vm_compute in Hword. injection Hword as <-.
  vm_compute in Hraw. injection Hraw as <-.
  eexists. eexists.
  split; [vm_compute; reflexivity|].
  split; [vm_compute; reflexivity|].
  split; [reflexivity|].
  split; [reflexivity|].
  apply Hpass. reflexivity.
Defined.

End SeedAndVerify.
